(** * The CENC / PSSH initialisation-data codec of [slyguy/util.py]

    A shallow embedding of [cenc_init], [parse_cenc_init] and
    [cenc_version1to0], together with the parts of Python's [struct],
    [bytearray] slicing and [base64] that those three functions rely on.

    Conventions:
    - a Python [bytes]/[bytearray] value is a [list byte];
    - a Python [int] that the code only uses as a length, an offset or an
      unsigned field value is an [N];
    - a Python [str] is a [string];
    - a raised exception is the [Raise] constructor of [result]. *)

From Stdlib Require Import List Arith NArith ZArith Lia Bool.
From Stdlib Require Import Strings.Byte Strings.Ascii Strings.String.
Import ListNotations.

Local Open Scope N_scope.

(** ** Exceptions and the error monad *)

(** The exceptions the three functions can raise: [struct.error] (from
    [struct.pack] and [struct.unpack]), [binascii.Error] (from
    [base64.b64decode]) and [ValueError] (non-ASCII text handed to
    [base64.b64decode]). *)
Inductive exn : Type :=
| StructError
| BinasciiError
| ValueError.

Inductive result (A : Type) : Type :=
| Ok (a : A)
| Raise (e : exn).

Arguments Ok {A} a.
Arguments Raise {A} e.

Definition bind {A B : Type} (m : result A) (k : A -> result B) : result B :=
  match m with
  | Ok a => k a
  | Raise e => Raise e
  end.

Notation "x <- m ;; k" := (bind m (fun x => k))
  (at level 61, m at next level, right associativity).

Definition is_ok {A : Type} (m : result A) : bool :=
  match m with
  | Ok _ => true
  | Raise _ => false
  end.

(** ** Bytes, lengths and slices *)

Abbreviation bytes := (list byte) (only parsing).

(** Python's [len]. *)
Definition len {A : Type} (l : list A) : N := N.of_nat (List.length l).

(** The byte whose value is [n mod 256]. *)
Definition byte_of_N (n : N) : byte :=
  match Byte.of_N (n mod 256) with
  | Some b => b
  | None => x00
  end.

(** [bytearray(n)]: [n] zero bytes. *)
Definition bytearray (n : N) : bytes := repeat x00 (N.to_nat n).

(** [a[i:j]] for non-negative [i] and [j]: both ends are clipped to the
    length of [a], and the slice is empty when [j <= i]. *)
Definition get_slice {A : Type} (a : list A) (i j : N) : list A :=
  firstn (N.to_nat (j - i)) (skipn (N.to_nat i) a).

(** [a[i:j] = x] on a [bytearray]: the (clipped) slice is replaced by [x],
    whatever the length of [x], so the buffer shrinks or grows when
    [len x] differs from the length of the slice. *)
Definition set_slice {A : Type} (a : list A) (i j : N) (x : list A) : list A :=
  firstn (N.to_nat i) a ++ x ++ skipn (N.to_nat (N.max i j)) a.

(** Truthiness of a sequence: empty sequences are falsy. *)
Definition truthy {A : Type} (l : list A) : bool :=
  match l with
  | [] => false
  | _ :: _ => true
  end.

(** [x or d] for an optional sequence argument: [None] and the empty
    sequence both select the default. *)
Definition or_default {A : Type} (x : option (list A)) (d : list A) : list A :=
  match x with
  | Some (a :: l) => a :: l
  | _ => d
  end.

Definition bytes_eqb (a b : bytes) : bool :=
  if list_eq_dec Byte.byte_eq_dec a b then true else false.

(** ** [struct.pack] and [struct.unpack] for the formats [">I"] and ["<I"] *)

(** The four bytes of [n], most significant first. *)
Definition be_bytes (n : N) : bytes :=
  [ byte_of_N (N.shiftr n 24); byte_of_N (N.shiftr n 16);
    byte_of_N (N.shiftr n 8); byte_of_N n ].

(** The four bytes of [n], least significant first. *)
Definition le_bytes (n : N) : bytes :=
  [ byte_of_N n; byte_of_N (N.shiftr n 8);
    byte_of_N (N.shiftr n 16); byte_of_N (N.shiftr n 24) ].

(** [struct.pack(">I", n)]: raises [struct.error] unless [0 <= n < 2^32]. *)
Definition pack_be (n : N) : result bytes :=
  if n <? 2 ^ 32 then Ok (be_bytes n) else Raise StructError.

(** [struct.pack("<I", n)]. *)
Definition pack_le (n : N) : result bytes :=
  if n <? 2 ^ 32 then Ok (le_bytes n) else Raise StructError.

(** [struct.unpack(">I", b)]: raises [struct.error] unless [b] has exactly
    four bytes. *)
Definition unpack_be (b : bytes) : result N :=
  match b with
  | [b0; b1; b2; b3] =>
      Ok (N.lor (N.shiftl (Byte.to_N b0) 24)
           (N.lor (N.shiftl (Byte.to_N b1) 16)
             (N.lor (N.shiftl (Byte.to_N b2) 8) (Byte.to_N b3))))
  | _ => Raise StructError
  end.

(** [struct.unpack("<I", b)]. *)
Definition unpack_le (b : bytes) : result N :=
  match b with
  | [b0; b1; b2; b3] =>
      Ok (N.lor (N.shiftl (Byte.to_N b3) 24)
           (N.lor (N.shiftl (Byte.to_N b2) 16)
             (N.lor (N.shiftl (Byte.to_N b1) 8) (Byte.to_N b0))))
  | _ => Raise StructError
  end.

(** ** [base64.b64encode] and [base64.b64decode]

    The standard alphabet, [=] padding, no line breaks.  The decoder is
    the lenient one [base64.b64decode] uses by default ([validate=False]):
    characters outside the alphabet are skipped, and decoding stops at a
    complete pad sequence. *)

Definition b64_alphabet : string :=
  "ABCDEFGHIJKLMNOPQRSTUVWXYZabcdefghijklmnopqrstuvwxyz0123456789+/".

(** The character of a six-bit digit. *)
Definition b2a_digit (n : N) : ascii :=
  match String.get (N.to_nat n) b64_alphabet with
  | Some c => c
  | None => "A"%char
  end.

(** The six-bit digit of a character, [None] outside the alphabet. *)
Definition a2b_digit (c : ascii) : option N :=
  let n := N_of_ascii c in
  if (65 <=? n) && (n <=? 90) then Some (n - 65)
  else if (97 <=? n) && (n <=? 122) then Some (n - 71)
  else if (48 <=? n) && (n <=? 57) then Some (n + 4)
  else if n =? 43 then Some 62
  else if n =? 47 then Some 63
  else None.

(** [binascii.b2a_base64(data, newline=False)], three bytes at a time. *)
Fixpoint b2a_base64 (data : bytes) : string :=
  match data with
  | [] => EmptyString
  | [a] =>
      let a := Byte.to_N a in
      String (b2a_digit (N.shiftr a 2))
        (String (b2a_digit (N.shiftl (N.land a 3) 4)) "==")
  | [a; b] =>
      let a := Byte.to_N a in
      let b := Byte.to_N b in
      String (b2a_digit (N.shiftr a 2))
        (String (b2a_digit (N.lor (N.shiftl (N.land a 3) 4) (N.shiftr b 4)))
          (String (b2a_digit (N.shiftl (N.land b 15) 2)) "="))
  | a :: b :: c :: rest =>
      let a := Byte.to_N a in
      let b := Byte.to_N b in
      let c := Byte.to_N c in
      String (b2a_digit (N.shiftr a 2))
        (String (b2a_digit (N.lor (N.shiftl (N.land a 3) 4) (N.shiftr b 4)))
          (String (b2a_digit (N.lor (N.shiftl (N.land b 15) 2) (N.shiftr c 6)))
            (String (b2a_digit (N.land c 63)) (b2a_base64 rest))))
  end.

(** [base64.b64encode(data).decode('utf8')]. *)
Definition b64encode (data : bytes) : string := b2a_base64 data.

(** One more output byte in front of what the rest of the input decodes
    to; an error later in the input still fails the whole call. *)
Definition emit (b : byte) (m : result bytes) : result bytes :=
  out <- m ;; Ok (b :: out).

(** [binascii.a2b_base64(s)] in its default, non-strict mode, as the loop
    over the input with its three state variables. *)
Fixpoint a2b_base64 (s : string) (quad_pos leftchar pads : N) : result bytes :=
  match s with
  | EmptyString =>
      if quad_pos =? 0 then Ok [] else Raise BinasciiError
  | String this_ch rest =>
      if Ascii.eqb this_ch "=" then
        if 2 <=? quad_pos then
          if 4 <=? quad_pos + (pads + 1) then Ok []
          else a2b_base64 rest quad_pos leftchar (pads + 1)
        else a2b_base64 rest quad_pos leftchar pads
      else
        match a2b_digit this_ch with
        | None => a2b_base64 rest quad_pos leftchar pads
        | Some d =>
            match quad_pos with
            | 0 => a2b_base64 rest 1 d 0
            | 1 =>
                emit (byte_of_N (N.lor (N.shiftl leftchar 2) (N.shiftr d 4)))
                     (a2b_base64 rest 2 (N.land d 15) 0)
            | 2 =>
                emit (byte_of_N (N.lor (N.shiftl leftchar 4) (N.shiftr d 2)))
                     (a2b_base64 rest 3 (N.land d 3) 0)
            | _ =>
                emit (byte_of_N (N.lor (N.shiftl leftchar 6) d))
                     (a2b_base64 rest 0 0 0)
            end
        end
  end.

Fixpoint is_ascii (s : string) : bool :=
  match s with
  | EmptyString => true
  | String c rest => (N_of_ascii c <? 128) && is_ascii rest
  end.

(** [base64.b64decode(s)] for a [str] argument: the text is first encoded
    as ASCII, which raises [ValueError] on any other character. *)
Definition b64decode (s : string) : result bytes :=
  if is_ascii s then a2b_base64 s 0 0 0 else Raise ValueError.

(** ** The constants of [slyguy/constants.py] *)

(** Modelled from the spec: [WIDEVINE_UUID] is imported from
    [constants.py]; it is the 16-byte Widevine system ID
    edef8ba9-79d6-4ace-a3c8-27dcd51d21ed. *)
Definition WIDEVINE_UUID : bytes :=
  [xed; xef; x8b; xa9; x79; xd6; x4a; xce;
   xa3; xc8; x27; xdc; xd5; x1d; x21; xed].

(** Modelled from the spec: [WIDEVINE_PSSH] is imported from
    [constants.py]; it is the fixed 4-byte box-type tag "pssh". *)
Definition WIDEVINE_PSSH : bytes := [x70; x73; x73; x68].

(** ** [cenc_init] *)

(** The loop [for kid in kids] of [cenc_init]: each key ID is assigned to
    the slice [pos:pos+len(uuid)], and [pos] advances by [len(kid)]. *)
Fixpoint write_kids (uuid : bytes) (kids : list bytes)
    (init_data : bytes) (pos : N) : bytes * N :=
  match kids with
  | [] => (init_data, pos)
  | kid :: kids' =>
      write_kids uuid kids'
        (set_slice init_data pos (pos + len uuid) kid) (pos + len kid)
  end.

(** The body of [cenc_init] up to the final [base64.b64encode]: the byte
    buffer [init_data]. *)
Definition cenc_init_box (data uuid : option bytes)
    (kids : option (list bytes)) : result bytes :=
  let data := or_default data [] in
  let uuid := or_default uuid WIDEVINE_UUID in
  let kids := or_default kids [] in
  let length := len data + 32 in
  let length :=
    if truthy kids then length + (len kids * 16 + 4) else length in
  let init_data := bytearray length in
  let pos := 0 in
  (* length (4 bytes) *)
  r_uint32 <- pack_be length ;;
  let init_data := set_slice init_data pos (pos + len r_uint32) r_uint32 in
  let pos := pos + len r_uint32 in
  (* pssh (4 bytes) *)
  let init_data :=
    set_slice init_data pos (pos + len r_uint32) WIDEVINE_PSSH in
  let pos := pos + len WIDEVINE_PSSH in
  (* version (1 if kids else 0) *)
  r_uint32 <- pack_le (if truthy kids then 1 else 0) ;;
  let init_data := set_slice init_data pos (pos + len r_uint32) r_uint32 in
  let pos := pos + len r_uint32 in
  (* uuid (16 bytes) *)
  let init_data := set_slice init_data pos (pos + len uuid) uuid in
  let pos := pos + len uuid in
  st <- (if truthy kids then
           (* kid count (4 bytes) *)
           r_uint32 <- pack_be (len kids) ;;
           let init_data :=
             set_slice init_data pos (pos + len r_uint32) r_uint32 in
           let pos := pos + len r_uint32 in
           Ok (write_kids uuid kids init_data pos)
         else Ok (init_data, pos)) ;;
  let init_data := fst st in
  let pos := snd st in
  (* length of data (4 bytes) *)
  r_uint32 <- pack_be (len data) ;;
  let init_data := set_slice init_data pos (pos + len r_uint32) r_uint32 in
  let pos := pos + len r_uint32 in
  (* data (X bytes) *)
  let init_data := set_slice init_data pos (pos + len data) data in
  Ok init_data.

Definition cenc_init (data uuid : option bytes)
    (kids : option (list bytes)) : result string :=
  init_data <- cenc_init_box data uuid kids ;;
  Ok (b64encode init_data).

(** ** [parse_cenc_init] *)

(** What [parse_cenc_init] returns: [(uuid, version, data, kids)]. *)
Definition parsed : Type := (bytes * N * bytes * list bytes)%type.

(** The loop [for i in range(num_kids)] of [parse_cenc_init]. *)
Fixpoint read_kids (num_kids : nat) (init_data : bytes) (pos : N)
    (kids : list bytes) : list bytes * N :=
  match num_kids with
  | O => (kids, pos)
  | S n =>
      read_kids n init_data (pos + 16)
        (kids ++ [get_slice init_data pos (pos + 16)])
  end.

(** The body of [parse_cenc_init] after [base64.b64decode], on the byte
    buffer; the final value of the local [pos] is returned with the
    result. *)
Definition parse_box (init_data : bytes) : result (parsed * N) :=
  let pos := 0 in
  (* length (4 bytes) *)
  length <- unpack_be (get_slice init_data pos (pos + 4)) ;;
  let pos := pos + 4 in
  (* pssh (4 bytes) *)
  pssh <- unpack_be (get_slice init_data pos (pos + 4)) ;;
  let pos := pos + 4 in
  (* version (4 bytes) *)
  version <- unpack_le (get_slice init_data pos (pos + 4)) ;;
  let pos := pos + 4 in
  (* uuid (16 bytes) *)
  let uuid := get_slice init_data pos (pos + 16) in
  let pos := pos + 16 in
  st <- (if version =? 1 then
           (* kid count (4 bytes) *)
           num_kids <- unpack_be (get_slice init_data pos (pos + 4)) ;;
           let pos := pos + 4 in
           Ok (read_kids (N.to_nat num_kids) init_data pos [])
         else Ok ([], pos)) ;;
  let kids := fst st in
  let pos := snd st in
  (* length of data (4 bytes) *)
  data_length <- unpack_be (get_slice init_data pos (pos + 4)) ;;
  let pos := pos + 4 in
  (* data *)
  let data := get_slice init_data pos (pos + data_length) in
  let pos := pos + data_length in
  Ok ((uuid, version, data, kids), pos).

Definition parse_cenc_init (b64string : string) : result parsed :=
  init_data <- b64decode b64string ;;
  r <- parse_box init_data ;;
  Ok (fst r).

(** ** [cenc_version1to0] *)

Definition cenc_version1to0 (cenc : string) : result string :=
  r <- parse_cenc_init cenc ;;
  let '(uuid, version, data, kids) := r in
  if negb (version =? 1) || negb (truthy data)
     || negb (bytes_eqb uuid WIDEVINE_UUID)
  then Ok cenc
  else cenc_init (Some data) None None.

(** A buffer is a well-formed box when [parse_cenc_init] reads it without
    error and every region it reads lies inside the buffer. *)
Definition well_formed (box : bytes) : bool :=
  match parse_box box with
  | Ok (_, pos) => pos <=? len box
  | Raise _ => false
  end.

(** ** Definitions the statements below are written with *)

(** Every byte, for checks by enumeration. *)
Definition all_bytes : list byte :=
  map (fun n => byte_of_N (N.of_nat n)) (seq 0 256).

(** What the round trip needs of the character of a digit: it is not the
    pad character, it maps back to the digit, and it is ASCII. *)
Definition digit_ok (d : N) : bool :=
  negb (Ascii.eqb (b2a_digit d) "=")
  && match a2b_digit (b2a_digit d) with
     | Some d' => d' =? d
     | None => false
     end
  && (N_of_ascii (b2a_digit d) <? 128).

(** The six-bit digits the encoder cuts out of one, two or three bytes,
    and the bytes the decoder puts together again. *)
Definition sextet0 (a : byte) : N := N.shiftr (Byte.to_N a) 2.
Definition sextet1 (a b : byte) : N :=
  N.lor (N.shiftl (N.land (Byte.to_N a) 3) 4) (N.shiftr (Byte.to_N b) 4).
Definition sextet2 (b c : byte) : N :=
  N.lor (N.shiftl (N.land (Byte.to_N b) 15) 2) (N.shiftr (Byte.to_N c) 6).
Definition sextet3 (c : byte) : N := N.land (Byte.to_N c) 63.

(** The declared length in the words of the format description: 32 bytes
    of fixed fields and the payload, and the count field and 16 bytes
    per key ID when there are key IDs.  [computed_length] below is the
    expression [cenc_init] evaluates. *)
Definition box_length (data : bytes) (kids : list bytes) : N :=
  32 + len data + (if truthy kids then 4 + 16 * len kids else 0).

(** The box in the words of the format description, field by field in
    wire order; [cenc_init_box_layout] below shows that the sequence of
    slice assignments in [cenc_init] builds exactly this. *)
Definition box_layout (data uuid : bytes) (kids : list bytes) : bytes :=
  be_bytes (box_length data kids)
  ++ WIDEVINE_PSSH
  ++ le_bytes (if truthy kids then 1 else 0)
  ++ uuid
  ++ (if truthy kids then be_bytes (len kids) ++ List.concat kids else [])
  ++ be_bytes (len data)
  ++ data.

(** Every key ID has 16 bytes. *)
Definition all_len16 (kids : list bytes) : Prop :=
  Forall (fun kid : bytes => len kid = 16) kids.

(** The key-ID region of [parse_cenc_init], with the offsets the fixed
    fields before it leave. *)
Definition read_kid_region (init_data : bytes) (version : N)
  : result (list bytes * N) :=
  if version =? 1 then
    num_kids <- unpack_be (get_slice init_data 28 32) ;;
    Ok (read_kids (N.to_nat num_kids) init_data 32 [])
  else Ok ([], 28).

(** The offset at which the payload starts, from what was parsed. *)
Definition data_offset (r : parsed) : N :=
  let '(_, version, _, kids) := r in
  if version =? 1 then 36 + 16 * len kids else 32.

(** Two buffers agree between [lo] and [hi] when every slice taken there
    is the same in both. *)
Definition agree (lo hi : N) (B B' : bytes) : Prop :=
  forall i j, lo <= i -> i <= j -> j <= hi ->
    get_slice B' i j = get_slice B i j.

(** The length [cenc_init] computes from its arguments. *)
Definition computed_length (data : bytes) (kids : list bytes) : N :=
  if truthy kids then len data + 32 + (len kids * 16 + 4) else len data + 32.

(** Concrete values for the examples. *)
Definition sample_data : bytes := [x01; x02].
Definition zero_uuid : bytes := repeat x00 16.
Definition kid_aa : bytes := repeat xaa 16.
Definition kid_bb : bytes := repeat xbb 16.

(** A payload too long for the 32-bit length field: [2^32 - 32] zero
    bytes. *)
Definition huge_data : bytes := bytearray 4294967264.

(** The version-0 box [cenc_init] builds for the payload [01 02] and the
    Widevine scheme ID: 34 bytes. *)
Definition sample_box : bytes := box_layout sample_data WIDEVINE_UUID [].

(** The version-1 box for the same payload with one key ID: 54 bytes. *)
Definition sample_box_v1 : bytes :=
  box_layout sample_data WIDEVINE_UUID [kid_aa].

(** * The rest of [util.py] *)

(** ** Strings *)

(** [len(s)] for a [str]. *)
Definition slen (s : string) : N := N.of_nat (String.length s).

(** [c * n] for a one-character string [c]. *)
Definition repeat_char (c : ascii) (n : N) : string :=
  string_of_list_ascii (repeat c (N.to_nat n)).

(** [s.split(sep)] for a one-character separator. *)
Fixpoint split_char (sep : ascii) (s : string) : list string :=
  match s with
  | EmptyString => [EmptyString]
  | String c rest =>
      if Ascii.eqb c sep then EmptyString :: split_char sep rest
      else match split_char sep rest with
           | piece :: pieces => String c piece :: pieces
           | [] => [String c EmptyString]
           end
  end.

(** [s.rstrip(c)] for a one-character string [c]. *)
Fixpoint rstrip_char (c : ascii) (s : string) : string :=
  match s with
  | EmptyString => EmptyString
  | String a rest =>
      match rstrip_char c rest with
      | EmptyString => if Ascii.eqb a c then EmptyString
                       else String a EmptyString
      | r => String a r
      end
  end.

(** [c not in s]. *)
Fixpoint lacks_char (c : ascii) (s : string) : bool :=
  match s with
  | EmptyString => true
  | String a rest => negb (Ascii.eqb a c) && lacks_char c rest
  end.

(** ** [jwt_data] *)

(** What [jwt_data] can raise: [IndexError] from [token.split('.')[1]],
    the errors of [base64.b64decode], and whatever [json.loads] raises
    on bytes that are not a JSON text. *)
Inductive jwt_exn : Type :=
| IndexError
| B64Error (e : exn)
| JSONDecodeError.

(** The line marked "fix padding" of [jwt_data]. *)
Definition fix_padding (b64_string : string) : string :=
  (b64_string ++ repeat_char "=" ((4 - slen b64_string mod 4) mod 4))%string.

(** [jwt_data] up to the bytes it hands to [json.loads]. *)
Definition jwt_payload (token : string) : jwt_exn + bytes :=
  match nth_error (split_char "." token) 1 with
  | None => inl IndexError
  | Some b64_string =>
      let b64_string := fix_padding b64_string in
      match b64decode b64_string with
      | Ok raw => inr raw
      | Raise e => inl (B64Error e)
      end
  end.

(** [jwt_data], with [json.loads] as a parameter: [None] stands for its
    raising. *)
Definition jwt_data {J : Type} (json_loads : bytes -> option J)
    (token : string) : jwt_exn + J :=
  match jwt_payload token with
  | inl e => inl e
  | inr raw =>
      match json_loads raw with
      | Some j => inr j
      | None => inl JSONDecodeError
      end
  end.

(** The text JWT segments carry: [base64.urlsafe_b64encode] (the
    standard encoding with [-] for [+] and [_] for [/]) without its
    padding. *)
Definition urlsafe_char (c : ascii) : ascii :=
  if Ascii.eqb c "+" then "-"%char
  else if Ascii.eqb c "/" then "_"%char
  else c.

Fixpoint map_string (f : ascii -> ascii) (s : string) : string :=
  match s with
  | EmptyString => EmptyString
  | String c rest => String (f c) (map_string f rest)
  end.

Definition urlsafe_b64encode (data : bytes) : string :=
  map_string urlsafe_char (b64encode data).

(** The number of base64 digits in a text. *)
Fixpoint count_digits (s : string) : N :=
  match s with
  | EmptyString => 0
  | String c rest =>
      (match a2b_digit c with Some _ => 1 | None => 0 end) + count_digits rest
  end.

(** How many bytes [m] base64 digits carry: three for every four, and
    one less than what is left over. *)
Definition decoded_bound (m : N) : N := 3 * (m / 4) + (m mod 4 - 1).

(** ** [strip_namespaces] *)

(** A dictionary with [str] keys, in insertion order. *)
Definition dict (V : Type) : Type := list (string * V).

Definition keys {V : Type} (d : dict V) : list string := map fst d.

(** [d.get(k)]. *)
Fixpoint dict_get {V : Type} (k : string) (d : dict V) : option V :=
  match d with
  | [] => None
  | (k', v) :: d' => if String.eqb k' k then Some v else dict_get k d'
  end.

(** [del d[k]]: [None] stands for [KeyError]. *)
Fixpoint dict_del {V : Type} (k : string) (d : dict V) : option (dict V) :=
  match d with
  | [] => None
  | (k', v) :: d' =>
      if String.eqb k' k then Some d'
      else match dict_del k d' with
           | Some d'' => Some ((k', v) :: d'')
           | None => None
           end
  end.

(** [d[k] = v]: an existing key keeps its place, a new one goes last. *)
Fixpoint dict_set {V : Type} (k : string) (v : V) (d : dict V) : dict V :=
  match d with
  | [] => [(k, v)]
  | (k', v') :: d' =>
      if String.eqb k' k then (k, v) :: d' else (k', v') :: dict_set k v d'
  end.

(** [name and name[0] == '{'] for a [str]. *)
Definition starts_brace (name : string) : bool :=
  match name with
  | String c _ => Ascii.eqb c "{"
  | EmptyString => false
  end.

(** [s.partition(sep)[2]]: what follows the first [sep], or the empty
    string when there is none. *)
Fixpoint after_char (sep : ascii) (s : string) : string :=
  match s with
  | EmptyString => EmptyString
  | String c rest => if Ascii.eqb c sep then rest else after_char sep rest
  end.

(** The new name of a tag or attribute. *)
Definition strip_name (name : string) : string :=
  if starts_brace name then after_char "}" name else name.

(** An element of an XML tree: its tag ([None] for a tag that is not a
    [str], as comments and processing instructions have), its
    attributes and its children. *)
#[warnings="-register-all"]
Inductive element : Type :=
| Element (tag : option string) (attrib : dict string)
          (children : list element).

(** One turn of the loop over [list(attrib.items())]. *)
Definition strip_item (acc : option (dict string)) (item : string * string)
  : option (dict string) :=
  match acc with
  | None => None
  | Some attrib =>
      let '(name, value) := item in
      if starts_brace name then
        match dict_del name attrib with
        | Some attrib' => Some (dict_set (after_char "}" name) value attrib')
        | None => None
        end
      else Some attrib
  end.

(** The attribute part of the loop body; [None] stands for a
    [KeyError] from [del attrib[name]]. *)
Definition strip_attrib (attrib : dict string) : option (dict string) :=
  if truthy attrib then fold_left strip_item attrib (Some attrib)
  else Some attrib.

Definition map_option {A B : Type} (f : A -> option B)
  : list A -> option (list B) :=
  fix go (l : list A) : option (list B) :=
    match l with
    | [] => Some []
    | a :: l' =>
        match f a, go l' with
        | Some b, Some bs => Some (b :: bs)
        | _, _ => None
        end
    end.

(** [strip_namespaces(tree)]: the tree as the in-place updates leave
    it, or [None] when one of them raises. *)
Fixpoint strip_namespaces (tree : element) : option element :=
  match tree with
  | Element tag attrib children =>
      match strip_attrib attrib, map_option strip_namespaces children with
      | Some attrib', Some children' =>
          Some (Element (option_map strip_name tag) attrib' children')
      | _, _ => None
      end
  end.

(** [[el.tag for el in tree.iter()]]: the tags in document order. *)
Fixpoint tags (tree : element) : list (option string) :=
  match tree with
  | Element tag _ children => tag :: flat_map tags children
  end.

(** [[el.attrib for el in tree.iter()]]. *)
Fixpoint attribs (tree : element) : list (dict string) :=
  match tree with
  | Element _ attrib children => attrib :: flat_map attribs children
  end.

(** A name without namespace. *)
Definition plain (name : string) : bool := negb (starts_brace name).

(** A tag without namespace, or a tag that is not a [str]. *)
Definition plain_tag (tag : option string) : bool :=
  match tag with
  | Some name => plain name
  | None => true
  end.

(** ** [kodi_db] *)

(** [c.lower()] for a character below U+0100: the ASCII capitals and the
    Latin-1 capitals (all of U+00C0..U+00DE but the multiplication
    sign) move up by 32. *)
Definition lower_char (c : ascii) : ascii :=
  let n := N_of_ascii c in
  if ((65 <=? n) && (n <=? 90))
     || ((192 <=? n) && (n <=? 222) && negb (n =? 215))
  then ascii_of_N (n + 32) else c.

(** [s.lower()]. *)
Definition lower (s : string) : string := map_string lower_char s.

(** [[0-9]]. *)
Definition is_digit (c : ascii) : bool :=
  (48 <=? N_of_ascii c) && (N_of_ascii c <=? 57).

(** A character that stands for itself in a regular expression: an
    ASCII letter, a digit or the underscore. *)
Definition is_word_char (c : ascii) : bool :=
  let n := N_of_ascii c in
  ((65 <=? n) && (n <=? 90)) || ((97 <=? n) && (n <=? 122))
  || is_digit c || (n =? 95).

Fixpoint all_chars (p : ascii -> bool) (s : string) : bool :=
  match s with
  | EmptyString => true
  | String c rest => p c && all_chars p rest
  end.

(** What is left of [s] after the prefix [p], if [s] starts with it. *)
Fixpoint strip_prefix (p s : string) : option string :=
  match p, s with
  | EmptyString, _ => Some s
  | String a p', String b s' =>
      if Ascii.eqb a b then strip_prefix p' s' else None
  | String _ _, EmptyString => None
  end.

(** The longest run of digits [s] starts with, and the rest. *)
Fixpoint span_digits (s : string) : string * string :=
  match s with
  | String c rest =>
      if is_digit c then
        let '(ds, rest') := span_digits rest in (String c ds, rest')
      else (EmptyString, s)
  | EmptyString => (EmptyString, EmptyString)
  end.

(** [int(ds)] for a string of ASCII digits. *)
Definition int_of_digits (ds : string) : N :=
  fold_left (fun acc c => 10 * acc + (N_of_ascii c - 48))
            (list_ascii_of_string ds) 0.

(** [re.match('{}([0-9]+)\.db'.format(name.lower()), file.lower())] and
    [int(result.group(1))], for a [name] of word characters, which the
    pattern takes literally: [file.lower()] has to start with
    [name.lower()], then at least one digit, as many as there are, then
    [.db]; nothing is asked of what follows.  [None] stands for no
    match. *)
Definition db_version (name file : string) : option N :=
  match strip_prefix (lower name) (lower file) with
  | None => None
  | Some rest =>
      let '(ds, rest') := span_digits rest in
      match ds, strip_prefix ".db" rest' with
      | String _ _, Some _ => Some (int_of_digits ds)
      | _, _ => None
      end
  end.

(** [sorted(options, key=lambda x: x[1], reverse=True)]: descending by
    version, and stable, so options of equal version keep their
    order. *)
Fixpoint insert_desc (x : string * N) (l : list (string * N))
  : list (string * N) :=
  match l with
  | [] => [x]
  | y :: l' => if snd x <? snd y then y :: insert_desc x l' else x :: l
  end.

Definition sorted_desc (options : list (string * N)) : list (string * N) :=
  fold_right insert_desc [] options.

(** The loop of [kodi_db] over [os.listdir(db_dir)]. *)
Definition db_options (path_join : string -> string -> string)
    (db_dir : string) (name : string) (listing : list string)
  : list (string * N) :=
  flat_map (fun file =>
              match db_version name file with
              | Some version => [(path_join db_dir file, version)]
              | None => []
              end) listing.

(** [kodi_db(name)], given [os.path.join], the translated database
    directory and its listing. *)
Definition kodi_db (path_join : string -> string -> string)
    (db_dir : string) (listing : list string) (name : string)
  : option string :=
  match sorted_desc (db_options path_join db_dir name listing) with
  | option0 :: _ => Some (fst option0)
  | [] => None
  end.

(** ** [hash_6] *)

(** *** [hashlib.md5(data).digest()] (RFC 1321) *)

Definition u32 (x : N) : N := x mod 2 ^ 32.

Definition not32 (x : N) : N := N.lxor x 4294967295.

(** Rotation of a 32-bit word to the left. *)
Definition rotl32 (x c : N) : N :=
  u32 (N.lor (N.shiftl x c) (N.shiftr x (32 - c))).

Definition md5_shifts : list N :=
  [ 7; 12; 17; 22; 7; 12; 17; 22; 7; 12; 17; 22; 7; 12; 17; 22;
    5; 9; 14; 20; 5; 9; 14; 20; 5; 9; 14; 20; 5; 9; 14; 20;
    4; 11; 16; 23; 4; 11; 16; 23; 4; 11; 16; 23; 4; 11; 16; 23;
    6; 10; 15; 21; 6; 10; 15; 21; 6; 10; 15; 21; 6; 10; 15; 21 ].

(** [floor(2^32 * abs(sin(i + 1)))] for [i] from 0 to 63. *)
Definition md5_sines : list N :=
  [ 3614090360; 3905402710; 606105819; 3250441966;
    4118548399; 1200080426; 2821735955; 4249261313;
    1770035416; 2336552879; 4294925233; 2304563134;
    1804603682; 4254626195; 2792965006; 1236535329;
    4129170786; 3225465664; 643717713; 3921069994;
    3593408605; 38016083; 3634488961; 3889429448;
    568446438; 3275163606; 4107603335; 1163531501;
    2850285829; 4243563512; 1735328473; 2368359562;
    4294588738; 2272392833; 1839030562; 4259657740;
    2763975236; 1272893353; 4139469664; 3200236656;
    681279174; 3936430074; 3572445317; 76029189;
    3654602809; 3873151461; 530742520; 3299628645;
    4096336452; 1126891415; 2878612391; 4237533241;
    1700485571; 2399980690; 4293915773; 2240044497;
    1873313359; 4264355552; 2734768916; 1309151649;
    4149444226; 3174756917; 718787259; 3951481745 ].

Definition md5_state : Type := (N * N * N * N)%type.

(** Operation [i] of the 64 on one block, whose sixteen words are
    [M]. *)
Definition md5_step (M : list N) (st : md5_state) (i : nat) : md5_state :=
  let '(A, B, C, D) := st in
  let '(F, g) :=
    if (i <? 16)%nat then
      (N.lor (N.land B C) (N.land (not32 B) D), i)
    else if (i <? 32)%nat then
      (N.lor (N.land D B) (N.land (not32 D) C), ((5 * i + 1) mod 16)%nat)
    else if (i <? 48)%nat then
      (N.lxor (N.lxor B C) D, ((3 * i + 5) mod 16)%nat)
    else
      (N.lxor C (N.lor B (not32 D)), ((7 * i) mod 16)%nat) in
  let F := u32 (F + A + nth i md5_sines 0 + nth g M 0) in
  (D, u32 (B + rotl32 F (nth i md5_shifts 0)), B, C).

(** The little-endian 32-bit words of a block. *)
Fixpoint le_words (block : bytes) : list N :=
  match block with
  | b0 :: b1 :: b2 :: b3 :: rest =>
      (Byte.to_N b0 + 256 * Byte.to_N b1 + 65536 * Byte.to_N b2
       + 16777216 * Byte.to_N b3) :: le_words rest
  | _ => []
  end.

Definition md5_block (st : md5_state) (block : bytes) : md5_state :=
  let '(a0, b0, c0, d0) := st in
  let '(A, B, C, D) := fold_left (md5_step (le_words block)) (seq 0 64) st in
  (u32 (a0 + A), u32 (b0 + B), u32 (c0 + C), u32 (d0 + D)).

(** The message, a byte [80], zero bytes up to 56 modulo 64, and the
    length in bits as a little-endian 64-bit integer. *)
Definition md5_pad (msg : bytes) : bytes :=
  let bits := (8 * len msg) mod 2 ^ 64 in
  msg ++ [x80]
  ++ repeat x00 (N.to_nat ((119 - len msg mod 64) mod 64))
  ++ le_bytes bits ++ le_bytes (N.shiftr bits 32).

(** The blocks of 64 bytes of a padded message. *)
Fixpoint md5_blocks (fuel : nat) (msg : bytes) : list bytes :=
  match fuel, msg with
  | S fuel', _ :: _ => firstn 64 msg :: md5_blocks fuel' (skipn 64 msg)
  | _, _ => []
  end.

Definition md5 (msg : bytes) : bytes :=
  let padded := md5_pad msg in
  let '(a, b, c, d) :=
    fold_left md5_block (md5_blocks (List.length padded) padded)
      (1732584193, 4023233417, 2562383102, 271733878) in
  le_bytes a ++ le_bytes b ++ le_bytes c ++ le_bytes d.

(** *** The function *)

(** [s.encode('utf8')] for a [str] of characters below U+0100. *)
Fixpoint utf8_encode (s : string) : bytes :=
  match s with
  | EmptyString => []
  | String c rest =>
      let n := N_of_ascii c in
      (if n <? 128 then [byte_of_N n]
       else [byte_of_N (N.lor 192 (N.shiftr n 6));
             byte_of_N (N.lor 128 (N.land n 63))])
      ++ utf8_encode rest
  end.

(** The first [n] characters of [s]. *)
Fixpoint str_take (n : nat) (s : string) : string :=
  match n, s with
  | S n', String c rest => String c (str_take n' rest)
  | _, _ => EmptyString
  end.

(** [s[:n]] for any integer [n]: a negative [n] counts from the end. *)
Definition str_prefix (s : string) (n : Z) : string :=
  if (n <? 0)%Z then str_take (Z.to_nat (Z.of_nat (String.length s) + n)) s
  else str_take (Z.to_nat n) s.

(** [hash_6(value, default, length)] for a [str] value; [None] is
    Python's [None]. *)
Definition hash_6 (value : string) (default : option string) (length : Z)
  : option string :=
  match value with
  | EmptyString => default
  | _ =>
      let h := md5 (utf8_encode value) in
      Some (str_prefix (b64encode h) length)
  end.


(** ** [fix_url] *)

(** [re.sub('/{2,}', '/', path)]: every run of two or more slashes
    becomes one slash. *)
Fixpoint collapse_slashes (path : string) : string :=
  match path with
  | EmptyString => EmptyString
  | String c rest =>
      match rest with
      | String c' _ =>
          if Ascii.eqb c "/" && Ascii.eqb c' "/" then collapse_slashes rest
          else String c (collapse_slashes rest)
      | EmptyString => String c EmptyString
      end
  end.

(** The six components [urlparse] returns. *)
Record parse_result : Type := ParseResult {
  scheme : string;
  netloc : string;
  path : string;
  params : string;
  query : string;
  fragment : string
}.

(** [parse._replace(path=p)]. *)
Definition replace_path (parse : parse_result) (p : string) : parse_result :=
  ParseResult (scheme parse) (netloc parse) p (params parse) (query parse)
              (fragment parse).

(** [fix_url(url)], given [urlparse] and [urlunparse]. *)
Definition fix_url (urlparse : string -> parse_result)
    (urlunparse : parse_result -> string) (url : string) : string :=
  let parse := urlparse url in
  let parse := replace_path parse (collapse_slashes (path parse)) in
  urlunparse parse.

(** [s] has no two slashes in a row. *)
Fixpoint single_slashes (s : string) : bool :=
  match s with
  | String c rest =>
      match rest with
      | String c' _ =>
          negb (Ascii.eqb c "/" && Ascii.eqb c' "/") && single_slashes rest
      | EmptyString => true
      end
  | EmptyString => true
  end.

(** ** [process_brightcove] *)

(** A JSON value as [json.loads] gives it, without floats. *)
#[warnings="-register-all"]
Inductive json : Type :=
| JNull
| JBool (b : bool)
| JInt (z : Z)
| JStr (s : string)
| JList (l : list json)
| JDict (d : dict json).

(** The texts of the language module the function uses:
    [_.GEO_ERROR], [_.NO_ERROR_MSG], [_.NO_BRIGHTCOVE_SRC] as it is, and
    [_(_.NO_BRIGHTCOVE_SRC, error=msg)]. *)
Inductive bc_detail : Type :=
| FromData (v : json)
| NO_ERROR_MSG.

Inductive bc_message : Type :=
| GEO_ERROR
| NO_BRIGHTCOVE_SRC
| NO_BRIGHTCOVE_SRC_with (error : bc_detail).

(** The exceptions of [process_brightcove]: Python's own, and the
    add-on's [Error] with its message. *)
Inductive bc_exn : Type :=
| PyTypeError
| PyIndexError
| PyAttributeError
| PyKeyError
| PyValueError
| SlyguyError (message : bc_message).

Inductive outcome (A : Type) : Type :=
| Return (a : A)
| Throw (e : bc_exn).

Arguments Return {A} a.
Arguments Throw {A} e.

Definition obind {A B : Type} (m : outcome A) (k : A -> outcome B)
  : outcome B :=
  match m with
  | Return a => k a
  | Throw e => Throw e
  end.

Notation "x <~ m ;; k" := (obind m (fun x => k))
  (at level 61, m at next level, right associativity).

(** Truthiness of a JSON value. *)
Definition truthy_json (v : json) : bool :=
  match v with
  | JNull => false
  | JBool b => b
  | JInt z => negb (z =? 0)%Z
  | JStr s => negb (String.eqb s EmptyString)
  | JList l => truthy l
  | JDict d => truthy d
  end.

(** [v[0]]. *)
Definition subscript0 (v : json) : outcome json :=
  match v with
  | JList (x :: _) => Return x
  | JList [] => Throw PyIndexError
  | JStr (String c _) => Return (JStr (String c EmptyString))
  | JStr EmptyString => Throw PyIndexError
  | JDict _ => Throw PyKeyError
  | _ => Throw PyTypeError
  end.

(** [v[k]] for a [str] [k]. *)
Definition subscript (v : json) (k : string) : outcome json :=
  match v with
  | JDict d =>
      match dict_get k d with
      | Some x => Return x
      | None => Throw PyKeyError
      end
  | _ => Throw PyTypeError
  end.

(** [v.get(k, default)]. *)
Definition get_method (v : json) (k : string) (default : json)
  : outcome json :=
  match v with
  | JDict d =>
      Return (match dict_get k d with Some x => x | None => default end)
  | _ => Throw PyAttributeError
  end.

(** [v == s] for a [str] literal [s]. *)
Definition str_eq (v : json) (s : string) : bool :=
  match v with
  | JStr s' => String.eqb s' s
  | _ => false
  end.

(** The capital of an ASCII letter; every other character below U+0100
    is left alone, as its capital is not an ASCII letter either (the
    only ASCII capital [str.upper] gives for such a character is the
    [S] of [SS], which the text compared with below does not have). *)
Definition upper_char (c : ascii) : ascii :=
  let n := N_of_ascii c in
  if (97 <=? n) && (n <=? 122) then ascii_of_N (n - 32) else c.

(** [v.upper() == target] for a target of ASCII capitals without [S]. *)
Definition upper_is (v : json) (target : string) : outcome bool :=
  match v with
  | JStr s => Return (String.eqb (map_string upper_char s) target)
  | _ => Throw PyAttributeError
  end.

(** [v.lower() == target]. *)
Definition lower_is (v : json) (target : string) : outcome bool :=
  match v with
  | JStr s => Return (String.eqb (lower s) target)
  | _ => Throw PyAttributeError
  end.

(** [needle in s] for two [str]. *)
Fixpoint substring_of (needle s : string) : bool :=
  match s with
  | EmptyString => String.eqb needle EmptyString
  | String _ rest => String.prefix needle s || substring_of needle rest
  end.

(** [needle in v] for a [str] needle. *)
Definition contains (needle : string) (v : json) : outcome bool :=
  match v with
  | JStr s => Return (substring_of needle s)
  | JDict d => Return (match dict_get needle d with Some _ => true | None => false end)
  | JList l => Return (existsb (fun x => str_eq x needle) l)
  | _ => Throw PyTypeError
  end.

(** [int(v)]; [int_of_str] is [int] on a [str], [None] for its
    [ValueError]. *)
Definition int_json (int_of_str : string -> option Z) (v : json)
  : outcome Z :=
  match v with
  | JInt z => Return z
  | JBool b => Return (if b then 1 else 0)%Z
  | JStr s =>
      match int_of_str s with
      | Some z => Return z
      | None => Throw PyValueError
      end
  | _ => Throw PyTypeError
  end.

(** The values [for source in v] runs through. *)
Definition iterate (v : json) : outcome (list json) :=
  match v with
  | JList l => Return l
  | JDict d => Return (map JStr (keys d))
  | JStr s =>
      Return (map (fun c => JStr (String c EmptyString))
                  (list_ascii_of_string s))
  | _ => Throw PyTypeError
  end.

Inductive bc_kind : Type := Khls | Kmp4 | Kwidevine.

(** An entry of the list [sources]:
    [{'source': ..., 'type': ..., 'order_1': ..., 'order_2': ...}]. *)
Record candidate : Type := Candidate {
  c_source : dict json;
  c_type : bc_kind;
  order_1 : Z;
  order_2 : Z
}.

(** The body of the loop over [data.get('sources', [])]: the entry to
    append, if any. *)
Definition classify (int_of_str : string -> option Z) (source : json)
  : outcome (option candidate) :=
  match source with
  | JDict d =>
      let get k default :=
        match dict_get k d with Some x => x | None => default end in
      let no_key_systems :=
        match dict_get "key_systems" d with Some _ => false | None => true end in
      if negb (truthy_json (get "src"%string JNull)) then Return None
      else if str_eq (get "type"%string JNull) "application/x-mpegURL"
              && no_key_systems then
        v <~ int_json int_of_str (get "ext_x_version"%string (JInt 0)) ;;
        Return (Some (Candidate d Khls 1 v))
      else if str_eq (get "container"%string JNull) "MP4"
              && no_key_systems then
        v <~ int_json int_of_str (get "avg_bitrate"%string (JInt 0)) ;;
        Return (Some (Candidate d Kmp4 2 v))
      else
        widevine <~ (if str_eq (get "type"%string JNull) "application/dash+xml"
                     then contains "com.widevine.alpha"
                            (get "key_systems"%string (JStr EmptyString))
                     else Return false) ;;
        if widevine then Return (Some (Candidate d Kwidevine 3 0))
        else if str_eq (get "type"%string JNull)
                  "application/vnd.apple.mpegurl" && no_key_systems then
          Return (Some (Candidate d Khls 1 0))
        else Return None
  | _ => Throw PyAttributeError
  end.

(** The loop: the entries in the order of the sources, or the first
    exception. *)
Fixpoint collect (int_of_str : string -> option Z) (sources : list json)
  : outcome (list candidate) :=
  match sources with
  | [] => Return []
  | source :: rest =>
      c <~ classify int_of_str source ;;
      cs <~ collect int_of_str rest ;;
      Return (match c with Some x => x :: cs | None => cs end)
  end.

(** The sort key [(x['order_1'], -x['order_2'])] and its order. *)
Definition sort_key (c : candidate) : Z * Z := (order_1 c, - order_2 c)%Z.

Definition key_lt (a b : Z * Z) : bool :=
  (fst a <? fst b)%Z || ((fst a =? fst b)%Z && (snd a <? snd b)%Z).

(** [sorted(sources, key=...)]: ascending and stable. *)
Fixpoint insert_asc (x : candidate) (l : list candidate) : list candidate :=
  match l with
  | [] => [x]
  | y :: l' =>
      if key_lt (sort_key y) (sort_key x) then y :: insert_asc x l'
      else x :: l
  end.

Definition sorted_asc (l : list candidate) : list candidate :=
  fold_right insert_asc [] l.

(** The input stream of an item: none, [inputstream.HLS(live=False,
    force=False)] or [inputstream.Widevine(license_key=...)]. *)
Inductive bc_stream : Type :=
| NoStream
| HLS
| Widevine (license_key : json).

(** [plugin.Item(path=..., inputstream=..., art=False)]. *)
Record bc_item : Type := Item {
  item_path : json;
  item_inputstream : bc_stream
}.

(** The end of [process_brightcove]: the item for the first entry. *)
Definition build_item (c : candidate) : outcome bc_item :=
  src <~ subscript (JDict (c_source c)) "src" ;;
  match c_type c with
  | Kmp4 => Return (Item src NoStream)
  | Khls => Return (Item src HLS)
  | Kwidevine =>
      ks <~ subscript (JDict (c_source c)) "key_systems" ;;
      w <~ subscript ks "com.widevine.alpha" ;;
      url <~ subscript w "license_url" ;;
      Return (Item src (Widevine url))
  end.

(** The body of the [try] of [process_brightcove], for data that is no
    dictionary: the detail of the error to raise.  [data[0]], which the
    source evaluates several times, is evaluated once. *)
Definition error_attempt (data : json) : outcome bc_detail :=
  e0 <~ subscript0 data ;;
  code <~ subscript e0 "error_code" ;;
  geo1 <~ upper_is code "CLIENT_GEO" ;;
  geo <~ (if geo1 then Return true
          else client_geo <~ get_method e0 "client_geo" (JStr EmptyString) ;;
               lower_is client_geo "anonymizing_proxy") ;;
  if geo then Throw (SlyguyError GEO_ERROR)
  else msg <~ get_method e0 "message" code ;; Return (FromData msg).

(** The [try] with its [except KeyError]. *)
Definition error_detail (data : json) : outcome bc_detail :=
  match error_attempt data with
  | Throw PyKeyError => Return NO_ERROR_MSG
  | other => other
  end.

(** The value [data.get('sources', [])]. *)
Definition sources_of (d : dict json) : json :=
  match dict_get "sources" d with
  | Some v => v
  | None => JList []
  end.

Definition process_brightcove (int_of_str : string -> option Z)
    (data : json) : outcome bc_item :=
  match data with
  | JDict d =>
      srcs <~ iterate (sources_of d) ;;
      sources <~ collect int_of_str srcs ;;
      match sorted_asc sources with
      | [] => Throw (SlyguyError NO_BRIGHTCOVE_SRC)
      | source :: _ => build_item source
      end
  | _ =>
      msg <~ error_detail data ;;
      Throw (SlyguyError (NO_BRIGHTCOVE_SRC_with msg))
  end.

(** * Properties *)

(** ** Checks of the model on known values *)

(** The test vectors of RFC 4648, section 10. *)
Example b64encode_foobar :
  map b64encode
    [ []; [x66]; [x66; x6f]; [x66; x6f; x6f]; [x66; x6f; x6f; x62];
      [x66; x6f; x6f; x62; x61]; [x66; x6f; x6f; x62; x61; x72] ]
  = [ ""; "Zg=="; "Zm8="; "Zm9v"; "Zm9vYg=="; "Zm9vYmE="; "Zm9vYmFy" ]%string.
Proof. reflexivity. Qed.

Example b64decode_foobar :
  map b64decode [ ""; "Zg=="; "Zm8="; "Zm9v"; "Zm9vYg==" ]%string
  = [ Ok []; Ok [x66]; Ok [x66; x6f]; Ok [x66; x6f; x6f];
      Ok [x66; x6f; x6f; x62] ].
Proof. reflexivity. Qed.

(** Missing padding is an error, and characters outside the alphabet
    are skipped. *)
Example b64decode_lenient :
  map b64decode [ "Zg"; "Z"; "Zm 9v" ]%string
  = [ Raise BinasciiError; Raise BinasciiError; Ok [x66; x6f; x6f] ].
Proof. reflexivity. Qed.

Example pack_examples :
  pack_be 70 = Ok [x00; x00; x00; x46]
  /\ pack_le 1 = Ok [x01; x00; x00; x00]
  /\ pack_be (2 ^ 32) = Raise StructError
  /\ unpack_be [x00; x00; x01; x00] = Ok 256
  /\ unpack_be [x00; x00; x01] = Raise StructError.
Proof. repeat split. Qed.

(** Slices clip to the buffer, and slice assignment may change its
    length. *)
Example slice_examples :
  get_slice [x01; x02; x03] 1 9 = [x02; x03]
  /\ get_slice [x01; x02; x03] 5 9 = []
  /\ set_slice [x01; x02; x03] 1 2 [xaa; xbb] = [x01; xaa; xbb; x03]
  /\ set_slice [x01; x02; x03] 7 9 [xaa] = [x01; x02; x03; xaa].
Proof. repeat split. Qed.

(** The version-0 Widevine box for the payload [01 02]. *)
Example cenc_init_sample :
  cenc_init (Some sample_data) None None
  = Ok "AAAAInBzc2gAAAAA7e+LqXnWSs6jyCfc1R0h7QAAAAIBAg=="%string.
Proof. reflexivity. Qed.

(** ** Bytes *)

Lemma Ok_inj {A : Type} (a b : A) : Ok a = Ok b -> a = b.
Proof. now intros [= ->]. Qed.

Lemma to_N_byte_of_N (n : N) : Byte.to_N (byte_of_N n) = n mod 256.
Proof.
  unfold byte_of_N.
  destruct (Byte.of_N (n mod 256)) as [b|] eqn:E.
  - now apply Byte.to_of_N.
  - apply Byte.of_N_None_iff in E.
    pose proof (N.mod_upper_bound n 256). lia.
Qed.

Lemma byte_of_N_to_N (b : byte) : byte_of_N (Byte.to_N b) = b.
Proof.
  unfold byte_of_N.
  rewrite N.mod_small by (pose proof (Byte.to_N_bounded b); lia).
  now rewrite Byte.of_to_N.
Qed.

Lemma In_all_bytes (b : byte) : In b all_bytes.
Proof.
  unfold all_bytes. apply in_map_iff.
  exists (Byte.to_nat b). split.
  - rewrite <- Byte.to_N_via_nat. apply byte_of_N_to_N.
  - apply in_seq. pose proof (Byte.to_nat_bounded b). lia.
Qed.

Lemma forall_byte (P : byte -> bool) :
  forallb P all_bytes = true -> forall b, P b = true.
Proof.
  intros H b. rewrite forallb_forall in H. apply H, In_all_bytes.
Qed.

Lemma forall_byte2 (P : byte -> byte -> bool) :
  forallb (fun a => forallb (P a) all_bytes) all_bytes = true ->
  forall a b, P a b = true.
Proof.
  intros H a b.
  apply (forall_byte (P a)). revert a. now apply forall_byte.
Qed.

Lemma list_ind3 {A : Type} (P : list A -> Prop) :
  P [] -> (forall a, P [a]) -> (forall a b, P [a; b]) ->
  (forall a b c l, P l -> P (a :: b :: c :: l)) ->
  forall l, P l.
Proof.
  intros H0 H1 H2 H3.
  assert (H : forall l, P l /\ (forall a, P (a :: l))
                        /\ (forall a b, P (a :: b :: l))).
  { induction l as [|x l [IH0 [IH1 IH2]]].
    - auto.
    - repeat split; auto. }
  intro l. apply H.
Qed.

(** ** Base64: decoding an encoding gives the bytes back *)

Lemma digit_ok_lt64 (d : N) : d < 64 -> digit_ok d = true.
Proof.
  intro H.
  assert (Hall : forallb digit_ok (map N.of_nat (seq 0 64)) = true)
    by (vm_compute; reflexivity).
  rewrite forallb_forall in Hall. apply Hall.
  apply in_map_iff. exists (N.to_nat d). split.
  - apply N2Nat.id.
  - apply in_seq. lia.
Qed.

Lemma digit_not_pad (d : N) :
  d < 64 -> Ascii.eqb (b2a_digit d) "=" = false.
Proof.
  intro H. apply digit_ok_lt64 in H. unfold digit_ok in H.
  apply andb_prop in H as [H _]. apply andb_prop in H as [H _].
  now apply negb_true_iff in H.
Qed.

Lemma a2b_b2a_digit (d : N) : d < 64 -> a2b_digit (b2a_digit d) = Some d.
Proof.
  intro H. apply digit_ok_lt64 in H. unfold digit_ok in H.
  apply andb_prop in H as [H _]. apply andb_prop in H as [_ H].
  destruct (a2b_digit (b2a_digit d)) as [d'|]; [|discriminate].
  apply N.eqb_eq in H. now subst.
Qed.

Lemma digit_is_ascii (d : N) :
  d < 64 -> (N_of_ascii (b2a_digit d) <? 128) = true.
Proof.
  intro H. apply digit_ok_lt64 in H. unfold digit_ok in H.
  now apply andb_prop in H as [_ H].
Qed.

(** One turn of the decoder's loop on the character of a digit. *)
Lemma a2b_base64_digit (d : N) (rest : string) (quad_pos leftchar pads : N) :
  d < 64 ->
  a2b_base64 (String (b2a_digit d) rest) quad_pos leftchar pads =
  match quad_pos with
  | 0 => a2b_base64 rest 1 d 0
  | 1 => emit (byte_of_N (N.lor (N.shiftl leftchar 2) (N.shiftr d 4)))
              (a2b_base64 rest 2 (N.land d 15) 0)
  | 2 => emit (byte_of_N (N.lor (N.shiftl leftchar 4) (N.shiftr d 2)))
              (a2b_base64 rest 3 (N.land d 3) 0)
  | _ => emit (byte_of_N (N.lor (N.shiftl leftchar 6) d))
              (a2b_base64 rest 0 0 0)
  end.
Proof.
  intro H. cbn [a2b_base64].
  now rewrite (digit_not_pad d H), (a2b_b2a_digit d H).
Qed.

Ltac to_bool_goal :=
  first [ apply N.ltb_lt | apply N.eqb_eq | apply Byte.byte_dec_bl ].

(** Settles a statement about one byte by checking all 256 of them. *)
Ltac by_bytes1 :=
  let a := fresh "a" in
  intro a; to_bool_goal; revert a;
  match goal with
  | |- forall a : byte, @?P a = true =>
      apply (forall_byte P); vm_compute; reflexivity
  end.

(** The same for two bytes. *)
Ltac by_bytes2 :=
  let a := fresh "a" in
  let b := fresh "b" in
  intros a b; to_bool_goal; revert a b;
  match goal with
  | |- forall a b : byte, @?P a b = true =>
      apply (forall_byte2 P); vm_compute; reflexivity
  end.

Lemma sextet0_lt : forall a, sextet0 a < 64.
Proof. by_bytes1. Qed.

Lemma sextet1_lt : forall a b, sextet1 a b < 64.
Proof. by_bytes2. Qed.

Lemma sextet2_lt : forall b c, sextet2 b c < 64.
Proof. by_bytes2. Qed.

Lemma sextet3_lt : forall c, sextet3 c < 64.
Proof. by_bytes1. Qed.

Lemma last_sextet1_lt : forall a, N.shiftl (N.land (Byte.to_N a) 3) 4 < 64.
Proof. by_bytes1. Qed.

Lemma last_sextet2_lt : forall b, N.shiftl (N.land (Byte.to_N b) 15) 2 < 64.
Proof. by_bytes1. Qed.

Lemma join_byte0 : forall a b,
  byte_of_N (N.lor (N.shiftl (sextet0 a) 2) (N.shiftr (sextet1 a b) 4)) = a.
Proof. by_bytes2. Qed.

Lemma left_after1 : forall a b,
  N.land (sextet1 a b) 15 = N.shiftr (Byte.to_N b) 4.
Proof. by_bytes2. Qed.

Lemma join_byte1 : forall b c,
  byte_of_N (N.lor (N.shiftl (N.shiftr (Byte.to_N b) 4) 4)
                   (N.shiftr (sextet2 b c) 2)) = b.
Proof. by_bytes2. Qed.

Lemma left_after2 : forall b c,
  N.land (sextet2 b c) 3 = N.shiftr (Byte.to_N c) 6.
Proof. by_bytes2. Qed.

Lemma join_byte2 : forall c,
  byte_of_N (N.lor (N.shiftl (N.shiftr (Byte.to_N c) 6) 6) (sextet3 c)) = c.
Proof. by_bytes1. Qed.

Lemma join_last_byte0 : forall a,
  byte_of_N (N.lor (N.shiftl (sextet0 a) 2)
                   (N.shiftr (N.shiftl (N.land (Byte.to_N a) 3) 4) 4)) = a.
Proof. by_bytes1. Qed.

Lemma join_last_byte1 : forall b,
  byte_of_N (N.lor (N.shiftl (N.shiftr (Byte.to_N b) 4) 4)
                   (N.shiftr (N.shiftl (N.land (Byte.to_N b) 15) 2) 2)) = b.
Proof. by_bytes1. Qed.

Lemma b2a_base64_3 (a b c : byte) (rest : bytes) :
  b2a_base64 (a :: b :: c :: rest) =
  String (b2a_digit (sextet0 a))
    (String (b2a_digit (sextet1 a b))
      (String (b2a_digit (sextet2 b c))
        (String (b2a_digit (sextet3 c)) (b2a_base64 rest)))).
Proof. reflexivity. Qed.

Lemma a2b_b2a_base64 (data : bytes) :
  a2b_base64 (b2a_base64 data) 0 0 0 = Ok data.
Proof.
  induction data as [|a|a b|a b c data IH] using list_ind3.
  - reflexivity.
  - change (b2a_base64 [a]) with
      (String (b2a_digit (sextet0 a))
        (String (b2a_digit (N.shiftl (N.land (Byte.to_N a) 3) 4)) "==")).
    rewrite a2b_base64_digit by apply sextet0_lt.
    rewrite a2b_base64_digit by apply last_sextet1_lt.
    rewrite join_last_byte0. reflexivity.
  - change (b2a_base64 [a; b]) with
      (String (b2a_digit (sextet0 a))
        (String (b2a_digit (sextet1 a b))
          (String (b2a_digit (N.shiftl (N.land (Byte.to_N b) 15) 2)) "="))).
    rewrite a2b_base64_digit by apply sextet0_lt.
    rewrite a2b_base64_digit by apply sextet1_lt.
    rewrite a2b_base64_digit by apply last_sextet2_lt.
    rewrite join_byte0, left_after1, join_last_byte1. reflexivity.
  - rewrite b2a_base64_3.
    rewrite a2b_base64_digit by apply sextet0_lt.
    rewrite a2b_base64_digit by apply sextet1_lt.
    rewrite a2b_base64_digit by apply sextet2_lt.
    rewrite a2b_base64_digit by apply sextet3_lt.
    rewrite join_byte0, left_after1, join_byte1, left_after2, join_byte2.
    rewrite IH. reflexivity.
Qed.

Lemma is_ascii_b2a_base64 (data : bytes) : is_ascii (b2a_base64 data) = true.
Proof.
  induction data as [|a|a b|a b c data IH] using list_ind3.
  - reflexivity.
  - change (b2a_base64 [a]) with
      (String (b2a_digit (sextet0 a))
        (String (b2a_digit (N.shiftl (N.land (Byte.to_N a) 3) 4)) "==")).
    cbn [is_ascii].
    rewrite digit_is_ascii by apply sextet0_lt.
    rewrite digit_is_ascii by apply last_sextet1_lt.
    reflexivity.
  - change (b2a_base64 [a; b]) with
      (String (b2a_digit (sextet0 a))
        (String (b2a_digit (sextet1 a b))
          (String (b2a_digit (N.shiftl (N.land (Byte.to_N b) 15) 2)) "="))).
    cbn [is_ascii].
    rewrite digit_is_ascii by apply sextet0_lt.
    rewrite digit_is_ascii by apply sextet1_lt.
    rewrite digit_is_ascii by apply last_sextet2_lt.
    reflexivity.
  - rewrite b2a_base64_3. cbn [is_ascii].
    rewrite digit_is_ascii by apply sextet0_lt.
    rewrite digit_is_ascii by apply sextet1_lt.
    rewrite digit_is_ascii by apply sextet2_lt.
    rewrite digit_is_ascii by apply sextet3_lt.
    rewrite IH. reflexivity.
Qed.

(** [base64.b64decode(base64.b64encode(data))] is [data]. *)
Lemma b64decode_b64encode (data : bytes) :
  b64decode (b64encode data) = Ok data.
Proof.
  unfold b64decode, b64encode.
  now rewrite is_ascii_b2a_base64, a2b_b2a_base64.
Qed.

(** ** [struct]: unpacking a packed value *)

Lemma testbit_byte_of_N (n i : N) :
  N.testbit (Byte.to_N (byte_of_N n)) i = ((i <? 8) && N.testbit n i)%bool.
Proof.
  rewrite to_N_byte_of_N. change 256 with (2 ^ 8).
  destruct (N.ltb_spec i 8).
  - now rewrite N.mod_pow2_bits_low.
  - now rewrite N.mod_pow2_bits_high.
Qed.

Lemma testbit_shiftl_byte (n k i : N) :
  N.testbit (N.shiftl (Byte.to_N (byte_of_N (N.shiftr n k))) k) i =
  ((k <=? i) && (i <? k + 8) && N.testbit n i)%bool.
Proof.
  destruct (N.leb_spec k i) as [Hk|Hk].
  - rewrite N.shiftl_spec_high' by assumption.
    rewrite testbit_byte_of_N, N.shiftr_spec'.
    replace (i - k + k) with i by lia.
    destruct (N.ltb_spec (i - k) 8), (N.ltb_spec i (k + 8));
      try reflexivity; lia.
  - now rewrite N.shiftl_spec_low.
Qed.

Lemma testbit_u32_high (n i : N) :
  n < 2 ^ 32 -> 32 <= i -> N.testbit n i = false.
Proof.
  intros Hn Hi. rewrite <- (N.mod_small n (2 ^ 32)) by assumption.
  now apply N.mod_pow2_bits_high.
Qed.

Lemma join_u32 (n : N) :
  n < 2 ^ 32 ->
  N.lor (N.shiftl (Byte.to_N (byte_of_N (N.shiftr n 24))) 24)
    (N.lor (N.shiftl (Byte.to_N (byte_of_N (N.shiftr n 16))) 16)
      (N.lor (N.shiftl (Byte.to_N (byte_of_N (N.shiftr n 8))) 8)
             (Byte.to_N (byte_of_N n)))) = n.
Proof.
  intro Hn. apply N.bits_inj. intro i.
  rewrite !N.lor_spec, !testbit_shiftl_byte, testbit_byte_of_N.
  destruct (N.ltb_spec i 32) as [Hi|Hi].
  - destruct (N.leb_spec 24 i), (N.leb_spec 16 i), (N.leb_spec 8 i),
      (N.ltb_spec i (24 + 8)), (N.ltb_spec i (16 + 8)),
      (N.ltb_spec i (8 + 8)), (N.ltb_spec i 8);
      try lia; cbn; now rewrite ?orb_false_r.
  - rewrite (testbit_u32_high n i Hn Hi).
    now rewrite !andb_false_r.
Qed.

Lemma pack_be_inv (n : N) (b : bytes) :
  pack_be n = Ok b -> n < 2 ^ 32 /\ b = be_bytes n.
Proof.
  unfold pack_be. destruct (N.ltb_spec n (2 ^ 32)) as [Hn|Hn].
  - intro H. split; [assumption | congruence].
  - discriminate.
Qed.

Lemma pack_le_inv (n : N) (b : bytes) :
  pack_le n = Ok b -> n < 2 ^ 32 /\ b = le_bytes n.
Proof.
  unfold pack_le. destruct (N.ltb_spec n (2 ^ 32)) as [Hn|Hn].
  - intro H. split; [assumption | congruence].
  - discriminate.
Qed.

Lemma unpack_be_bytes (n : N) : n < 2 ^ 32 -> unpack_be (be_bytes n) = Ok n.
Proof. intro Hn. unfold unpack_be, be_bytes. now rewrite join_u32. Qed.

Lemma unpack_le_bytes (n : N) : n < 2 ^ 32 -> unpack_le (le_bytes n) = Ok n.
Proof. intro Hn. unfold unpack_le, le_bytes. now rewrite join_u32. Qed.

Lemma unpack_pack_be (n : N) (b : bytes) :
  pack_be n = Ok b -> unpack_be b = Ok n.
Proof.
  intro H. apply pack_be_inv in H as [Hn ->]. now apply unpack_be_bytes.
Qed.

Lemma unpack_pack_le (n : N) (b : bytes) :
  pack_le n = Ok b -> unpack_le b = Ok n.
Proof.
  intro H. apply pack_le_inv in H as [Hn ->]. now apply unpack_le_bytes.
Qed.

Lemma pack_be_fits (n : N) : n < 2 ^ 32 -> pack_be n = Ok (be_bytes n).
Proof.
  intro Hn. unfold pack_be.
  destruct (N.ltb_spec n (2 ^ 32)); [reflexivity | lia].
Qed.

Lemma pack_le_fits (n : N) : n < 2 ^ 32 -> pack_le n = Ok (le_bytes n).
Proof.
  intro Hn. unfold pack_le.
  destruct (N.ltb_spec n (2 ^ 32)); [reflexivity | lia].
Qed.

Lemma len_be_bytes (n : N) : len (be_bytes n) = 4.
Proof. reflexivity. Qed.

Lemma len_le_bytes (n : N) : len (le_bytes n) = 4.
Proof. reflexivity. Qed.

Lemma pack_be_raise (n : N) : 2 ^ 32 <= n -> pack_be n = Raise StructError.
Proof.
  intro Hn. unfold pack_be.
  destruct (N.ltb_spec n (2 ^ 32)); [lia | reflexivity].
Qed.

Lemma pack_be_len (n : N) (b : bytes) : pack_be n = Ok b -> len b = 4.
Proof. intro H. now apply pack_be_inv in H as [_ ->]. Qed.

Lemma pack_le_len (n : N) (b : bytes) : pack_le n = Ok b -> len b = 4.
Proof. intro H. now apply pack_le_inv in H as [_ ->]. Qed.

Lemma unpack_be_ok_len (b : bytes) (n : N) : unpack_be b = Ok n -> len b = 4.
Proof.
  destruct b as [|? [|? [|? [|? [|? ?]]]]]; try discriminate. reflexivity.
Qed.

Lemma unpack_le_ok_len (b : bytes) (n : N) : unpack_le b = Ok n -> len b = 4.
Proof.
  destruct b as [|? [|? [|? [|? [|? ?]]]]]; try discriminate. reflexivity.
Qed.

Lemma unpack_be_short (b : bytes) : len b <> 4 -> unpack_be b = Raise StructError.
Proof.
  destruct b as [|? [|? [|? [|? [|? ?]]]]]; try reflexivity.
  intro H. now elim H.
Qed.

(** ** Slices *)

Lemma len_app {A : Type} (a b : list A) : len (a ++ b) = len a + len b.
Proof. unfold len. rewrite length_app. lia. Qed.

Lemma len_bytearray (n : N) : len (bytearray n) = n.
Proof. unfold len, bytearray. rewrite repeat_length. lia. Qed.

Lemma len_get_slice {A : Type} (a : list A) (i j : N) :
  len (get_slice a i j) = N.min (j - i) (len a - i).
Proof.
  unfold len, get_slice. rewrite length_firstn, length_skipn. lia.
Qed.

Lemma skipn_bytearray (k n : N) :
  skipn (N.to_nat k) (bytearray n) = bytearray (n - k).
Proof.
  unfold bytearray. revert n.
  induction k as [|k IH] using N.peano_ind; intro n.
  - now rewrite N.sub_0_r.
  - destruct (N.eq_dec n 0) as [->|Hn].
    + cbn. now rewrite skipn_nil.
    + replace (N.to_nat n) with (S (N.to_nat (N.pred n))) by lia.
      rewrite N2Nat.inj_succ. cbn [repeat skipn]. rewrite IH.
      f_equal. lia.
Qed.

(** Assigning to the slice that starts where the part written so far
    ends, inside the zero bytes that are still to be filled. *)
Lemma set_slice_fill (pre x : bytes) (m i j : N) :
  i = len pre -> j = i + len x -> len x <= m ->
  set_slice (pre ++ bytearray m) i j x = (pre ++ x) ++ bytearray (m - len x).
Proof.
  intros -> -> Hm. unfold set_slice.
  rewrite N.max_r by lia.
  unfold len at 1. rewrite Nat2N.id, firstn_app, firstn_all.
  rewrite Nat.sub_diag, firstn_O, app_nil_r.
  rewrite skipn_app.
  replace (skipn (N.to_nat (len pre + len x)) pre) with (@nil byte)
    by (symmetry; apply skipn_all2; unfold len; lia).
  replace (N.to_nat (len pre + len x) - List.length pre)%nat
    with (N.to_nat (len x)) by (unfold len; lia).
  rewrite skipn_bytearray. now rewrite <- app_assoc.
Qed.

Lemma get_slice_app_l {A : Type} (a t : list A) (i j : N) :
  j <= len a -> get_slice (a ++ t) i j = get_slice a i j.
Proof.
  intro H. unfold get_slice.
  rewrite skipn_app, firstn_app, length_skipn.
  replace (N.to_nat (j - i) - (List.length a - N.to_nat i))%nat with 0%nat
    by (unfold len in H; lia).
  now rewrite firstn_O, app_nil_r.
Qed.

Lemma get_slice_firstn {A : Type} (a : list A) (n i j : N) :
  j <= n -> get_slice (firstn (N.to_nat n) a) i j = get_slice a i j.
Proof.
  intro H. unfold get_slice.
  rewrite skipn_firstn_comm, firstn_firstn. f_equal. lia.
Qed.

Lemma get_slice_app_r {A : Type} (pre rest : list A) (i j : N) :
  len pre <= i ->
  get_slice (pre ++ rest) i j = get_slice rest (i - len pre) (j - len pre).
Proof.
  intro H. unfold get_slice.
  rewrite skipn_app.
  replace (skipn (N.to_nat i) pre) with (@nil A)
    by (symmetry; apply skipn_all2; unfold len in H; lia).
  cbn [app]. f_equal; [|f_equal]; unfold len in *; lia.
Qed.

Lemma get_slice_here {A : Type} (x rest : list A) (i j : N) :
  i = 0 -> j = len x -> get_slice (x ++ rest) i j = x.
Proof.
  intros -> ->. unfold get_slice. cbn [N.to_nat skipn].
  rewrite N.sub_0_r. unfold len. rewrite Nat2N.id.
  rewrite firstn_app, firstn_all, Nat.sub_diag, firstn_O.
  apply app_nil_r.
Qed.

Lemma get_slice_all {A : Type} (x : list A) (i j : N) :
  i = 0 -> len x <= j -> get_slice x i j = x.
Proof.
  intros -> H. unfold get_slice. cbn [N.to_nat skipn].
  apply firstn_all2. unfold len in H. lia.
Qed.

Lemma get_slice_skipn {A : Type} (a : list A) (k i j : N) :
  get_slice (skipn (N.to_nat k) a) i j = get_slice a (i + k) (j + k).
Proof.
  unfold get_slice. rewrite skipn_skipn.
  f_equal; [|f_equal]; lia.
Qed.

(** ** The layout [cenc_init] produces *)

Lemma len_concat16 (kids : list bytes) :
  all_len16 kids -> len (List.concat kids) = 16 * len kids.
Proof.
  induction 1 as [|kid kids Hk _ IH].
  - reflexivity.
  - cbn [List.concat]. rewrite len_app, IH, Hk. unfold len. cbn [List.length]. lia.
Qed.

Lemma write_kids_fill (uuid : bytes) (kids : list bytes) :
  len uuid = 16 -> all_len16 kids ->
  forall (pre : bytes) (m pos : N),
    pos = len pre -> 16 * len kids <= m ->
    write_kids uuid kids (pre ++ bytearray m) pos =
    ((pre ++ List.concat kids) ++ bytearray (m - 16 * len kids),
     pos + 16 * len kids).
Proof.
  intros Hu Hk. induction Hk as [|kid kids Hkid _ IH]; intros pre m pos Hpos Hm.
  - cbn [write_kids List.concat]. rewrite app_nil_r.
    change (len (@nil bytes)) with 0. rewrite N.mul_0_r, N.sub_0_r, N.add_0_r.
    reflexivity.
  - assert (Hl : len (kid :: kids) = 1 + len kids)
      by (unfold len; cbn [List.length]; lia).
    rewrite Hl in *. cbn [write_kids List.concat].
    rewrite (set_slice_fill pre kid m) by lia.
    rewrite IH by (rewrite ?len_app; lia).
    replace (m - len kid - 16 * len kids) with (m - 16 * (1 + len kids))
      by lia.
    replace (pos + len kid + 16 * len kids) with (pos + 16 * (1 + len kids))
      by lia.
    now rewrite <- !app_assoc.
Qed.

Lemma bytearray_0 (n : N) : n = 0 -> bytearray n = [].
Proof. now intros ->. Qed.

Lemma len_WIDEVINE_PSSH : len WIDEVINE_PSSH = 4.
Proof. reflexivity. Qed.

Lemma len_WIDEVINE_UUID : len WIDEVINE_UUID = 16.
Proof. reflexivity. Qed.

Lemma truthy_len {A : Type} (l : list A) : truthy l = true -> 0 < len l.
Proof. destruct l; [discriminate|]. intros _. unfold len. cbn. lia. Qed.

Lemma or_default_nil {A : Type} (l : list A) : or_default (Some l) [] = l.
Proof. now destruct l. Qed.

Lemma or_default_truthy {A : Type} (l d : list A) :
  truthy l = true -> or_default (Some l) d = l.
Proof. now destruct l. Qed.

(** Side conditions on lengths and offsets. *)
Ltac len_lia :=
  unfold len in *;
  repeat rewrite length_app in *;
  cbn [List.length be_bytes le_bytes WIDEVINE_PSSH] in *;
  lia.

(** [cenc_init] on the values its three arguments stand for after the
    [or] defaults. *)
Lemma cenc_init_box_layout (data uuid : option bytes)
    (kids : option (list bytes)) :
  let d := or_default data [] in
  let u := or_default uuid WIDEVINE_UUID in
  let k := or_default kids [] in
  len u = 16 -> all_len16 k -> box_length d k < 2 ^ 32 ->
  cenc_init_box data uuid kids = Ok (box_layout d u k).
Proof.
  intros d u k Hu Hk HL. unfold cenc_init_box, box_layout.
  fold d u k. unfold box_length in *.
  pose proof (len_concat16 k Hk) as Hc.
  destruct (truthy k) eqn:Hkt.
  - pose proof (truthy_len k Hkt) as Hk0.
    replace (len d + 32 + (len k * 16 + 4)) with (32 + len d + (4 + 16 * len k))
      by lia.
    remember (32 + len d + (4 + 16 * len k)) as L eqn:HLeq.
    rewrite (pack_be_fits L) by assumption.
    rewrite (pack_le_fits 1) by reflexivity.
    rewrite (pack_be_fits (len k)) by lia.
    rewrite (pack_be_fits (len d)) by lia.
    cbn [bind fst snd].
    rewrite !len_be_bytes, !len_le_bytes, len_WIDEVINE_PSSH, Hu.
    change (bytearray L) with ([] ++ bytearray L).
    rewrite (set_slice_fill [] (be_bytes L) L) by len_lia.
    rewrite (set_slice_fill _ WIDEVINE_PSSH) by len_lia.
    rewrite (set_slice_fill _ (le_bytes 1)) by len_lia.
    rewrite (set_slice_fill _ u) by len_lia.
    rewrite (set_slice_fill _ (be_bytes (len k))) by len_lia.
    rewrite (write_kids_fill u k Hu Hk) by len_lia.
    cbn [fst snd].
    rewrite (set_slice_fill _ (be_bytes (len d))) by len_lia.
    rewrite (set_slice_fill _ d) by len_lia.
    rewrite bytearray_0 by len_lia.
    now rewrite app_nil_r, <- !app_assoc.
  - rewrite N.add_0_r in HL.
    replace (len d + 32) with (32 + len d) by lia.
    rewrite N.add_0_r.
    remember (32 + len d) as L eqn:HLeq.
    rewrite (pack_be_fits L) by assumption.
    rewrite (pack_le_fits 0) by reflexivity.
    rewrite (pack_be_fits (len d)) by lia.
    cbn [bind fst snd].
    rewrite !len_be_bytes, !len_le_bytes, len_WIDEVINE_PSSH, Hu.
    change (bytearray L) with ([] ++ bytearray L).
    rewrite (set_slice_fill [] (be_bytes L) L) by len_lia.
    rewrite (set_slice_fill _ WIDEVINE_PSSH) by len_lia.
    rewrite (set_slice_fill _ (le_bytes 0)) by len_lia.
    rewrite (set_slice_fill _ u) by len_lia.
    rewrite (set_slice_fill _ (be_bytes (len d))) by len_lia.
    rewrite (set_slice_fill _ d) by len_lia.
    rewrite bytearray_0 by len_lia.
    now rewrite app_nil_r, <- !app_assoc.
Qed.

(** When the total length does not fit the 32-bit length field, the first
    [struct.pack] raises. *)
Lemma cenc_init_box_too_long (data uuid : option bytes)
    (kids : option (list bytes)) :
  2 ^ 32 <= box_length (or_default data []) (or_default kids []) ->
  cenc_init_box data uuid kids = Raise StructError.
Proof.
  intro HL. unfold cenc_init_box, box_length in *.
  rewrite pack_be_raise; [reflexivity|].
  destruct (truthy (or_default kids [])); lia.
Qed.

(** ** Parsing the layout *)

Lemma slice_of {A : Type} (buf pre x rest : list A) (i j : N) :
  buf = pre ++ x ++ rest -> i = len pre -> j = i + len x ->
  get_slice buf i j = x.
Proof.
  intros -> -> ->. rewrite get_slice_app_r by lia.
  apply get_slice_here; lia.
Qed.

Lemma slice_of_end {A : Type} (buf pre x : list A) (i j : N) :
  buf = pre ++ x -> i = len pre -> len x <= j - i ->
  get_slice buf i j = x.
Proof.
  intros -> -> H. rewrite get_slice_app_r by lia.
  apply get_slice_all; lia.
Qed.

(** What the key-ID loop returns: the slices at [pos], [pos + 16], ...,
    appended to the list built so far, and the offset after them. *)
Lemma read_kids_spec (n : nat) (buf : bytes) :
  forall (pos : N) (kids : list bytes),
    read_kids n buf pos kids =
    (kids ++ map (fun i => get_slice buf (pos + 16 * N.of_nat i)
                                         (pos + 16 * N.of_nat i + 16))
                 (seq 0 n),
     pos + 16 * N.of_nat n).
Proof.
  induction n as [|n IH]; intros pos kids.
  - cbn. now rewrite app_nil_r, N.add_0_r.
  - cbn [read_kids]. rewrite IH. cbn [seq map].
    rewrite <- seq_shift, map_map, <- app_assoc. cbn [app].
    f_equal; [|lia]. f_equal. f_equal.
    + f_equal; lia.
    + apply map_ext. intro i. f_equal; lia.
Qed.

Lemma read_kids_pos (n : nat) (buf : bytes) (pos : N) (kids : list bytes) :
  snd (read_kids n buf pos kids) = pos + 16 * N.of_nat n.
Proof. now rewrite read_kids_spec. Qed.

Lemma read_kids_len (n : nat) (buf : bytes) (pos : N) :
  len (fst (read_kids n buf pos [])) = N.of_nat n.
Proof.
  rewrite read_kids_spec. cbn [fst app]. unfold len.
  now rewrite length_map, length_seq.
Qed.

(** The loop reads back the key IDs [cenc_init] wrote one after another. *)
Lemma read_kids_concat (k : list bytes) :
  all_len16 k ->
  forall (pre rest : bytes) (pos : N) (kids : list bytes),
    pos = len pre ->
    read_kids (List.length k) (pre ++ List.concat k ++ rest) pos kids =
    (kids ++ k, pos + 16 * len k).
Proof.
  induction 1 as [|kid k Hkid _ IH]; intros pre rest pos kids Hpos.
  - cbn. now rewrite app_nil_r, N.add_0_r.
  - cbn [List.length read_kids List.concat].
    rewrite (slice_of _ pre kid (List.concat k ++ rest));
      [| now rewrite <- app_assoc | assumption | lia ].
    replace (pre ++ (kid ++ List.concat k) ++ rest)
      with ((pre ++ kid) ++ List.concat k ++ rest)
      by now rewrite <- !app_assoc.
    rewrite IH by (rewrite len_app; lia).
    rewrite <- app_assoc. cbn [app]. f_equal.
    unfold len. cbn [List.length]. lia.
Qed.

(** Reads one field off a buffer written as a chain of fields. *)
Ltac field :=
  rewrite ?get_slice_app_r by len_lia;
  first [ apply get_slice_here | apply get_slice_all ]; len_lia.

Lemma truthy_false_nil {A : Type} (l : list A) : truthy l = false -> l = [].
Proof. destruct l; [reflexivity | discriminate]. Qed.

(** [parse_cenc_init] reads the fields of a box laid out by [cenc_init]
    and stops at its end. *)
Lemma parse_box_layout (d u : bytes) (k : list bytes) :
  len u = 16 -> all_len16 k -> box_length d k < 2 ^ 32 ->
  parse_box (box_layout d u k) =
  Ok ((u, (if truthy k then 1 else 0), d, k), box_length d k).
Proof.
  intros Hu Hk HL. pose proof HL as HL0. unfold box_length in HL |- *.
  pose proof (len_concat16 k Hk) as Hc.
  unfold parse_box, box_layout.
  set (L := box_length d k).
  destruct (truthy k) eqn:Hkt.
  - pose proof (truthy_len k Hkt) as Hk0.
    set (B := be_bytes L ++ _).
    assert (S1 : get_slice B 0 (0 + 4) = be_bytes L) by (unfold B; field).
    assert (S2 : get_slice B (0 + 4) (0 + 4 + 4) = WIDEVINE_PSSH)
      by (unfold B; field).
    assert (S3 : get_slice B (0 + 4 + 4) (0 + 4 + 4 + 4) = le_bytes 1)
      by (unfold B; field).
    assert (S4 : get_slice B (0 + 4 + 4 + 4) (0 + 4 + 4 + 4 + 16) = u)
      by (unfold B; field).
    assert (S5 : get_slice B (0 + 4 + 4 + 4 + 16) (0 + 4 + 4 + 4 + 16 + 4)
                 = be_bytes (len k))
      by (unfold B; rewrite <- !app_assoc; field).
    assert (S6 : read_kids (N.to_nat (len k)) B (0 + 4 + 4 + 4 + 16 + 4) []
                 = (k, 0 + 4 + 4 + 4 + 16 + 4 + 16 * len k)).
    { replace B with
        ((be_bytes L ++ WIDEVINE_PSSH ++ le_bytes 1 ++ u ++ be_bytes (len k))
         ++ List.concat k ++ be_bytes (len d) ++ d)
        by (unfold B; now rewrite <- !app_assoc).
      unfold len at 1. rewrite Nat2N.id.
      now rewrite (read_kids_concat k Hk) by len_lia. }
    assert (S7 : forall n, n = 0 + 4 + 4 + 4 + 16 + 4 + 16 * len k ->
                 get_slice B n (n + 4) = be_bytes (len d))
      by (intros n ->; unfold B; rewrite <- !app_assoc; field).
    assert (S8 : forall n, n = 0 + 4 + 4 + 4 + 16 + 4 + 16 * len k + 4 ->
                 get_slice B n (n + len d) = d)
      by (intros n ->; unfold B; rewrite <- !app_assoc; field).
    rewrite S1, S2, S3, S4.
    rewrite (unpack_be_bytes L) by exact HL0.
    change (unpack_be WIDEVINE_PSSH) with
      (Ok (A:=N) 1886614376).
    rewrite (unpack_le_bytes 1) by reflexivity.
    cbn [bind N.eqb Pos.eqb].
    rewrite S5, (unpack_be_bytes (len k)) by lia.
    cbn [bind]. rewrite S6. cbn [bind fst snd].
    rewrite (S7 _ eq_refl), (unpack_be_bytes (len d)) by lia.
    cbn [bind]. rewrite (S8 _ eq_refl).
    do 2 f_equal. lia.
  - apply truthy_false_nil in Hkt. subst k.
    set (B := be_bytes L ++ _).
    assert (S1 : get_slice B 0 (0 + 4) = be_bytes L) by (unfold B; field).
    assert (S2 : get_slice B (0 + 4) (0 + 4 + 4) = WIDEVINE_PSSH)
      by (unfold B; field).
    assert (S3 : get_slice B (0 + 4 + 4) (0 + 4 + 4 + 4) = le_bytes 0)
      by (unfold B; field).
    assert (S4 : get_slice B (0 + 4 + 4 + 4) (0 + 4 + 4 + 4 + 16) = u)
      by (unfold B; field).
    assert (S7 : get_slice B (0 + 4 + 4 + 4 + 16) (0 + 4 + 4 + 4 + 16 + 4)
                 = be_bytes (len d))
      by (unfold B; cbn [app]; field).
    assert (S8 : get_slice B (0 + 4 + 4 + 4 + 16 + 4)
                             (0 + 4 + 4 + 4 + 16 + 4 + len d) = d)
      by (unfold B; cbn [app]; field).
    rewrite S1, S2, S3, S4.
    rewrite (unpack_be_bytes L) by exact HL0.
    change (unpack_be WIDEVINE_PSSH) with
      (Ok (A:=N) 1886614376).
    rewrite (unpack_le_bytes 0) by reflexivity.
    cbn [bind N.eqb fst snd].
    rewrite S7, (unpack_be_bytes (len d)) by lia.
    cbn [bind]. rewrite S8.
    do 2 f_equal. lia.
Qed.

(** ** What [parse_cenc_init] depends on *)

Lemma parse_box_unfold (B : bytes) :
  parse_box B =
  (_ <- unpack_be (get_slice B 0 4) ;;
   _ <- unpack_be (get_slice B 4 8) ;;
   version <- unpack_le (get_slice B 8 12) ;;
   st <- read_kid_region B version ;;
   data_length <- unpack_be (get_slice B (snd st) (snd st + 4)) ;;
   Ok ((get_slice B 12 28, version,
        get_slice B (snd st + 4) (snd st + 4 + data_length), fst st),
       snd st + 4 + data_length)).
Proof. reflexivity. Qed.

Lemma read_kid_region_spec (B : bytes) (version : N) (kids : list bytes)
    (pk : N) :
  read_kid_region B version = Ok (kids, pk) ->
  pk = (if version =? 1 then 32 + 16 * len kids else 28)
  /\ (version <> 1 -> kids = []).
Proof.
  unfold read_kid_region. destruct (N.eqb_spec version 1) as [->|Hv].
  - destruct (unpack_be (get_slice B 28 32)) as [n|]; [|discriminate].
    cbn [bind]. intros [= H].
    pose proof (read_kids_pos (N.to_nat n) B 32 []) as Hp.
    pose proof (read_kids_len (N.to_nat n) B 32) as Hl.
    rewrite H in Hp, Hl. cbn [fst snd] in Hp, Hl.
    split; [lia | congruence].
  - intros [= <- <-]. auto.
Qed.

Lemma parse_box_inv (B : bytes) (r : parsed) (pos : N) :
  parse_box B = Ok (r, pos) ->
  exists l pssh version kids pk data_length,
    unpack_be (get_slice B 0 4) = Ok l
    /\ unpack_be (get_slice B 4 8) = Ok pssh
    /\ unpack_le (get_slice B 8 12) = Ok version
    /\ read_kid_region B version = Ok (kids, pk)
    /\ unpack_be (get_slice B pk (pk + 4)) = Ok data_length
    /\ r = (get_slice B 12 28, version,
            get_slice B (pk + 4) (pk + 4 + data_length), kids)
    /\ pos = pk + 4 + data_length.
Proof.
  rewrite parse_box_unfold.
  destruct (unpack_be (get_slice B 0 4)) as [l|] eqn:E1; [|discriminate].
  destruct (unpack_be (get_slice B 4 8)) as [pssh|] eqn:E2; [|discriminate].
  destruct (unpack_le (get_slice B 8 12)) as [version|] eqn:E3;
    [|discriminate].
  cbn [bind].
  destruct (read_kid_region B version) as [[kids pk]|] eqn:E4;
    [|discriminate].
  cbn [bind fst snd].
  destruct (unpack_be (get_slice B pk (pk + 4))) as [dl|] eqn:E5;
    [|discriminate].
  cbn [bind]. intros [= <- <-].
  exists l, pssh, version, kids, pk, dl. repeat split; assumption.
Qed.

Lemma read_kids_agree (lo hi : N) (B B' : bytes) :
  agree lo hi B B' ->
  forall (n : nat) (pos : N) (kids : list bytes),
    lo <= pos -> pos + 16 * N.of_nat n <= hi ->
    read_kids n B' pos kids = read_kids n B pos kids.
Proof.
  intros Hag. induction n as [|n IH]; intros pos kids Hlo Hhi.
  - reflexivity.
  - cbn [read_kids]. rewrite Hag by lia. apply IH; lia.
Qed.

(** [parse_cenc_init] never looks at the value of the first field, and
    at nothing beyond the end of the payload. *)
Lemma parse_box_agree (B B' : bytes) (r : parsed) (pos : N) :
  parse_box B = Ok (r, pos) ->
  is_ok (unpack_be (get_slice B' 0 4)) = true ->
  agree 4 pos B B' ->
  parse_box B' = Ok (r, pos).
Proof.
  intros H H0 Hag.
  apply parse_box_inv in H
    as (l & pssh & version & kids & pk & dl & E1 & E2 & E3 & E4 & E5 & -> & ->).
  pose proof (read_kid_region_spec _ _ _ _ E4) as [Hpk _].
  assert (Hpk28 : 28 <= pk) by (destruct (version =? 1); lia).
  rewrite parse_box_unfold.
  destruct (unpack_be (get_slice B' 0 4)) as [l'|]; [|discriminate].
  cbn [bind].
  rewrite (Hag 4 8), E2 by lia. cbn [bind].
  rewrite (Hag 8 12), E3 by lia. cbn [bind].
  assert (E4' : read_kid_region B' version = Ok (kids, pk)).
  { revert E4. unfold read_kid_region.
    destruct (N.eqb_spec version 1) as [->|Hv]; [|tauto].
    rewrite (Hag 28 32) by lia.
    destruct (unpack_be (get_slice B 28 32)) as [n|]; [|discriminate].
    cbn [bind]. intros [= E4]. f_equal. rewrite <- E4.
    apply (read_kids_agree 4 (pk + 4 + dl)); [assumption | lia |].
    pose proof (read_kids_pos (N.to_nat n) B 32 []) as Hp.
    rewrite E4 in Hp. cbn [snd] in Hp. lia. }
  rewrite E4'. cbn [bind fst snd].
  rewrite (Hag pk (pk + 4)), E5 by lia. cbn [bind].
  now rewrite (Hag 12 28), (Hag (pk + 4) (pk + 4 + dl)) by lia.
Qed.

(** ** Truncated buffers *)

Lemma unpack_le_short (b : bytes) :
  len b <> 4 -> unpack_le b = Raise StructError.
Proof.
  destruct b as [|? [|? [|? [|? [|? ?]]]]]; try reflexivity.
  intro H. now elim H.
Qed.

Lemma len_firstn {A : Type} (a : list A) (n : N) :
  len (firstn (N.to_nat n) a) = N.min n (len a).
Proof. unfold len. rewrite length_firstn. lia. Qed.

(** A four-byte read that reaches past the cut raises. *)
Lemma unpack_be_cut (B : bytes) (n i j : N) :
  j = i + 4 -> n < j ->
  unpack_be (get_slice (firstn (N.to_nat n) B) i j) = Raise StructError.
Proof.
  intros -> H. apply unpack_be_short.
  rewrite len_get_slice, len_firstn. lia.
Qed.

Lemma unpack_le_cut (B : bytes) (n i j : N) :
  j = i + 4 -> n < j ->
  unpack_le (get_slice (firstn (N.to_nat n) B) i j) = Raise StructError.
Proof.
  intros -> H. apply unpack_le_short.
  rewrite len_get_slice, len_firstn. lia.
Qed.

Lemma agree_firstn (B : bytes) (n : N) :
  agree 0 n B (firstn (N.to_nat n) B).
Proof. intros i j _ _ Hj. now apply get_slice_firstn. Qed.

(** Cutting a buffer before the payload starts makes one of the
    four-byte reads fail. *)
Lemma parse_box_cut_header (B : bytes) (r : parsed) (pos n : N) :
  parse_box B = Ok (r, pos) ->
  n < data_offset r ->
  parse_box (firstn (N.to_nat n) B) = Raise StructError.
Proof.
  intros H Hn.
  apply parse_box_inv in H
    as (l & pssh & version & kids & pk & dl & E1 & E2 & E3 & E4 & E5 & -> & ->).
  pose proof (read_kid_region_spec _ _ _ _ E4) as [Hpk _].
  cbn [data_offset] in Hn.
  rewrite parse_box_unfold.
  destruct (N.lt_ge_cases n 4) as [C|C].
  { now rewrite (unpack_be_cut B n 0 4) by lia. }
  rewrite get_slice_firstn, E1 by lia. cbn [bind].
  destruct (N.lt_ge_cases n 8) as [C2|C2].
  { now rewrite (unpack_be_cut B n 4 8) by lia. }
  rewrite get_slice_firstn, E2 by lia. cbn [bind].
  destruct (N.lt_ge_cases n 12) as [C3|C3].
  { now rewrite (unpack_le_cut B n 8 12) by lia. }
  rewrite get_slice_firstn, E3 by lia. cbn [bind].
  revert E4 Hpk Hn. unfold read_kid_region.
  destruct (N.eqb_spec version 1) as [->|Hv].
  - intros E4 Hpk Hn.
    destruct (N.lt_ge_cases n 32) as [C4|C4].
    { now rewrite (unpack_be_cut B n 28 32) by lia. }
    rewrite get_slice_firstn by lia.
    destruct (unpack_be (get_slice B 28 32)) as [num|]; [|discriminate].
    cbn [bind] in E4 |- *.
    pose proof (read_kids_pos (N.to_nat num) B 32 []) as Hp.
    injection E4 as E4. rewrite E4 in Hp. cbn [snd] in Hp.
    rewrite read_kids_pos.
    now rewrite (unpack_be_cut B n _ _ eq_refl) by lia.
  - intros _ -> Hn. cbn [bind snd].
    now rewrite (unpack_be_cut B n 28 _ eq_refl) by lia.
Qed.

(** Cutting a buffer inside the payload is not noticed: the slice for
    the payload is just shorter. *)
Lemma parse_box_cut_payload (B : bytes) (uuid data : bytes) (version : N)
    (kids : list bytes) (pos n : N) :
  parse_box B = Ok ((uuid, version, data, kids), pos) ->
  data_offset (uuid, version, data, kids) <= n ->
  exists pos',
    parse_box (firstn (N.to_nat n) B) =
    Ok ((uuid, version,
         get_slice data 0 (n - data_offset (uuid, version, data, kids)),
         kids), pos').
Proof.
  intros H Hn.
  apply parse_box_inv in H
    as (l & pssh & v & ks & pk & dl & E1 & E2 & E3 & E4 & E5 & Hr & ->).
  injection Hr as -> -> -> ->.
  pose proof (read_kid_region_spec _ _ _ _ E4) as [Hpk _].
  cbn [data_offset] in Hn |- *.
  assert (Hoff : (if v =? 1 then 36 + 16 * len ks else 32) = pk + 4)
    by (destruct (v =? 1); lia).
  rewrite Hoff in *. clear Hoff.
  assert (Hpk28 : 28 <= pk) by (destruct (v =? 1); lia).
  pose proof (agree_firstn B n) as Hag.
  rewrite parse_box_unfold.
  rewrite (Hag 0 4), E1 by lia. cbn [bind].
  rewrite (Hag 4 8), E2 by lia. cbn [bind].
  rewrite (Hag 8 12), E3 by lia. cbn [bind].
  assert (E4' : read_kid_region (firstn (N.to_nat n) B) v = Ok (ks, pk)).
  { revert E4. unfold read_kid_region.
    destruct (N.eqb_spec v 1) as [->|Hv]; [|tauto].
    rewrite (Hag 28 32) by lia.
    destruct (unpack_be (get_slice B 28 32)) as [num|]; [|discriminate].
    cbn [bind]. intros [= E4]. f_equal. rewrite <- E4.
    apply (read_kids_agree 0 n); [assumption | lia |].
    pose proof (read_kids_pos (N.to_nat num) B 32 []) as Hp.
    rewrite E4 in Hp. cbn [snd] in Hp. lia. }
  rewrite E4'. cbn [bind fst snd].
  rewrite (Hag pk (pk + 4)), E5 by lia. cbn [bind].
  rewrite (Hag 12 28) by lia.
  exists (pk + 4 + dl).
  assert (Hd : get_slice (firstn (N.to_nat n) B) (pk + 4) (pk + 4 + dl) =
               get_slice (get_slice B (pk + 4) (pk + 4 + dl)) 0
                         (n - (pk + 4))).
  { unfold get_slice. cbn [N.to_nat skipn].
    rewrite skipn_firstn_comm, !firstn_firstn. f_equal. lia. }
  now rewrite Hd.
Qed.

Lemma parse_cenc_init_b64encode (B : bytes) :
  parse_cenc_init (b64encode B) = (r <- parse_box B ;; Ok (fst r)).
Proof. unfold parse_cenc_init. now rewrite b64decode_b64encode. Qed.

(** ** The first twelve bytes [cenc_init] writes are never overwritten *)

Lemma set_slice_keeps {A : Type} (a x : list A) (i j n : N) :
  n <= i -> n <= len a ->
  firstn (N.to_nat n) (set_slice a i j x) = firstn (N.to_nat n) a
  /\ n <= len (set_slice a i j x).
Proof.
  intros Hi Ha. unfold set_slice. split.
  - rewrite firstn_app, firstn_firstn, length_firstn.
    replace (N.to_nat n - Nat.min (N.to_nat i) (List.length a))%nat
      with 0%nat by (unfold len in Ha; lia).
    rewrite firstn_O, app_nil_r. f_equal. lia.
  - rewrite len_app. unfold len in *. rewrite length_firstn. lia.
Qed.

Lemma write_kids_keeps (uuid : bytes) (kids : list bytes) (n : N) :
  forall (a : bytes) (pos : N),
    n <= pos -> n <= len a ->
    firstn (N.to_nat n) (fst (write_kids uuid kids a pos))
    = firstn (N.to_nat n) a
    /\ n <= len (fst (write_kids uuid kids a pos))
    /\ n <= snd (write_kids uuid kids a pos).
Proof.
  induction kids as [|kid kids IH]; intros a pos Hpos Ha.
  - cbn. auto.
  - cbn [write_kids].
    destruct (set_slice_keeps a kid pos (pos + len uuid) n Hpos Ha)
      as [E Hlen].
    destruct (IH (set_slice a pos (pos + len uuid) kid) (pos + len kid))
      as (E' & Hlen' & Hpos'); [lia | assumption |].
    rewrite E', E. auto.
Qed.

Lemma computed_length_eq (data : bytes) (kids : list bytes) :
  computed_length data kids = box_length data kids.
Proof. unfold computed_length, box_length. destruct (truthy kids); lia. Qed.

Lemma cenc_init_box_prefix (data uuid : option bytes)
    (kids : option (list bytes)) (buf : bytes) :
  cenc_init_box data uuid kids = Ok buf ->
  firstn 12 buf =
  be_bytes (computed_length (or_default data []) (or_default kids []))
  ++ WIDEVINE_PSSH
  ++ le_bytes (if truthy (or_default kids []) then 1 else 0).
Proof.
  unfold cenc_init_box, computed_length.
  set (d := or_default data []). set (u := or_default uuid WIDEVINE_UUID).
  set (k := or_default kids []).
  set (L := if truthy k then len d + 32 + (len k * 16 + 4) else len d + 32).
  set (v := if truthy k then 1 else 0).
  assert (HL32 : 32 <= L) by (unfold L; destruct (truthy k); lia).
  destruct (pack_be L) as [r1|] eqn:E1; [|discriminate].
  apply pack_be_inv in E1 as [_ ->].
  destruct (pack_le v) as [r3|] eqn:E3; [|discriminate].
  apply pack_le_inv in E3 as [_ ->].
  cbn [bind]. rewrite !len_be_bytes, !len_le_bytes, len_WIDEVINE_PSSH.
  change (bytearray L) with ([] ++ bytearray L).
  rewrite (set_slice_fill [] (be_bytes L) L) by len_lia.
  rewrite (set_slice_fill _ WIDEVINE_PSSH) by len_lia.
  rewrite (set_slice_fill _ (le_bytes v)) by len_lia.
  cbn [app]. rewrite <- !app_assoc.
  set (a0 := be_bytes L ++ WIDEVINE_PSSH ++ le_bytes v ++ bytearray _).
  assert (H0 : firstn 12 a0 = be_bytes L ++ WIDEVINE_PSSH ++ le_bytes v)
    by reflexivity.
  assert (Hlen0 : 12 <= len a0) by (unfold a0; rewrite !len_app; len_lia).
  clearbody a0.
  destruct (set_slice_keeps a0 u (0 + 4 + 4 + 4) (0 + 4 + 4 + 4 + len u) 12)
    as [Ea1 Hlen1]; [lia | assumption |].
  set (a1 := set_slice a0 _ _ u) in *. clearbody a1.
  set (p1 := 0 + 4 + 4 + 4 + len u).
  assert (Hp1 : 12 <= p1) by (unfold p1; lia). clearbody p1.
  assert (Hst : forall st : bytes * N,
            firstn 12 (fst st) = firstn 12 a1 -> 12 <= len (fst st) ->
            12 <= snd st ->
            (r_uint32 <- pack_be (len d) ;;
             Ok (set_slice
                   (set_slice (fst st) (snd st) (snd st + len r_uint32)
                      r_uint32)
                   (snd st + len r_uint32) (snd st + len r_uint32 + len d) d))
            = Ok buf ->
            firstn 12 buf = be_bytes L ++ WIDEVINE_PSSH ++ le_bytes v).
  { intros [a2 p2]. cbn [fst snd]. intros Ea2 Hlen2 Hp2.
    destruct (pack_be (len d)) as [r|] eqn:E; [|discriminate].
    apply pack_be_inv in E as [_ ->]. cbn [bind]. rewrite len_be_bytes.
    intros [= <-].
    destruct (set_slice_keeps a2 (be_bytes (len d)) p2 (p2 + 4) 12)
      as [Ea3 Hlen3]; [lia | assumption |].
    destruct (set_slice_keeps (set_slice a2 p2 (p2 + 4) (be_bytes (len d)))
                d (p2 + 4) (p2 + 4 + len d) 12)
      as [Ea4 _]; [lia | assumption |].
    change 12%nat with (N.to_nat 12) in *.
    now rewrite Ea4, Ea3, Ea2, Ea1. }
  destruct (truthy k).
  - destruct (pack_be (len k)) as [r|] eqn:E; [|discriminate].
    apply pack_be_inv in E as [_ ->]. cbn [bind]. rewrite len_be_bytes.
    destruct (set_slice_keeps a1 (be_bytes (len k)) p1 (p1 + 4) 12)
      as [Eb Hlenb]; [lia | assumption |].
    destruct (write_kids_keeps u k 12
                (set_slice a1 p1 (p1 + 4) (be_bytes (len k))) (p1 + 4))
      as (Ec & Hlenc & Hpc); [lia | assumption |].
    apply Hst; [|assumption|assumption].
    change 12%nat with (N.to_nat 12). now rewrite Ec, Eb.
  - cbn [bind]. apply Hst; [reflexivity | assumption | assumption].
Qed.

(** * The claims *)

Lemma cenc_init_box_some (p s : bytes) (k : list bytes) :
  len s = 16 -> all_len16 k -> box_length p k < 2 ^ 32 ->
  cenc_init_box (Some p) (Some s) (Some k) = Ok (box_layout p s k).
Proof.
  intros Hs Hk HL.
  assert (Ht : truthy s = true) by (destruct s; [discriminate | reflexivity]).
  pose proof (cenc_init_box_layout (Some p) (Some s) (Some k)) as H.
  cbv zeta in H.
  rewrite or_default_nil in H. rewrite or_default_nil in H.
  rewrite or_default_truthy in H by assumption.
  now apply H.
Qed.

Lemma len_box_layout (p s : bytes) (k : list bytes) :
  len s = 16 -> all_len16 k -> len (box_layout p s k) = box_length p k.
Proof.
  intros Hs Hk. pose proof (len_concat16 k Hk) as Hc.
  unfold box_layout, box_length.
  destruct (truthy k); rewrite !len_app; len_lia.
Qed.

(** C1, as amended: for every payload [p], 16-byte scheme ID [s] and
    list [k] of 16-byte key IDs whose box length fits the 32-bit length
    field, decoding the encoding returns [s], version 1 if [k] is
    non-empty and 0 otherwise, the payload [p] and the key IDs [k] in
    their order. *)
Theorem cenc_round_trip (p s : bytes) (k : list bytes) :
  len s = 16 -> all_len16 k -> box_length p k < 2 ^ 32 ->
  (b64 <- cenc_init (Some p) (Some s) (Some k) ;; parse_cenc_init b64)
  = Ok (s, (if truthy k then 1 else 0), p, k).
Proof.
  intros Hs Hk HL. unfold cenc_init.
  rewrite cenc_init_box_some by assumption. cbn [bind].
  rewrite parse_cenc_init_b64encode, parse_box_layout by assumption.
  reflexivity.
Qed.

Lemma cenc_round_trip_witness :
  (b64 <- cenc_init (Some sample_data) (Some zero_uuid)
            (Some [kid_aa; kid_bb]) ;;
   parse_cenc_init b64)
  = Ok (zero_uuid, 1, sample_data, [kid_aa; kid_bb]).
Proof.
  apply (cenc_round_trip sample_data zero_uuid [kid_aa; kid_bb]).
  - reflexivity.
  - repeat constructor.
  - reflexivity.
Defined.

(** C1 as stated fails: with a payload of [2^32 - 32] bytes the length
    [2^32] does not fit the format [">I"], [struct.pack] raises, and
    nothing is returned. *)
Lemma cenc_round_trip_counterexample :
  (b64 <- cenc_init (Some huge_data) (Some zero_uuid) (Some []) ;;
   parse_cenc_init b64)
  = Raise StructError.
Proof.
  unfold cenc_init.
  rewrite cenc_init_box_too_long; [reflexivity|].
  rewrite or_default_nil. rewrite or_default_nil.
  unfold box_length, huge_data.
  rewrite len_bytearray. change (truthy (@nil bytes)) with false.
  apply N.leb_le. reflexivity.
Qed.

(** C2, as amended: when decoding a buffer succeeds, decoding the same
    buffer cut anywhere before the payload starts (inside the length,
    tag or version field, the scheme ID, the key-ID region or the
    payload-length field) raises [struct.error]; cut at or after the
    start of the payload it still succeeds and returns the payload bytes
    that are left. *)
Theorem truncation_detected_before_payload (B : bytes) (uuid data : bytes)
    (version : N) (kids : list bytes) (n : N) :
  parse_cenc_init (b64encode B) = Ok (uuid, version, data, kids) ->
  (n < data_offset (uuid, version, data, kids) ->
   parse_cenc_init (b64encode (firstn (N.to_nat n) B)) = Raise StructError)
  /\ (data_offset (uuid, version, data, kids) <= n ->
      parse_cenc_init (b64encode (firstn (N.to_nat n) B)) =
      Ok (uuid, version,
          get_slice data 0 (n - data_offset (uuid, version, data, kids)),
          kids)).
Proof.
  rewrite !parse_cenc_init_b64encode.
  destruct (parse_box B) as [[r pos]|] eqn:E; [|discriminate].
  cbn [bind fst]. intros [= ->]. split; intro Hn.
  - now rewrite (parse_box_cut_header B _ pos n E Hn).
  - destruct (parse_box_cut_payload B _ _ _ _ pos n E Hn) as [pos' ->].
    reflexivity.
Qed.

Lemma truncation_detected_before_payload_witness :
  parse_cenc_init (b64encode (firstn (N.to_nat 22) sample_box_v1))
  = Raise StructError
  /\ parse_cenc_init (b64encode (firstn (N.to_nat 53) sample_box_v1))
     = Ok (WIDEVINE_UUID, 1, [x01], [kid_aa]).
Proof.
  split.
  - apply (truncation_detected_before_payload sample_box_v1 WIDEVINE_UUID
             sample_data 1 [kid_aa] 22); reflexivity.
  - apply (truncation_detected_before_payload sample_box_v1 WIDEVINE_UUID
             sample_data 1 [kid_aa] 53); [reflexivity | discriminate].
Defined.

(** C2 as stated fails: the well-formed 34-byte box [cenc_init] builds
    for the payload [01 02], cut after its payload-length field with
    none of the two declared payload bytes left, decodes without error
    to an empty payload. *)
Lemma truncation_counterexample :
  cenc_init_box (Some sample_data) None None = Ok sample_box
  /\ well_formed sample_box = true
  /\ unpack_be (get_slice sample_box 28 32) = Ok 2
  /\ parse_cenc_init (b64encode (firstn 32 sample_box))
     = Ok (WIDEVINE_UUID, 0, [], []).
Proof. repeat split. Qed.

(** C3: whenever [cenc_init] produces a box for a payload [p], a 16-byte
    scheme ID [s] and a list [k] of 16-byte key IDs (as it does when the
    length fits 32 bits), the big-endian u32 at offset 0 of the decoded
    buffer is the length of that buffer, which is [32 + len p] when [k]
    is empty and [32 + len p + 4 + 16 * len k] otherwise. *)
Theorem declared_length_is_buffer_length (p s : bytes) (k : list bytes) :
  len s = 16 -> all_len16 k ->
  (box_length p k < 2 ^ 32 ->
   is_ok (cenc_init (Some p) (Some s) (Some k)) = true)
  /\ (forall b64,
        cenc_init (Some p) (Some s) (Some k) = Ok b64 ->
        exists buf,
          b64decode b64 = Ok buf
          /\ unpack_be (get_slice buf 0 4) = Ok (len buf)
          /\ len buf = (if truthy k then 32 + len p + 4 + 16 * len k
                        else 32 + len p)).
Proof.
  intros Hs Hk. unfold cenc_init. split.
  - intro HL. now rewrite cenc_init_box_some.
  - intros b64 H.
    destruct (N.lt_ge_cases (box_length p k) (2 ^ 32)) as [HL|HL].
    + rewrite cenc_init_box_some in H by assumption.
      cbn [bind] in H. apply Ok_inj in H. subst b64.
      exists (box_layout p s k). rewrite b64decode_b64encode.
      rewrite len_box_layout by assumption.
      repeat split.
      * unfold box_layout. rewrite get_slice_here by reflexivity.
        now apply unpack_be_bytes.
      * unfold box_length. destruct (truthy k); lia.
    + rewrite cenc_init_box_too_long in H; [discriminate|].
      rewrite or_default_nil. now rewrite or_default_nil.
Qed.

Lemma declared_length_is_buffer_length_witness :
  exists buf,
    b64decode "AAAANnBzc2gBAAAA7e+LqXnWSs6jyCfc1R0h7QAAAAGqqqqqqqqqqqqqqqqqqqqqAAAAAgEC"
    = Ok buf
    /\ unpack_be (get_slice buf 0 4) = Ok (len buf)
    /\ len buf = 32 + 2 + 4 + 16 * 1.
Proof.
  apply (declared_length_is_buffer_length sample_data WIDEVINE_UUID [kid_aa]).
  - reflexivity.
  - repeat constructor.
  - reflexivity.
Defined.

(** The three conditions under which [cenc_version1to0] takes its
    early [return cenc]. *)
Lemma version1to0_unchanged (x : string) (uuid data : bytes) (version : N)
    (kids : list bytes) :
  parse_cenc_init x = Ok (uuid, version, data, kids) ->
  version <> 1 \/ data = [] \/ uuid <> WIDEVINE_UUID ->
  cenc_version1to0 x = Ok x.
Proof.
  intros Hp Hc. unfold cenc_version1to0. rewrite Hp. cbn [bind].
  destruct (N.eqb_spec version 1) as [Hv|Hv]; [|reflexivity].
  destruct data as [|b data]; [reflexivity|].
  unfold bytes_eqb.
  destruct (list_eq_dec byte_eq_dec uuid WIDEVINE_UUID) as [Hu|Hu];
    [|reflexivity].
  destruct Hc as [Hc|[Hc|Hc]]; [contradiction | discriminate | contradiction].
Qed.

(** C4: [cenc_version1to0] returns its input unchanged whenever the
    input decodes to a version other than 1, or to an empty payload, or
    to a scheme ID other than the Widevine one. *)
Theorem downgrade_noop (x : string) (uuid data : bytes) (version : N)
    (kids : list bytes) :
  parse_cenc_init x = Ok (uuid, version, data, kids) ->
  version <> 1 \/ data = [] \/ uuid <> WIDEVINE_UUID ->
  cenc_version1to0 x = Ok x.
Proof. exact (version1to0_unchanged x uuid data version kids). Qed.

Lemma downgrade_noop_witness :
  cenc_version1to0 "AAAAInBzc2gAAAAA7e+LqXnWSs6jyCfc1R0h7QAAAAIBAg=="
  = Ok "AAAAInBzc2gAAAAA7e+LqXnWSs6jyCfc1R0h7QAAAAIBAg=="%string.
Proof.
  apply (downgrade_noop _ WIDEVINE_UUID sample_data 0 []).
  - reflexivity.
  - left. discriminate.
Defined.

(** What [cenc_version1to0] returns is either its input or a version-0
    box, and both decode to something it leaves alone. *)
Lemma downgrade_result (x y : string) :
  cenc_version1to0 x = Ok y ->
  exists uuid version data kids,
    parse_cenc_init y = Ok (uuid, version, data, kids)
    /\ (version <> 1 \/ data = [] \/ uuid <> WIDEVINE_UUID).
Proof.
  unfold cenc_version1to0.
  destruct (parse_cenc_init x) as [[[[uuid version] data] kids]|] eqn:Hp;
    [|discriminate].
  cbn [bind].
  destruct (N.eqb_spec version 1) as [Hv|Hv].
  2:{ cbn [negb orb]. intro H. apply Ok_inj in H. subst y.
      exists uuid, version, data, kids. auto. }
  destruct data as [|b data].
  { cbn [negb orb truthy]. intro H. apply Ok_inj in H. subst y.
    exists uuid, version, [], kids. auto. }
  unfold bytes_eqb.
  destruct (list_eq_dec byte_eq_dec uuid WIDEVINE_UUID) as [Hu|Hu].
  2:{ cbn [negb orb truthy]. intro H. apply Ok_inj in H. subst y.
      exists uuid, version, (b :: data), kids. auto. }
  cbn [negb orb truthy]. unfold cenc_init.
  destruct (N.lt_ge_cases (box_length (b :: data) []) (2 ^ 32)) as [HL|HL].
  - pose proof (cenc_init_box_layout (Some (b :: data)) None None
                  eq_refl (Forall_nil _) HL) as E.
    rewrite E. cbn [bind or_default]. intro H. apply Ok_inj in H. subst y.
    rewrite parse_cenc_init_b64encode.
    rewrite parse_box_layout by (try apply Forall_nil; easy).
    cbn [bind fst truthy].
    exists WIDEVINE_UUID, 0, (b :: data), []. split; [reflexivity|].
    left. discriminate.
  - rewrite cenc_init_box_too_long by exact HL. discriminate.
Qed.

(** C5: on every input on which [cenc_version1to0] succeeds, applying it
    to its own result gives that result again. *)
Theorem downgrade_idempotent (x y : string) :
  cenc_version1to0 x = Ok y -> cenc_version1to0 y = Ok y.
Proof.
  intro H. apply downgrade_result in H
    as (uuid & version & data & kids & Hp & Hc).
  exact (version1to0_unchanged y uuid data version kids Hp Hc).
Qed.

Lemma downgrade_idempotent_witness :
  cenc_version1to0 "AAAAInBzc2gAAAAA7e+LqXnWSs6jyCfc1R0h7QAAAAIBAg=="
  = Ok "AAAAInBzc2gAAAAA7e+LqXnWSs6jyCfc1R0h7QAAAAIBAg=="%string.
Proof.
  apply (downgrade_idempotent
    "AAAANnBzc2gBAAAA7e+LqXnWSs6jyCfc1R0h7QAAAAGqqqqqqqqqqqqqqqqqqqqqAAAAAgEC").
  reflexivity.
Defined.

(** C6: in every buffer [cenc_init] produces, whatever its arguments,
    bytes 0-3 hold the computed length big-endian and bytes 8-11 hold
    the version little-endian, which is 1 exactly when the key-ID list
    is non-empty and 0 otherwise; with a 16-byte scheme ID and 16-byte
    key IDs the whole buffer is the layout of [box_layout], whose count
    and payload-length fields are big-endian too; [parse_cenc_init]
    reads bytes 8-11 little-endian as the version it returns, and
    returns no key IDs whenever that value is not 1. *)
Theorem version_field_little_endian (data uuid : option bytes)
    (kids : option (list bytes)) (b64 : string) :
  cenc_init data uuid kids = Ok b64 ->
  (exists buf,
     b64decode b64 = Ok buf
     /\ get_slice buf 0 4 =
        be_bytes (computed_length (or_default data []) (or_default kids []))
     /\ get_slice buf 8 12 =
        le_bytes (if truthy (or_default kids []) then 1 else 0)
     /\ unpack_le (get_slice buf 8 12) =
        Ok (if truthy (or_default kids []) then 1 else 0))
  /\ (len (or_default uuid WIDEVINE_UUID) = 16 ->
      all_len16 (or_default kids []) ->
      b64decode b64 =
      Ok (box_layout (or_default data []) (or_default uuid WIDEVINE_UUID)
            (or_default kids [])))
  /\ (forall x r_uuid r_version r_data r_kids,
        parse_cenc_init x = Ok (r_uuid, r_version, r_data, r_kids) ->
        exists buf,
          b64decode x = Ok buf
          /\ unpack_le (get_slice buf 8 12) = Ok r_version
          /\ (r_version <> 1 -> r_kids = [])).
Proof.
  intro H. unfold cenc_init in H.
  destruct (cenc_init_box data uuid kids) as [buf|] eqn:E; [|discriminate].
  cbn [bind] in H. apply Ok_inj in H. subst b64.
  rewrite b64decode_b64encode. split; [|split].
  - exists buf. apply cenc_init_box_prefix in E.
    assert (S1 : forall i j, j <= 12 ->
                 get_slice buf i j = get_slice (firstn 12 buf) i j)
      by (intros i j Hj; symmetry; now apply (get_slice_firstn buf 12)).
    rewrite (S1 0 4), (S1 8 12), E by lia.
    repeat split.
    destruct (truthy (or_default kids [])); reflexivity.
  - intros Hu Hk.
    destruct (N.lt_ge_cases
                (box_length (or_default data []) (or_default kids []))
                (2 ^ 32)) as [HL|HL].
    + rewrite (cenc_init_box_layout data uuid kids Hu Hk HL) in E.
      now rewrite <- E.
    + rewrite cenc_init_box_too_long in E by exact HL. discriminate.
  - clear E. intros x u v d k Hx. unfold parse_cenc_init in Hx.
    destruct (b64decode x) as [buf'|]; [|discriminate].
    cbn [bind] in Hx.
    destruct (parse_box buf') as [[r pos]|] eqn:E; [|discriminate].
    cbn [bind fst] in Hx. apply Ok_inj in Hx. subst r.
    apply parse_box_inv in E
      as (l & pssh & v' & ks & pk & dl & _ & _ & E3 & E4 & _ & Hr & _).
    injection Hr as _ -> _ ->.
    exists buf'. repeat split; [assumption|].
    now apply (read_kid_region_spec buf' v' ks pk).
Qed.

Lemma version_field_little_endian_witness :
  exists buf,
    b64decode "AAAAInBzc2gAAAAA7e+LqXnWSs6jyCfc1R0h7QAAAAIBAg==" = Ok buf
    /\ get_slice buf 0 4 = [x00; x00; x00; x22]
    /\ get_slice buf 8 12 = [x00; x00; x00; x00]
    /\ unpack_le (get_slice buf 8 12) = Ok 0.
Proof.
  apply (version_field_little_endian (Some sample_data) None None).
  reflexivity.
Defined.

(** C7: encoding payload [01 02] with a scheme ID of 16 zero bytes and
    the key IDs 16 x [AA] and 16 x [BB] gives a 70-byte buffer whose
    bytes 8-11 read little-endian as 1, whose bytes 28-31 read
    big-endian as 2 and whose last two bytes are [01 02]; decoding it
    returns the scheme ID, the key IDs and the payload. *)
Theorem concrete_scenario :
  exists b64 buf,
    cenc_init (Some sample_data) (Some zero_uuid) (Some [kid_aa; kid_bb])
    = Ok b64
    /\ b64decode b64 = Ok buf
    /\ len buf = 70
    /\ unpack_le (get_slice buf 8 12) = Ok 1
    /\ unpack_be (get_slice buf 28 32) = Ok 2
    /\ get_slice buf 68 70 = [x01; x02]
    /\ parse_cenc_init b64
       = Ok (zero_uuid, 1, sample_data, [kid_aa; kid_bb]).
Proof.
  eexists. eexists.
  split; [reflexivity|]. split; [vm_compute; reflexivity|].
  repeat split.
Qed.

Lemma well_formed_inv (B : bytes) :
  well_formed B = true ->
  exists r pos, parse_box B = Ok (r, pos) /\ pos <= len B.
Proof.
  unfold well_formed.
  destruct (parse_box B) as [[r pos]|]; [|discriminate].
  intro H. apply N.leb_le in H. eauto.
Qed.

(** Every box [cenc_init] lays out is well formed. *)
Lemma box_layout_well_formed (p s : bytes) (k : list bytes) :
  len s = 16 -> all_len16 k -> box_length p k < 2 ^ 32 ->
  well_formed (box_layout p s k) = true.
Proof.
  intros Hs Hk HL. unfold well_formed.
  rewrite parse_box_layout, len_box_layout by assumption.
  apply N.leb_refl.
Qed.

Lemma parse_box_min_length (B : bytes) (r : parsed) (pos : N) :
  parse_box B = Ok (r, pos) -> 4 <= len B /\ 4 <= pos.
Proof.
  intro H. apply parse_box_inv in H
    as (l & pssh & v & ks & pk & dl & E1 & _ & _ & E4 & _ & _ & ->).
  apply unpack_be_ok_len in E1. rewrite len_get_slice in E1.
  apply read_kid_region_spec in E4 as [-> _].
  split; [lia | destruct (v =? 1); lia].
Qed.

(** C8: [parse_cenc_init] does not compare the declared length with the
    buffer: overwriting the four bytes at offset 0 of a well-formed box
    with any u32 leaves decoding successful, with the same scheme ID,
    version, payload and key IDs. *)
Theorem declared_length_not_checked (B : bytes) (v : N) :
  well_formed B = true -> v < 2 ^ 32 ->
  is_ok (parse_cenc_init (b64encode B)) = true
  /\ parse_cenc_init (b64encode (set_slice B 0 4 (be_bytes v)))
     = parse_cenc_init (b64encode B).
Proof.
  intros Hwf Hv. apply well_formed_inv in Hwf as (r & pos & E & Hpos).
  rewrite !parse_cenc_init_b64encode, E.
  split; [reflexivity|].
  unfold set_slice. cbn [N.max N.compare N.to_nat firstn app].
  rewrite (parse_box_agree B _ r pos E); [reflexivity | |].
  - now rewrite get_slice_here.
  - intros i j Hi Hij Hj.
    rewrite get_slice_app_r by (rewrite len_be_bytes; exact Hi).
    rewrite len_be_bytes.
    change (Pos.to_nat 4) with (N.to_nat 4). rewrite get_slice_skipn.
    f_equal; lia.
Qed.

Lemma declared_length_not_checked_witness :
  is_ok (parse_cenc_init (b64encode sample_box)) = true
  /\ parse_cenc_init (b64encode (set_slice sample_box 0 4 (be_bytes 99)))
     = parse_cenc_init (b64encode sample_box).
Proof.
  apply (declared_length_not_checked sample_box 99); reflexivity.
Defined.

(** C9: bytes after a well-formed box are ignored: decoding the box
    followed by any bytes succeeds and returns what decoding the box
    alone returns. *)
Theorem trailing_bytes_ignored (B t : bytes) :
  well_formed B = true ->
  is_ok (parse_cenc_init (b64encode B)) = true
  /\ parse_cenc_init (b64encode (B ++ t)) = parse_cenc_init (b64encode B).
Proof.
  intro Hwf. apply well_formed_inv in Hwf as (r & pos & E & Hpos).
  rewrite !parse_cenc_init_b64encode, E.
  split; [reflexivity|].
  destruct (parse_box_min_length B r pos E) as [H4 _].
  rewrite (parse_box_agree B _ r pos E); [reflexivity | |].
  - rewrite get_slice_app_l by exact H4.
    apply parse_box_inv in E as (l & _ & _ & _ & _ & _ & E1 & _).
    now rewrite E1.
  - intros i j _ _ Hj. apply get_slice_app_l. lia.
Qed.

Lemma trailing_bytes_ignored_witness :
  is_ok (parse_cenc_init (b64encode sample_box)) = true
  /\ parse_cenc_init (b64encode (sample_box ++ [xff; x00; x07]))
     = parse_cenc_init (b64encode sample_box).
Proof.
  apply (trailing_bytes_ignored sample_box [xff; x00; x07]). reflexivity.
Defined.

(** C10: a falsy argument selects the default in [cenc_init]: an empty
    scheme ID gives what the Widevine constant gives, and what omitting
    the argument gives; an empty payload and an empty key-ID list give
    what omitting them gives. *)
Theorem falsy_arguments_select_defaults (p u : option bytes)
    (k : option (list bytes)) :
  cenc_init p (Some []) k = cenc_init p (Some WIDEVINE_UUID) k
  /\ cenc_init p (Some []) k = cenc_init p None k
  /\ cenc_init (Some []) u k = cenc_init None u k
  /\ cenc_init p u (Some []) = cenc_init p u None.
Proof. repeat split. Qed.

(** * Further properties of the codec *)

Lemma unpack_be_cases (b : bytes) :
  (len b = 4 /\ exists v, unpack_be b = Ok v)
  \/ (len b <> 4 /\ unpack_be b = Raise StructError).
Proof.
  destruct b as [|? [|? [|? [|? [|? ?]]]]];
    try (right; split; [discriminate | reflexivity]).
  - left. split; [reflexivity | eexists; reflexivity].
  - right. split; [|reflexivity]. unfold len. cbn [List.length]. lia.
Qed.

Lemma unpack_le_cases (b : bytes) :
  (len b = 4 /\ exists v, unpack_le b = Ok v)
  \/ (len b <> 4 /\ unpack_le b = Raise StructError).
Proof.
  destruct b as [|? [|? [|? [|? [|? ?]]]]];
    try (right; split; [discriminate | reflexivity]).
  - left. split; [reflexivity | eexists; reflexivity].
  - right. split; [|reflexivity]. unfold len. cbn [List.length]. lia.
Qed.

(** A four-byte read that reaches past the end of the buffer raises. *)
Lemma unpack_be_past_end (B : bytes) (i j : N) :
  j = i + 4 -> len B < j ->
  unpack_be (get_slice B i j) = Raise StructError.
Proof.
  intros -> H. apply unpack_be_short. rewrite len_get_slice. lia.
Qed.

Lemma parse_box_raises_struct (B : bytes) (e : exn) :
  parse_box B = Raise e -> e = StructError.
Proof.
  rewrite parse_box_unfold.
  destruct (unpack_be_cases (get_slice B 0 4)) as [[_ [v ->]]|[_ ->]];
    [|now intros [= <-]].
  destruct (unpack_be_cases (get_slice B 4 8)) as [[_ [v2 ->]]|[_ ->]];
    [|now intros [= <-]].
  destruct (unpack_le_cases (get_slice B 8 12)) as [[_ [v3 ->]]|[_ ->]];
    [|now intros [= <-]].
  cbn [bind]. unfold read_kid_region.
  destruct (v3 =? 1).
  - destruct (unpack_be_cases (get_slice B 28 32)) as [[_ [n ->]]|[_ ->]];
      [|now intros [= <-]].
    cbn [bind].
    destruct (unpack_be_cases
                (get_slice B (snd (read_kids (N.to_nat n) B 32 []))
                   (snd (read_kids (N.to_nat n) B 32 []) + 4)))
      as [[_ [dl ->]]|[_ ->]]; [discriminate | now intros [= <-]].
  - cbn [bind snd].
    destruct (unpack_be_cases (get_slice B 28 (28 + 4)))
      as [[_ [dl ->]]|[_ ->]]; [discriminate | now intros [= <-]].
Qed.

(** X1: no buffer of fewer than 32 bytes decodes: whatever its content,
    [parse_cenc_init] raises [struct.error] on it. *)
Theorem short_buffer_rejected (x : string) (B : bytes) :
  b64decode x = Ok B -> len B < 32 ->
  parse_cenc_init x = Raise StructError.
Proof.
  intros Hx HB. unfold parse_cenc_init. rewrite Hx. cbn [bind].
  destruct (parse_box B) as [[r pos]|e] eqn:E.
  - exfalso.
    apply parse_box_inv in E
      as (l & pssh & v & ks & pk & dl & _ & _ & _ & E4 & E5 & _ & _).
    apply read_kid_region_spec in E4 as [Hpk _].
    apply unpack_be_ok_len in E5. rewrite len_get_slice in E5.
    destruct (v =? 1); lia.
  - cbn [bind]. now rewrite (parse_box_raises_struct B e E).
Qed.

Lemma short_buffer_rejected_witness :
  parse_cenc_init "AAAAInBzc2gAAAAA7e+LqXnWSs6jyCfc1R0h7QAA"
  = Raise StructError.
Proof.
  eapply short_buffer_rejected; [reflexivity | reflexivity].
Defined.

(** What [parse_cenc_init] returns when the key-ID region is read. *)
Lemma read_kid_region_kids (B : bytes) (kids : list bytes) (pk : N) :
  read_kid_region B 1 = Ok (kids, pk) ->
  kids = map (fun i => get_slice B (32 + 16 * N.of_nat i)
                                   (32 + 16 * N.of_nat i + 16))
             (seq 0 (List.length kids)).
Proof.
  unfold read_kid_region. cbn [N.eqb Pos.eqb].
  destruct (unpack_be (get_slice B 28 32)) as [n|]; [|discriminate].
  cbn [bind]. rewrite read_kids_spec. cbn [app].
  intro H. apply Ok_inj in H. injection H as <- _.
  now rewrite length_map, length_seq.
Qed.

(** X2: whatever [parse_cenc_init] returns has a 16-byte scheme ID and
    16-byte key IDs, as many as the count field says: a buffer on which
    one of those would come out short fails at the payload-length read
    instead. *)
Theorem decoded_ids_have_16_bytes (x : string) (uuid data : bytes)
    (version : N) (kids : list bytes) :
  parse_cenc_init x = Ok (uuid, version, data, kids) ->
  len uuid = 16 /\ all_len16 kids.
Proof.
  unfold parse_cenc_init.
  destruct (b64decode x) as [B|]; [|discriminate]. cbn [bind].
  destruct (parse_box B) as [[r pos]|] eqn:E; [|discriminate].
  cbn [bind fst]. intro H. apply Ok_inj in H. subst r.
  apply parse_box_inv in E
    as (l & pssh & v & ks & pk & dl & _ & _ & _ & E4 & E5 & Hr & _).
  injection Hr as -> -> _ ->.
  pose proof (read_kid_region_spec _ _ _ _ E4) as [Hpk Hnil].
  apply unpack_be_ok_len in E5. rewrite len_get_slice in E5.
  assert (Hlen : pk + 4 <= len B) by lia.
  split.
  - rewrite len_get_slice. destruct (v =? 1); lia.
  - destruct (N.eqb_spec v 1) as [->|Hv].
    + rewrite (read_kid_region_kids B ks pk E4).
      unfold all_len16. apply Forall_forall. intros kid Hin.
      apply in_map_iff in Hin as (i & <- & Hi). apply in_seq in Hi.
      rewrite len_get_slice. unfold len in Hpk. lia.
    + rewrite (Hnil Hv). constructor.
Qed.

Lemma decoded_ids_have_16_bytes_witness :
  len WIDEVINE_UUID = 16 /\ all_len16 [kid_aa].
Proof.
  apply (decoded_ids_have_16_bytes
    "AAAANnBzc2gBAAAA7e+LqXnWSs6jyCfc1R0h7QAAAAGqqqqqqqqqqqqqqqqqqqqqAAAAAgEC"
    WIDEVINE_UUID sample_data 1 [kid_aa]).
  reflexivity.
Defined.

(** X3: downgrading the version-1 Widevine box of a non-empty payload
    gives exactly the version-0 encoding of that payload: the key IDs
    are dropped and nothing else changes. *)
Theorem downgrade_drops_key_ids (p : bytes) (k : list bytes) :
  p <> [] -> k <> [] -> all_len16 k -> box_length p k < 2 ^ 32 ->
  exists y,
    (x <- cenc_init (Some p) None (Some k) ;; cenc_version1to0 x) = Ok y
    /\ cenc_init (Some p) None None = Ok y
    /\ parse_cenc_init y = Ok (WIDEVINE_UUID, 0, p, []).
Proof.
  intros Hp Hk H16 HL.
  assert (Htp : truthy p = true) by (destruct p; [contradiction | reflexivity]).
  assert (Htk : truthy k = true) by (destruct k; [contradiction | reflexivity]).
  assert (HL0 : box_length p [] < 2 ^ 32)
    by (unfold box_length in *; rewrite Htk in HL; cbn [truthy]; lia).
  pose proof (cenc_init_box_layout (Some p) None (Some k)) as E1.
  cbv zeta in E1. rewrite or_default_nil in E1. rewrite or_default_nil in E1.
  specialize (E1 eq_refl H16 HL). cbn [or_default] in E1.
  pose proof (cenc_init_box_layout (Some p) None None) as E0.
  cbv zeta in E0. rewrite or_default_nil in E0.
  specialize (E0 eq_refl (Forall_nil _) HL0). cbn [or_default] in E0.
  exists (b64encode (box_layout p WIDEVINE_UUID [])).
  unfold cenc_init. rewrite E1, E0. cbn [bind].
  repeat split.
  - unfold cenc_version1to0.
    rewrite parse_cenc_init_b64encode, parse_box_layout by easy.
    rewrite Htk. cbn [bind fst N.eqb Pos.eqb negb orb]. rewrite Htp.
    cbn [negb orb]. unfold cenc_init. now rewrite E0.
  - rewrite parse_cenc_init_b64encode, parse_box_layout
      by (try apply Forall_nil; easy).
    reflexivity.
Qed.

Lemma downgrade_drops_key_ids_witness :
  exists y,
    (x <- cenc_init (Some sample_data) None (Some [kid_aa; kid_bb]) ;;
     cenc_version1to0 x) = Ok y
    /\ cenc_init (Some sample_data) None None = Ok y
    /\ parse_cenc_init y = Ok (WIDEVINE_UUID, 0, sample_data, []).
Proof.
  apply (downgrade_drops_key_ids sample_data [kid_aa; kid_bb]).
  - discriminate.
  - discriminate.
  - repeat constructor.
  - reflexivity.
Defined.

(** Assigning to a slice of [w] zero bytes right after the part written
    so far: the slice goes, whatever the length of what replaces it. *)
Lemma set_slice_fill_width (pre x : bytes) (m i j w : N) :
  i = len pre -> j = i + w -> w <= m ->
  set_slice (pre ++ bytearray m) i j x = (pre ++ x) ++ bytearray (m - w).
Proof.
  intros -> -> Hm. unfold set_slice.
  rewrite N.max_r by lia.
  unfold len at 1. rewrite Nat2N.id, firstn_app, firstn_all.
  rewrite Nat.sub_diag, firstn_O, app_nil_r.
  rewrite skipn_app.
  replace (skipn (N.to_nat (len pre + w)) pre) with (@nil byte)
    by (symmetry; apply skipn_all2; unfold len; lia).
  replace (N.to_nat (len pre + w) - List.length pre)%nat
    with (N.to_nat w) by (unfold len; lia).
  rewrite skipn_bytearray. now rewrite <- app_assoc.
Qed.

(** The key-ID loop takes [len(uuid)] zero bytes per key ID and puts
    the key ID there as it is. *)
Lemma write_kids_any (uuid : bytes) (kids : list bytes) :
  len uuid = 16 ->
  forall (pre : bytes) (m pos : N),
    pos = len pre -> 16 * len kids <= m ->
    write_kids uuid kids (pre ++ bytearray m) pos =
    ((pre ++ List.concat kids) ++ bytearray (m - 16 * len kids),
     pos + len (List.concat kids)).
Proof.
  intros Hu. induction kids as [|kid kids IH]; intros pre m pos Hpos Hm.
  - cbn [write_kids List.concat]. rewrite app_nil_r.
    change (len (@nil bytes)) with 0. change (len (@nil byte)) with 0.
    rewrite N.mul_0_r, N.sub_0_r, N.add_0_r. reflexivity.
  - assert (Hl : len (kid :: kids) = 1 + len kids)
      by (unfold len; cbn [List.length]; lia).
    rewrite Hl in *. cbn [write_kids List.concat].
    rewrite (set_slice_fill_width pre kid m pos (pos + len uuid) 16)
      by lia.
    rewrite IH by (rewrite ?len_app; lia).
    replace (m - 16 - 16 * len kids) with (m - 16 * (1 + len kids)) by lia.
    rewrite len_app, <- !app_assoc. f_equal. lia.
Qed.

(** X4: [cenc_init] does not check the size of a key ID.  With a 16-byte
    scheme ID and key IDs of any lengths it writes each key ID as it
    is; the length field still counts 16 bytes per key ID, while the
    buffer has as many bytes as the key IDs really have. *)
Theorem key_id_sizes_not_checked (p s : bytes) (k : list bytes) :
  len s = 16 -> k <> [] -> box_length p k < 2 ^ 32 ->
  exists b64,
    cenc_init (Some p) (Some s) (Some k) = Ok b64
    /\ b64decode b64 = Ok (box_layout p s k)
    /\ unpack_be (get_slice (box_layout p s k) 0 4)
       = Ok (36 + len p + 16 * len k)
    /\ len (box_layout p s k) = 36 + len p + len (List.concat k).
Proof.
  intros Hs Hk HL.
  assert (Hts : truthy s = true) by (destruct s; [discriminate | reflexivity]).
  assert (Htk : truthy k = true) by (destruct k; [contradiction | reflexivity]).
  exists (b64encode (box_layout p s k)).
  rewrite b64decode_b64encode.
  assert (HLk : box_length p k = 36 + len p + 16 * len k)
    by (unfold box_length; rewrite Htk; lia).
  repeat split.
  - unfold cenc_init, cenc_init_box.
    rewrite or_default_nil. rewrite or_default_nil.
    rewrite (or_default_truthy s _ Hts). rewrite Htk.
    unfold box_layout. rewrite Htk, HLk in *.
    replace (len p + 32 + (len k * 16 + 4)) with (36 + len p + 16 * len k)
      by lia.
    remember (36 + len p + 16 * len k) as L eqn:HLeq.
    rewrite (pack_be_fits L) by assumption.
    rewrite (pack_le_fits 1) by reflexivity.
    rewrite (pack_be_fits (len k)) by lia.
    rewrite (pack_be_fits (len p)) by lia.
    cbn [bind fst snd].
    rewrite !len_be_bytes, !len_le_bytes, len_WIDEVINE_PSSH, Hs.
    change (bytearray L) with ([] ++ bytearray L).
    rewrite (set_slice_fill [] (be_bytes L) L) by len_lia.
    rewrite (set_slice_fill _ WIDEVINE_PSSH) by len_lia.
    rewrite (set_slice_fill _ (le_bytes 1)) by len_lia.
    rewrite (set_slice_fill _ s) by len_lia.
    rewrite (set_slice_fill _ (be_bytes (len k))) by len_lia.
    rewrite (write_kids_any s k Hs) by len_lia.
    cbn [fst snd].
    rewrite (set_slice_fill _ (be_bytes (len p))) by len_lia.
    rewrite (set_slice_fill _ p) by len_lia.
    rewrite bytearray_0 by len_lia.
    now rewrite app_nil_r, <- !app_assoc.
  - rewrite <- HLk. unfold box_layout.
    rewrite get_slice_here by reflexivity. now apply unpack_be_bytes.
  - unfold box_layout. rewrite Htk, !len_app. len_lia.
Qed.

Lemma key_id_sizes_not_checked_witness :
  exists b64,
    cenc_init (Some sample_data) (Some zero_uuid) (Some [[xaa; xbb; xcc]])
    = Ok b64
    /\ b64decode b64 = Ok (box_layout sample_data zero_uuid [[xaa; xbb; xcc]])
    /\ unpack_be
         (get_slice (box_layout sample_data zero_uuid [[xaa; xbb; xcc]]) 0 4)
       = Ok (36 + len sample_data + 16 * 1)
    /\ len (box_layout sample_data zero_uuid [[xaa; xbb; xcc]])
       = 36 + len sample_data + 3.
Proof.
  apply (key_id_sizes_not_checked sample_data zero_uuid [[xaa; xbb; xcc]]).
  - reflexivity.
  - discriminate.
  - reflexivity.
Defined.

(** Like [parse_box_agree], for buffers that may also differ in the
    box-type tag. *)
Lemma parse_box_agree_after_tag (B B' : bytes) (r : parsed) (pos : N) :
  parse_box B = Ok (r, pos) ->
  is_ok (unpack_be (get_slice B' 0 4)) = true ->
  is_ok (unpack_be (get_slice B' 4 8)) = true ->
  agree 8 pos B B' ->
  parse_box B' = Ok (r, pos).
Proof.
  intros H H0 H1 Hag.
  apply parse_box_inv in H
    as (l & pssh & version & kids & pk & dl & E1 & E2 & E3 & E4 & E5 & -> & ->).
  pose proof (read_kid_region_spec _ _ _ _ E4) as [Hpk _].
  assert (Hpk28 : 28 <= pk) by (destruct (version =? 1); lia).
  rewrite parse_box_unfold.
  destruct (unpack_be (get_slice B' 0 4)) as [l'|]; [|discriminate].
  destruct (unpack_be (get_slice B' 4 8)) as [t'|]; [|discriminate].
  cbn [bind].
  rewrite (Hag 8 12), E3 by lia. cbn [bind].
  assert (E4' : read_kid_region B' version = Ok (kids, pk)).
  { revert E4. unfold read_kid_region.
    destruct (N.eqb_spec version 1) as [->|Hv]; [|tauto].
    rewrite (Hag 28 32) by lia.
    destruct (unpack_be (get_slice B 28 32)) as [n|]; [|discriminate].
    cbn [bind]. intros [= E4]. f_equal. rewrite <- E4.
    apply (read_kids_agree 8 (pk + 4 + dl)); [assumption | lia |].
    pose proof (read_kids_pos (N.to_nat n) B 32 []) as Hp.
    rewrite E4 in Hp. cbn [snd] in Hp. lia. }
  rewrite E4'. cbn [bind fst snd].
  rewrite (Hag pk (pk + 4)), E5 by lia. cbn [bind].
  now rewrite (Hag 12 28), (Hag (pk + 4) (pk + 4 + dl)) by lia.
Qed.

(** X5: [parse_cenc_init] never looks at the box-type tag: overwriting
    bytes 4-7 of a well-formed box with any four bytes leaves decoding
    successful, with the same result. *)
Theorem box_type_not_checked (B tag : bytes) :
  well_formed B = true -> len tag = 4 ->
  is_ok (parse_cenc_init (b64encode B)) = true
  /\ parse_cenc_init (b64encode (set_slice B 4 8 tag))
     = parse_cenc_init (b64encode B).
Proof.
  intros Hwf Htag. apply well_formed_inv in Hwf as (r & pos & E & Hpos).
  rewrite !parse_cenc_init_b64encode, E.
  split; [reflexivity|].
  destruct (parse_box_min_length B r pos E) as [H4 _].
  assert (Hf : len (firstn (N.to_nat 4) B) = 4) by (rewrite len_firstn; lia).
  unfold set_slice. rewrite N.max_r by lia.
  rewrite (parse_box_agree_after_tag B _ r pos E); [reflexivity | | |].
  - rewrite get_slice_here by (try rewrite Hf; reflexivity).
    apply parse_box_inv in E as (l & _ & _ & _ & _ & _ & E1 & _).
    rewrite <- (get_slice_firstn B 4 0 4) in E1 by lia.
    rewrite get_slice_all in E1 by (try rewrite Hf; easy).
    now rewrite E1.
  - rewrite get_slice_app_r by (rewrite Hf; lia). rewrite Hf.
    rewrite get_slice_here by (rewrite ?Htag; reflexivity).
    destruct (unpack_be_cases tag) as [[_ [v ->]]|[Hn _]];
      [reflexivity | contradiction].
  - intros i j Hi Hij Hj.
    rewrite get_slice_app_r by (rewrite Hf; lia). rewrite Hf.
    rewrite get_slice_app_r by (rewrite Htag; lia). rewrite Htag.
    rewrite get_slice_skipn. f_equal; lia.
Qed.

Lemma box_type_not_checked_witness :
  is_ok (parse_cenc_init (b64encode sample_box)) = true
  /\ parse_cenc_init (b64encode (set_slice sample_box 4 8 [x6d; x6f; x6f; x76]))
     = parse_cenc_init (b64encode sample_box).
Proof.
  apply (box_type_not_checked sample_box [x6d; x6f; x6f; x76]); reflexivity.
Defined.

(** * [jwt_data] *)

Example split_char_examples :
  split_char "." "a.b.c" = ["a"; "b"; "c"]%string
  /\ split_char "." "" = [""]%string
  /\ split_char "." "a." = ["a"; ""]%string
  /\ split_char "." ".a" = [""; "a"]%string
  /\ rstrip_char "=" "ab=c==" = "ab=c"%string
  /\ fix_padding "abcde" = "abcde==="%string.
Proof. repeat split. Qed.

Lemma slen_append (a b : string) : slen (a ++ b) = slen a + slen b.
Proof.
  unfold slen. induction a as [|c a IH]; cbn [append String.length].
  - reflexivity.
  - lia.
Qed.

Lemma slen_repeat_char (c : ascii) (n : N) : slen (repeat_char c n) = n.
Proof.
  unfold slen, repeat_char.
  induction n as [|n IH] using N.peano_ind.
  - reflexivity.
  - rewrite N2Nat.inj_succ. cbn [repeat string_of_list_ascii String.length].
    lia.
Qed.

(** X6: the text [jwt_data] hands to [base64.b64decode] starts with the
    segment, has a length divisible by 4, and is the segment itself when
    the segment's length already is; fewer than four [=] are added. *)
Theorem fix_padding_multiple_of_4 (seg : string) :
  slen (fix_padding seg) mod 4 = 0
  /\ slen (fix_padding seg) < slen seg + 4
  /\ (exists n, fix_padding seg = (seg ++ repeat_char "=" n)%string)
  /\ (slen seg mod 4 = 0 -> fix_padding seg = seg).
Proof.
  unfold fix_padding. rewrite slen_append, slen_repeat_char.
  pose proof (N.mod_upper_bound (slen seg) 4 ltac:(lia)) as Hm.
  pose proof (N.div_mod (slen seg) 4 ltac:(lia)) as Hd.
  remember (slen seg mod 4) as r eqn:Hr.
  remember (slen seg / 4) as q eqn:Hq.
  assert (Hc : r = 0 \/ r = 1 \/ r = 2 \/ r = 3) by lia.
  repeat split.
  - remember (slen seg) as n eqn:Hn. clear Hr Hq Hn.
    assert (Hk : exists k, n + (4 - r) mod 4 = 0 + k * 4).
    { destruct Hc as [-> | [-> | [-> | ->]]]; cbn;
        [exists q | exists (q + 1) | exists (q + 1) | exists (q + 1)]; lia. }
    destruct Hk as [k ->]. now rewrite N.Div0.mod_add.
  - destruct Hc as [-> | [-> | [-> | ->]]]; cbn; lia.
  - eexists. reflexivity.
  - intros ->. cbn. clear. induction seg as [|c s IH]; cbn; congruence.
Qed.

Lemma split_char_not_nil (sep : ascii) (s : string) : split_char sep s <> [].
Proof.
  induction s as [|c s IH]; cbn [split_char]; [discriminate|].
  destruct (Ascii.eqb c sep); [discriminate|].
  destruct (split_char sep s); discriminate.
Qed.

(** Splitting a text without the separator gives the text. *)
Lemma split_char_lacks (sep : ascii) (s : string) :
  lacks_char sep s = true -> split_char sep s = [s].
Proof.
  induction s as [|c s IH]; cbn [split_char lacks_char]; [reflexivity|].
  intro H. apply andb_prop in H as [Hc Hs]. apply negb_true_iff in Hc.
  now rewrite Hc, (IH Hs).
Qed.

(** The first piece ends at the first separator. *)
Lemma split_char_first (sep : ascii) (h t : string) :
  lacks_char sep h = true ->
  split_char sep (h ++ String sep t) = h :: split_char sep t.
Proof.
  induction h as [|c h IH]; cbn [split_char lacks_char append].
  - intros _. now rewrite Ascii.eqb_refl.
  - intro H. apply andb_prop in H as [Hc Hs]. apply negb_true_iff in Hc.
    now rewrite Hc, (IH Hs).
Qed.

Lemma rstrip_char_cons (c a : ascii) (s : string) :
  Ascii.eqb a c = false ->
  rstrip_char c (String a s) = String a (rstrip_char c s).
Proof.
  intro H. cbn [rstrip_char]. rewrite H.
  now destruct (rstrip_char c s).
Qed.

Lemma fix_padding_4 (a b c d : ascii) (s : string) :
  fix_padding (String a (String b (String c (String d s)))) =
  String a (String b (String c (String d (fix_padding s)))).
Proof.
  unfold fix_padding. cbn [append]. do 5 f_equal.
  unfold slen. cbn [String.length].
  replace (N.of_nat (S (S (S (S (String.length s))))))
    with (N.of_nat (String.length s) + 1 * 4) by lia.
  now rewrite N.Div0.mod_add.
Qed.

(** Padding again what [rstrip('=')] took off a base64 text. *)
Lemma fix_padding_rstrip (data : bytes) :
  fix_padding (rstrip_char "=" (b2a_base64 data)) = b2a_base64 data.
Proof.
  induction data as [|a|a b|a b c data IH] using list_ind3.
  - reflexivity.
  - change (b2a_base64 [a]) with
      (String (b2a_digit (sextet0 a))
        (String (b2a_digit (N.shiftl (N.land (Byte.to_N a) 3) 4)) "==")).
    rewrite rstrip_char_cons by (apply digit_not_pad, sextet0_lt).
    rewrite rstrip_char_cons by (apply digit_not_pad, last_sextet1_lt).
    reflexivity.
  - change (b2a_base64 [a; b]) with
      (String (b2a_digit (sextet0 a))
        (String (b2a_digit (sextet1 a b))
          (String (b2a_digit (N.shiftl (N.land (Byte.to_N b) 15) 2)) "="))).
    rewrite rstrip_char_cons by (apply digit_not_pad, sextet0_lt).
    rewrite rstrip_char_cons by (apply digit_not_pad, sextet1_lt).
    rewrite rstrip_char_cons by (apply digit_not_pad, last_sextet2_lt).
    reflexivity.
  - rewrite b2a_base64_3.
    rewrite rstrip_char_cons by (apply digit_not_pad, sextet0_lt).
    rewrite rstrip_char_cons by (apply digit_not_pad, sextet1_lt).
    rewrite rstrip_char_cons by (apply digit_not_pad, sextet2_lt).
    rewrite rstrip_char_cons by (apply digit_not_pad, sextet3_lt).
    now rewrite fix_padding_4, IH.
Qed.

Lemma digit_not_dot (d : N) : d < 64 -> Ascii.eqb (b2a_digit d) "." = false.
Proof.
  intro H.
  assert (Hall : forallb (fun d => negb (Ascii.eqb (b2a_digit d) "."))
                   (map N.of_nat (seq 0 64)) = true)
    by (vm_compute; reflexivity).
  rewrite forallb_forall in Hall. apply negb_true_iff, Hall.
  apply in_map_iff. exists (N.to_nat d). split.
  - apply N2Nat.id.
  - apply in_seq. lia.
Qed.

Lemma lacks_dot_b2a_base64 (data : bytes) :
  lacks_char "." (b2a_base64 data) = true.
Proof.
  induction data as [|a|a b|a b c data IH] using list_ind3.
  - reflexivity.
  - change (b2a_base64 [a]) with
      (String (b2a_digit (sextet0 a))
        (String (b2a_digit (N.shiftl (N.land (Byte.to_N a) 3) 4)) "==")).
    cbn [lacks_char].
    rewrite digit_not_dot by apply sextet0_lt.
    rewrite digit_not_dot by apply last_sextet1_lt. reflexivity.
  - change (b2a_base64 [a; b]) with
      (String (b2a_digit (sextet0 a))
        (String (b2a_digit (sextet1 a b))
          (String (b2a_digit (N.shiftl (N.land (Byte.to_N b) 15) 2)) "="))).
    cbn [lacks_char].
    rewrite digit_not_dot by apply sextet0_lt.
    rewrite digit_not_dot by apply sextet1_lt.
    rewrite digit_not_dot by apply last_sextet2_lt. reflexivity.
  - rewrite b2a_base64_3. cbn [lacks_char].
    rewrite digit_not_dot by apply sextet0_lt.
    rewrite digit_not_dot by apply sextet1_lt.
    rewrite digit_not_dot by apply sextet2_lt.
    rewrite digit_not_dot by apply sextet3_lt.
    now rewrite IH.
Qed.

Lemma lacks_char_rstrip (c x : ascii) (s : string) :
  lacks_char c s = true -> lacks_char c (rstrip_char x s) = true.
Proof.
  induction s as [|a s IH]; cbn [lacks_char rstrip_char]; [reflexivity|].
  intro H. apply andb_prop in H as [Ha Hs]. specialize (IH Hs).
  destruct (rstrip_char x s) as [|b r].
  - destruct (Ascii.eqb a x); [reflexivity|].
    cbn [lacks_char]. now rewrite Ha.
  - cbn [lacks_char] in *. now rewrite Ha, IH.
Qed.

(** X7: [jwt_data] undoes the encoding of a payload segment that is the
    unpadded standard base64 text of some bytes: for a token
    [header.segment.rest] whose header has no dot, [json.loads] is
    handed exactly those bytes, whatever follows the second dot. *)
Theorem jwt_data_round_trip {J : Type} (json_loads : bytes -> option J)
    (header rest : string) (data : bytes) :
  lacks_char "." header = true ->
  jwt_payload (header ++ "." ++ rstrip_char "=" (b64encode data)
               ++ "." ++ rest)
  = inr data
  /\ jwt_data json_loads (header ++ "." ++ rstrip_char "=" (b64encode data)
                          ++ "." ++ rest)
     = match json_loads data with
       | Some j => inr j
       | None => inl JSONDecodeError
       end.
Proof.
  intro Hh.
  assert (E : jwt_payload (header ++ "." ++ rstrip_char "=" (b64encode data)
                           ++ "." ++ rest) = inr data).
  { unfold jwt_payload.
    change ("." ++ rstrip_char "=" (b64encode data) ++ "." ++ rest)%string
      with (String "." (rstrip_char "=" (b64encode data)
                        ++ String "." rest))%string.
    rewrite split_char_first by assumption.
    rewrite split_char_first
      by (apply lacks_char_rstrip, lacks_dot_b2a_base64).
    cbn [nth_error]. unfold b64encode.
    rewrite fix_padding_rstrip. fold (b64encode data).
    now rewrite (b64decode_b64encode data). }
  split; [assumption|]. unfold jwt_data. now rewrite E.
Qed.

Lemma jwt_data_round_trip_witness :
  jwt_payload "eyJhbGciOiJIUzI1NiJ9.eyJhIjoxfQ.c2ln"
  = inr [x7b; x22; x61; x22; x3a; x31; x7d]
  /\ jwt_data (fun raw => Some (List.length raw))
       "eyJhbGciOiJIUzI1NiJ9.eyJhIjoxfQ.c2ln"
     = inr 7%nat.
Proof.
  apply (jwt_data_round_trip (fun raw => Some (List.length raw))
           "eyJhbGciOiJIUzI1NiJ9" "c2ln"
           [x7b; x22; x61; x22; x3a; x31; x7d]).
  reflexivity.
Defined.

(** X8: a token without a dot has no second piece:
    [token.split('.')[1]] raises [IndexError], before anything is
    decoded. *)
Theorem jwt_data_needs_a_dot {J : Type} (json_loads : bytes -> option J)
    (token : string) :
  lacks_char "." token = true ->
  jwt_data json_loads token = inl IndexError.
Proof.
  intro H. unfold jwt_data, jwt_payload.
  now rewrite split_char_lacks.
Qed.

Lemma jwt_data_needs_a_dot_witness :
  jwt_data (fun raw => Some raw) "eyJhIjoxfQ" = inl IndexError.
Proof.
  apply (jwt_data_needs_a_dot (fun raw => Some raw) "eyJhIjoxfQ").
  reflexivity.
Defined.

(** Linear arithmetic with division and remainder by constants. *)
Ltac lia_div := Zify.zify; Z.to_euclidean_division_equations; lia.

Lemma emit_ok (b : byte) (m : result bytes) (out : bytes) :
  emit b m = Ok out -> exists out', m = Ok out' /\ out = b :: out'.
Proof.
  unfold emit. destruct m as [out'|]; [|discriminate].
  cbn [bind]. intro H. apply Ok_inj in H. eauto.
Qed.

Lemma len_cons {A : Type} (a : A) (l : list A) : len (a :: l) = len l + 1.
Proof. unfold len. cbn [List.length]. lia. Qed.

(** The decoder cannot give more bytes than the digits it is given
    carry. *)
Lemma a2b_base64_len_bound (s : string) :
  forall (q l p : N) (out : bytes),
    q < 4 -> a2b_base64 s q l p = Ok out ->
    len out + (q - 1) <= decoded_bound (q + count_digits s).
Proof.
  induction s as [|c s IH]; intros q l p out Hq.
  - cbn [a2b_base64 count_digits].
    destruct (N.eqb_spec q 0) as [->|]; [|discriminate].
    intro H. apply Ok_inj in H. subst out. apply N.le_refl.
  - cbn [a2b_base64 count_digits].
    destruct (Ascii.eqb c "=") eqn:Ec.
    + apply Ascii.eqb_eq in Ec. subst c.
      change (a2b_digit "=") with (@None N).
      destruct (2 <=? q);
        [destruct (4 <=? q + (p + 1))|].
      * intro H. apply Ok_inj in H. subst out.
        change (len (@nil byte)) with 0. unfold decoded_bound. lia_div.
      * intro H. apply IH in H; [|assumption]. exact H.
      * intro H. apply IH in H; [|assumption]. exact H.
    + destruct (a2b_digit c) as [d|].
      2:{ intro H. apply IH in H; [|assumption]. exact H. }
      assert (Hc : q = 0 \/ q = 1 \/ q = 2 \/ q = 3) by lia.
      destruct Hc as [-> | [-> | [-> | ->]]].
      * intro H. apply IH in H; [|lia]. revert H.
        unfold decoded_bound. generalize (count_digits s) (len out).
        intros n k. lia_div.
      * intro H. apply emit_ok in H as (out' & H & ->).
        apply IH in H; [|lia]. rewrite len_cons. revert H.
        unfold decoded_bound. generalize (count_digits s) (len out').
        intros n k. lia_div.
      * intro H. apply emit_ok in H as (out' & H & ->).
        apply IH in H; [|lia]. rewrite len_cons. revert H.
        unfold decoded_bound. generalize (count_digits s) (len out').
        intros n k. lia_div.
      * intro H. apply emit_ok in H as (out' & H & ->).
        apply IH in H; [|lia]. rewrite len_cons. revert H.
        unfold decoded_bound. generalize (count_digits s) (len out').
        intros n k. lia_div.
Qed.

Lemma count_digits_digit (d : N) (s : string) :
  d < 64 -> count_digits (String (b2a_digit d) s) = 1 + count_digits s.
Proof. intro H. cbn [count_digits]. now rewrite a2b_b2a_digit. Qed.

(** The standard encoding of [n] bytes has [(4n + 2) / 3] digits. *)
Lemma count_digits_b2a_base64 (data : bytes) :
  count_digits (b2a_base64 data) = (4 * len data + 2) / 3.
Proof.
  induction data as [|a|a b|a b c data IH] using list_ind3.
  - reflexivity.
  - change (b2a_base64 [a]) with
      (String (b2a_digit (sextet0 a))
        (String (b2a_digit (N.shiftl (N.land (Byte.to_N a) 3) 4)) "==")).
    rewrite count_digits_digit by apply sextet0_lt.
    rewrite count_digits_digit by apply last_sextet1_lt.
    reflexivity.
  - change (b2a_base64 [a; b]) with
      (String (b2a_digit (sextet0 a))
        (String (b2a_digit (sextet1 a b))
          (String (b2a_digit (N.shiftl (N.land (Byte.to_N b) 15) 2)) "="))).
    rewrite count_digits_digit by apply sextet0_lt.
    rewrite count_digits_digit by apply sextet1_lt.
    rewrite count_digits_digit by apply last_sextet2_lt.
    reflexivity.
  - rewrite b2a_base64_3.
    rewrite count_digits_digit by apply sextet0_lt.
    rewrite count_digits_digit by apply sextet1_lt.
    rewrite count_digits_digit by apply sextet2_lt.
    rewrite count_digits_digit by apply sextet3_lt.
    rewrite IH, !len_cons. generalize (len data). intro n. lia_div.
Qed.

Lemma count_digits_rstrip (s : string) :
  count_digits (rstrip_char "=" s) = count_digits s.
Proof.
  induction s as [|a s IH]; [reflexivity|].
  cbn [rstrip_char count_digits]. rewrite <- IH.
  destruct (rstrip_char "=" s) as [|b r]; [|reflexivity].
  destruct (Ascii.eqb a "=") eqn:E; [|reflexivity].
  apply Ascii.eqb_eq in E. now subst a.
Qed.

Lemma count_digits_append (a b : string) :
  count_digits (a ++ b) = count_digits a + count_digits b.
Proof.
  induction a as [|c a IH]; cbn [append count_digits]; [reflexivity|].
  rewrite IH. lia.
Qed.

Lemma count_digits_fix_padding (s : string) :
  count_digits (fix_padding s) = count_digits s.
Proof.
  unfold fix_padding. rewrite count_digits_append.
  generalize ((4 - slen s mod 4) mod 4). intro n. unfold repeat_char.
  induction (N.to_nat n) as [|k IH]; cbn [repeat string_of_list_ascii].
  - apply N.add_0_r.
  - cbn [count_digits]. change (a2b_digit "=") with (@None N).
    exact IH.
Qed.

Lemma urlsafe_char_cases (c : ascii) :
  urlsafe_char c = c
  \/ (a2b_digit (urlsafe_char c) = None /\ exists d, a2b_digit c = Some d).
Proof.
  unfold urlsafe_char.
  destruct (Ascii.eqb c "+") eqn:E1.
  { apply Ascii.eqb_eq in E1. subst c. right. split; [reflexivity | now exists 62]. }
  destruct (Ascii.eqb c "/") eqn:E2.
  { apply Ascii.eqb_eq in E2. subst c. right. split; [reflexivity | now exists 63]. }
  now left.
Qed.

(** Replacing [+] and [/] takes digits away, at least one when it
    changes the text at all. *)
Lemma count_digits_urlsafe (s : string) :
  count_digits (map_string urlsafe_char s) <= count_digits s
  /\ (map_string urlsafe_char s <> s ->
      count_digits (map_string urlsafe_char s) < count_digits s).
Proof.
  induction s as [|c s [IH1 IH2]];
    [split; [apply N.le_refl | intro H; now elim H]|].
  cbn [map_string count_digits].
  destruct (urlsafe_char_cases c) as [-> | [-> [d ->]]].
  - split; [lia|]. intro H.
    assert (H0 : map_string urlsafe_char s <> s) by congruence.
    specialize (IH2 H0). lia.
  - split; intros; lia.
Qed.

Lemma urlsafe_char_not_dot (c : ascii) :
  Ascii.eqb c "." = false -> Ascii.eqb (urlsafe_char c) "." = false.
Proof.
  intro H. unfold urlsafe_char.
  destruct (Ascii.eqb c "+"); [reflexivity|].
  destruct (Ascii.eqb c "/"); [reflexivity | assumption].
Qed.

Lemma lacks_dot_urlsafe (s : string) :
  lacks_char "." s = true ->
  lacks_char "." (map_string urlsafe_char s) = true.
Proof.
  induction s as [|c s IH]; cbn [lacks_char map_string]; [reflexivity|].
  intro H. apply andb_prop in H as [Hc Hs]. apply negb_true_iff in Hc.
  now rewrite (urlsafe_char_not_dot c Hc), (IH Hs).
Qed.

(** X9: [jwt_data] decodes with the standard alphabet, in which [-] and
    [_] are not digits and are skipped.  A payload whose URL-safe text
    (the one JWTs carry) differs from its standard base64 text is
    therefore never recovered: the call fails or [json.loads] gets other
    bytes. *)
Theorem jwt_data_urlsafe_not_decoded (header rest : string) (data : bytes) :
  lacks_char "." header = true ->
  urlsafe_b64encode data <> b64encode data ->
  jwt_payload (header ++ "." ++ rstrip_char "=" (urlsafe_b64encode data)
               ++ "." ++ rest)
  <> inr data.
Proof.
  intros Hh Hne. unfold jwt_payload.
  change ("." ++ rstrip_char "=" (urlsafe_b64encode data) ++ "." ++ rest)%string
    with (String "." (rstrip_char "=" (urlsafe_b64encode data)
                      ++ String "." rest))%string.
  rewrite split_char_first by assumption.
  rewrite split_char_first
    by (apply lacks_char_rstrip, lacks_dot_urlsafe, lacks_dot_b2a_base64).
  cbn [nth_error].
  destruct (b64decode _) as [raw|e] eqn:E; [|discriminate].
  intro H. injection H as ->.
  unfold b64decode in E.
  destruct (is_ascii _); [|discriminate].
  apply a2b_base64_len_bound in E; [|lia].
  rewrite count_digits_fix_padding, count_digits_rstrip in E.
  destruct (count_digits_urlsafe (b64encode data)) as [_ Hlt].
  specialize (Hlt Hne). unfold urlsafe_b64encode in E.
  unfold b64encode in *. rewrite count_digits_b2a_base64 in Hlt.
  revert E Hlt. unfold decoded_bound.
  generalize (count_digits (map_string urlsafe_char (b2a_base64 data)))
             (len data).
  intros n k. lia_div.
Qed.

Lemma jwt_data_urlsafe_not_decoded_witness :
  jwt_payload "eyJhbGciOiJIUzI1NiJ9.eyJhIjoiPz8_In0.c2ln"
  <> inr [x7b; x22; x61; x22; x3a; x22; x3f; x3f; x3f; x22; x7d].
Proof.
  apply (jwt_data_urlsafe_not_decoded "eyJhbGciOiJIUzI1NiJ9" "c2ln"
           [x7b; x22; x61; x22; x3a; x22; x3f; x3f; x3f; x22; x7d]).
  - reflexivity.
  - discriminate.
Defined.

(** * [strip_namespaces] *)

Example strip_name_examples :
  map strip_name ["{http://www.w3.org/2005/Atom}feed"; "feed"; "";
                  "{a}{b}c"; "{abc"; "a{b}c"]%string
  = ["feed"; "feed"; ""; "{b}c"; ""; "a{b}c"]%string.
Proof. reflexivity. Qed.

(** A key that is both a namespaced and a plain attribute: the
    namespaced one takes over the plain one's place and value. *)
Example strip_attrib_collision :
  strip_attrib [("{ns}id", "1"); ("id", "2"); ("{ns}x", "3")]%string
  = Some [("id", "1"); ("x", "3")]%string.
Proof. reflexivity. Qed.

Lemma element_ind' (P : element -> Prop) :
  (forall tag attrib children,
     Forall P children -> P (Element tag attrib children)) ->
  forall t, P t.
Proof.
  intro H. fix IH 1. intros [tag attrib children]. apply H.
  induction children as [|c cs IHcs]; constructor; [apply IH | exact IHcs].
Qed.

Lemma dict_get_in {V : Type} (k : string) (d : dict V) (v : V) :
  dict_get k d = Some v -> In k (keys d).
Proof.
  induction d as [|[k' v'] d IH]; cbn [dict_get keys map fst]; [discriminate|].
  destruct (String.eqb_spec k' k) as [->|Hk]; [now left|].
  intro H. right. now apply IH.
Qed.

Lemma dict_get_nodup {V : Type} (k : string) (v : V) (d : dict V) :
  NoDup (keys d) -> In (k, v) d -> dict_get k d = Some v.
Proof.
  induction d as [|[k' v'] d IH]; cbn [dict_get keys map fst In]; [tauto|].
  intros Hnd [H|H].
  - injection H as -> ->. now rewrite String.eqb_refl.
  - apply NoDup_cons_iff in Hnd as [Hnot Hnd].
    destruct (String.eqb_spec k' k) as [->|Hk].
    + exfalso. apply Hnot. change (In k (map fst d)).
      apply in_map_iff. now exists (k, v).
    + now apply IH.
Qed.

Lemma dict_del_some {V : Type} (k : string) (d : dict V) :
  In k (keys d) -> exists d', dict_del k d = Some d'.
Proof.
  induction d as [|[k' v'] d IH]; cbn [dict_del keys map fst In]; [tauto|].
  intros H. destruct (String.eqb_spec k' k) as [->|Hk]; [eauto|].
  destruct H as [H|H]; [contradiction|].
  destruct (IH H) as [d' ->]. eauto.
Qed.

Lemma dict_del_keys {V : Type} (k m : string) (d d' : dict V) :
  dict_del k d = Some d' -> In m (keys d) -> m <> k -> In m (keys d').
Proof.
  revert d'. induction d as [|[k' v'] d IH]; intro d';
    cbn [dict_del keys map fst In]; [discriminate|].
  destruct (String.eqb_spec k' k) as [->|Hk].
  - intros [= <-] [H|H] Hm; [congruence | exact H].
  - destruct (dict_del k d) as [d''|]; [|discriminate].
    intros [= <-] [H|H] Hm; cbn [keys map fst In]; [now left|].
    right. now apply (IH d'').
Qed.

Lemma dict_get_del_other {V : Type} (k m : string) (d d' : dict V) :
  dict_del k d = Some d' -> m <> k -> dict_get m d' = dict_get m d.
Proof.
  revert d'. induction d as [|[k' v'] d IH]; intro d';
    cbn [dict_del dict_get]; [discriminate|].
  destruct (String.eqb_spec k' k) as [->|Hk].
  - intros [= <-] Hm.
    destruct (String.eqb_spec k m) as [->|]; [congruence | reflexivity].
  - destruct (dict_del k d) as [d''|]; [|discriminate].
    intros [= <-] Hm. cbn [dict_get].
    destruct (String.eqb k' m); [reflexivity | now apply IH].
Qed.

Lemma dict_set_keys {V : Type} (k m : string) (v : V) (d : dict V) :
  In m (keys d) -> In m (keys (dict_set k v d)).
Proof.
  induction d as [|[k' v'] d IH]; cbn [dict_set keys map fst In]; [tauto|].
  destruct (String.eqb_spec k' k) as [->|Hk]; cbn [keys map fst In]; [tauto|].
  intros [H|H]; [now left | right; now apply IH].
Qed.

Lemma dict_get_set_same {V : Type} (k : string) (v : V) (d : dict V) :
  dict_get k (dict_set k v d) = Some v.
Proof.
  induction d as [|[k' v'] d IH]; cbn [dict_set dict_get].
  - now rewrite String.eqb_refl.
  - destruct (String.eqb_spec k' k) as [->|Hk]; cbn [dict_get].
    + now rewrite String.eqb_refl.
    + destruct (String.eqb_spec k' k); [contradiction | exact IH].
Qed.

Lemma dict_get_set_other {V : Type} (k m : string) (v : V) (d : dict V) :
  m <> k -> dict_get m (dict_set k v d) = dict_get m d.
Proof.
  intro Hm. induction d as [|[k' v'] d IH]; cbn [dict_set dict_get].
  - destruct (String.eqb_spec k m); [congruence | reflexivity].
  - destruct (String.eqb_spec k' k) as [->|Hk]; cbn [dict_get].
    + destruct (String.eqb_spec k m); [congruence | reflexivity].
    + destruct (String.eqb k' m); [reflexivity | exact IH].
Qed.

Lemma length_dict_del {V : Type} (k : string) (d d' : dict V) :
  dict_del k d = Some d' -> List.length d = S (List.length d').
Proof.
  revert d'. induction d as [|[k' v'] d IH]; intro d'; cbn [dict_del];
    [discriminate|].
  destruct (String.eqb k' k).
  - now intros [= <-].
  - destruct (dict_del k d) as [d''|]; [|discriminate].
    intros [= <-]. cbn [List.length]. f_equal. now apply IH.
Qed.

Lemma length_dict_set {V : Type} (k : string) (v : V) (d : dict V) :
  (List.length (dict_set k v d) <= S (List.length d))%nat.
Proof.
  induction d as [|[k' v'] d IH]; cbn [dict_set List.length]; [lia|].
  destruct (String.eqb k' k); cbn [List.length]; lia.
Qed.

Lemma strip_attrib_fold (attrib : dict string) :
  strip_attrib attrib = fold_left strip_item attrib (Some attrib).
Proof. unfold strip_attrib. now destruct attrib. Qed.

(** While the loop runs, the names still to come are keys of the
    dictionary, so [del attrib[name]] finds them. *)
Lemma fold_strip_item_total (items : dict string) :
  forall acc : dict string,
    NoDup (keys items) ->
    (forall n, In n (keys items) -> In n (keys acc)) ->
    exists d', fold_left strip_item items (Some acc) = Some d'.
Proof.
  induction items as [|[n v] items IH]; intros acc Hnd Hin.
  - cbn. eauto.
  - cbn [fold_left strip_item]. cbn [keys map fst] in Hnd, Hin.
    apply NoDup_cons_iff in Hnd as [Hnot Hnd].
    destruct (starts_brace n).
    + destruct (dict_del_some n acc (Hin n (or_introl eq_refl))) as [a' Ea].
      rewrite Ea. apply IH; [assumption|].
      intros m Hm. apply dict_set_keys.
      apply (dict_del_keys n m acc a' Ea); [apply Hin; now right|].
      intros ->. contradiction.
    + apply IH; [assumption|]. intros m Hm. apply Hin. now right.
Qed.

Lemma strip_attrib_total (attrib : dict string) :
  NoDup (keys attrib) -> exists d', strip_attrib attrib = Some d'.
Proof.
  intro H. rewrite strip_attrib_fold.
  now apply fold_strip_item_total.
Qed.

(** X10: on a tree whose attribute dictionaries have distinct keys (as
    every Python [dict] has), [strip_namespaces] runs to the end: no
    [del attrib[name]] raises [KeyError], although names are added to
    the dictionary while the loop runs. *)
Theorem strip_namespaces_no_key_error (tree : element) :
  Forall (fun d => NoDup (keys d)) (attribs tree) ->
  exists tree', strip_namespaces tree = Some tree'.
Proof.
  induction tree as [tag attrib children IH] using element_ind'.
  cbn [attribs strip_namespaces]. intro H.
  apply Forall_cons_iff in H as [Ha Hc].
  destruct (strip_attrib_total attrib Ha) as [attrib' ->].
  assert (Hch : exists cs, map_option strip_namespaces children = Some cs).
  { induction children as [|c cs IHcs]; [cbn; eauto|].
    cbn [flat_map] in Hc. apply Forall_app in Hc as [Hc1 Hc2].
    apply Forall_cons_iff in IH as [IHc IHrest].
    destruct (IHc Hc1) as [c' Ec].
    destruct (IHcs IHrest Hc2) as [cs' Ecs].
    cbn [map_option]. cbn [map_option] in Ecs. rewrite Ec, Ecs. eauto. }
  destruct Hch as [cs ->]. eauto.
Qed.

Lemma strip_namespaces_no_key_error_witness :
  exists tree',
    strip_namespaces
      (Element (Some "{urn:x}root") [("{urn:x}id", "1"); ("id", "2")]
         [Element None [] []; Element (Some "{urn:x}a") [("k", "v")] []])%string
    = Some tree'.
Proof.
  apply strip_namespaces_no_key_error.
  repeat constructor; cbn; intuition discriminate.
Defined.

Lemma map_option_Forall2 {A B : Type} (f : A -> option B) (l : list A)
    (l' : list B) :
  map_option f l = Some l' -> Forall2 (fun a b => f a = Some b) l l'.
Proof.
  revert l'. induction l as [|a l IH]; intro l'; cbn [map_option].
  - intros [= <-]. constructor.
  - destruct (f a) as [b|] eqn:Ea; [|discriminate].
    fold (map_option f l).
    destruct (map_option f l) as [bs|]; [|discriminate].
    intros [= <-]. constructor; [assumption | now apply IH].
Qed.

(** Every element is handled on its own: in document order, the tags
    are the stripped tags and the attribute dictionaries the stripped
    dictionaries. *)
Lemma strip_namespaces_elements (tree : element) :
  forall tree',
    strip_namespaces tree = Some tree' ->
    tags tree' = map (option_map strip_name) (tags tree)
    /\ Forall2 (fun d d' => strip_attrib d = Some d')
         (attribs tree) (attribs tree').
Proof.
  induction tree as [tag attrib children IH] using element_ind'.
  intros tree'. cbn [strip_namespaces].
  destruct (strip_attrib attrib) as [attrib'|] eqn:Ea; [|discriminate].
  destruct (map_option strip_namespaces children) as [cs|] eqn:Ec;
    [|discriminate].
  intros [= <-]. cbn [tags attribs map].
  apply map_option_Forall2 in Ec.
  assert (H : flat_map tags cs
              = map (option_map strip_name) (flat_map tags children)
              /\ Forall2 (fun d d' => strip_attrib d = Some d')
                   (flat_map attribs children) (flat_map attribs cs)).
  { clear Ea. induction Ec as [|c c' children cs Hc _ IHc].
    - split; [reflexivity | constructor].
    - apply Forall_cons_iff in IH as [IH1 IH2].
      destruct (IH1 c' Hc) as [Ht Ha].
      destruct (IHc IH2) as [Hts Has].
      cbn [flat_map]. rewrite map_app, Ht, Hts.
      split; [reflexivity | now apply Forall2_app]. }
  destruct H as [Ht Ha]. split.
  - now rewrite Ht.
  - now constructor.
Qed.

Lemma after_char_clark (uri local : string) :
  lacks_char "}" uri = true ->
  after_char "}" (uri ++ String "}" local) = local.
Proof.
  induction uri as [|c uri IH]; cbn [lacks_char append after_char].
  - reflexivity.
  - intro H. apply andb_prop in H as [Hc Hs]. apply negb_true_iff in Hc.
    rewrite Hc. now apply IH.
Qed.

Lemma after_char_lacks (sep : ascii) (s : string) :
  lacks_char sep s = true -> after_char sep s = EmptyString.
Proof.
  induction s as [|c s IH]; cbn [lacks_char after_char]; [reflexivity|].
  intro H. apply andb_prop in H as [Hc Hs]. apply negb_true_iff in Hc.
  rewrite Hc. now apply IH.
Qed.

(** X11: in document order, the tags [strip_namespaces] leaves are the
    old tags with their namespace removed: a tag [{uri}local] becomes
    [local], a tag that does not start with a brace (or is no [str])
    stays, and a tag that starts with a brace that is never closed
    becomes the empty string. *)
Theorem tags_lose_their_namespace (tree tree' : element) :
  strip_namespaces tree = Some tree' ->
  tags tree' = map (option_map strip_name) (tags tree)
  /\ (forall uri local,
        lacks_char "}" uri = true ->
        strip_name ("{" ++ uri ++ "}" ++ local) = local)
  /\ (forall name, plain name = true -> strip_name name = name)
  /\ (forall rest,
        lacks_char "}" rest = true ->
        strip_name ("{" ++ rest) = EmptyString).
Proof.
  intro H. split; [now apply strip_namespaces_elements|].
  repeat split.
  - intros uri local Hu. unfold strip_name.
    cbn [append starts_brace after_char Ascii.eqb Bool.eqb].
    now apply after_char_clark.
  - intros name Hn. unfold strip_name, plain in *.
    now destruct (starts_brace name).
  - intros rest Hr. unfold strip_name.
    cbn [append starts_brace after_char Ascii.eqb Bool.eqb].
    now apply after_char_lacks.
Qed.

Lemma tags_lose_their_namespace_witness :
  tags (Element (Some "root") []
          [Element (Some "a") [] []; Element None [] []])%string
  = map (option_map strip_name)
      (tags (Element (Some "{urn:x}root") []
               [Element (Some "{urn:y}a") [] []; Element None [] []]))%string.
Proof.
  apply (tags_lose_their_namespace
           (Element (Some "{urn:x}root") []
              [Element (Some "{urn:y}a") [] []; Element None [] []])%string).
  reflexivity.
Defined.

(** The loop keeps every value: the items already seen are found under
    their new names, the items still to come under their old ones. *)
Lemma fold_strip_item_values (items : dict string) :
  forall (seen acc d' : dict string),
    NoDup (keys (seen ++ items)) ->
    NoDup (map strip_name (keys (seen ++ items))) ->
    (forall n, In n (keys (seen ++ items)) -> plain (strip_name n) = true) ->
    (forall n v, In (n, v) seen -> dict_get (strip_name n) acc = Some v) ->
    (forall n v, In (n, v) items -> dict_get n acc = Some v) ->
    fold_left strip_item items (Some acc) = Some d' ->
    forall n v, In (n, v) (seen ++ items) ->
      dict_get (strip_name n) d' = Some v.
Proof.
  induction items as [|[n v] items IH];
    intros seen acc d' Hnd Hnds Hpl Hseen Hrest.
  - cbn [fold_left]. intros [= <-] m w Hin.
    rewrite app_nil_r in Hin. now apply Hseen.
  - cbn [fold_left strip_item].
    (* an item other than (n, v) has another name and another new name *)
    assert (Hother : forall m w, In (m, w) seen \/ In (m, w) items ->
                     m <> n /\ strip_name m <> strip_name n).
    { intros m w Hm. unfold keys in Hnd, Hnds.
      rewrite map_app in Hnd, Hnds. cbn [map fst] in Hnd, Hnds.
      rewrite map_app in Hnds. cbn [map] in Hnds.
      apply NoDup_remove_2 in Hnd. apply NoDup_remove_2 in Hnds.
      assert (Hk : In m (map fst seen ++ map fst items)).
      { apply in_or_app. destruct Hm as [Hm|Hm];
          [left | right]; apply in_map_iff; now exists (m, w). }
      split.
      - intros ->. contradiction.
      - intro E. apply Hnds. rewrite <- E.
        apply in_app_or in Hk. apply in_or_app.
        destruct Hk as [Hk|Hk]; [left | right]; now apply in_map. }
    replace (seen ++ (n, v) :: items) with ((seen ++ [(n, v)]) ++ items)
      in * by now rewrite <- app_assoc.
    assert (Hn_in : In n (keys ((seen ++ [(n, v)]) ++ items))).
    { unfold keys. rewrite !map_app. apply in_or_app. left.
      apply in_or_app. right. now left. }
    destruct (starts_brace n) eqn:Hb.
    + destruct (dict_del n acc) as [a'|] eqn:Ea; [|
        intro H; exfalso; clear - H; induction items as [|[? ?] ? IHi];
        [discriminate | now apply IHi]].
      assert (Hsn : strip_name n = after_char "}" n)
        by (unfold strip_name; now rewrite Hb).
      rewrite <- Hsn.
      apply (IH (seen ++ [(n, v)])); try assumption.
      * intros m w Hm. apply in_app_or in Hm as [Hm|[Hm|[]]].
        -- destruct (Hother m w (or_introl Hm)) as [_ Hne].
           rewrite dict_get_set_other by assumption.
           rewrite (dict_get_del_other n _ acc a' Ea).
           ++ now apply Hseen.
           ++ intros E.
              assert (Hp : plain (strip_name m) = true).
              { apply Hpl. unfold keys. rewrite !map_app.
                apply in_or_app. left. apply in_or_app. left.
                apply in_map_iff. now exists (m, w). }
              rewrite E in Hp. unfold plain in Hp. now rewrite Hb in Hp.
        -- injection Hm as <- <-. apply dict_get_set_same.
      * intros m w Hm.
        destruct (Hother m w (or_intror Hm)) as [Hne Hsne].
        assert (Hmk : m <> strip_name n).
        { intros E.
          assert (Hp : plain (strip_name n) = true) by now apply Hpl.
          assert (Hm' : strip_name m = m).
          { unfold strip_name. rewrite E. unfold plain in Hp.
            now destruct (starts_brace (strip_name n)). }
          apply Hsne. now rewrite Hm', E. }
        rewrite dict_get_set_other by assumption.
        rewrite (dict_get_del_other n _ acc a' Ea) by assumption.
        apply Hrest. now right.
    + apply (IH (seen ++ [(n, v)])); try assumption.
      * intros m w Hm. apply in_app_or in Hm as [Hm|[Hm|[]]].
        -- now apply Hseen.
        -- injection Hm as <- <-.
           replace (strip_name n) with n
             by (unfold strip_name; now rewrite Hb).
           apply Hrest. now left.
      * intros m w Hm. apply Hrest. now right.
Qed.

Lemma strip_attrib_values (d d' : dict string) :
  NoDup (keys d) ->
  NoDup (map strip_name (keys d)) ->
  (forall n, In n (keys d) -> plain (strip_name n) = true) ->
  strip_attrib d = Some d' ->
  forall n v, In (n, v) d -> dict_get (strip_name n) d' = Some v.
Proof.
  intros Hnd Hnds Hpl H. rewrite strip_attrib_fold in H.
  apply (fold_strip_item_values d [] d d'); try assumption.
  - intros n v [].
  - intros n v Hin. now apply dict_get_nodup.
Qed.

(** X12: no attribute value is lost when the local names do not clash.
    In every element whose attribute names become pairwise distinct
    names without a leading brace, each old item [(name, value)] is
    found after the call under the stripped name, with its value. *)
Theorem attribute_values_kept (tree tree' : element) :
  strip_namespaces tree = Some tree' ->
  Forall2
    (fun d d' =>
       NoDup (keys d) ->
       NoDup (map strip_name (keys d)) ->
       (forall n, In n (keys d) -> plain (strip_name n) = true) ->
       forall n v, In (n, v) d -> dict_get (strip_name n) d' = Some v)
    (attribs tree) (attribs tree').
Proof.
  intro H. apply strip_namespaces_elements in H as [_ H].
  induction H as [|d d' ds ds' Hd _ IH]; constructor; [|exact IH].
  intros Hnd Hnds Hpl. now apply strip_attrib_values.
Qed.

Lemma attribute_values_kept_witness :
  Forall2
    (fun d d' =>
       NoDup (keys d) ->
       NoDup (map strip_name (keys d)) ->
       (forall n, In n (keys d) -> plain (strip_name n) = true) ->
       forall n v, In (n, v) d -> dict_get (strip_name n) d' = Some v)
    (attribs (Element (Some "{urn:x}root")
                [("{urn:x}id", "1"); ("lang", "en"); ("{urn:y}ref", "7")]
                []))%string
    (attribs (Element (Some "root")
                [("lang", "en"); ("id", "1"); ("ref", "7")] []))%string.
Proof.
  apply (attribute_values_kept
           (Element (Some "{urn:x}root")
              [("{urn:x}id", "1"); ("lang", "en"); ("{urn:y}ref", "7")]
              [])%string).
  reflexivity.
Defined.

Lemma fold_strip_item_plain (items : dict string) (acc : dict string) :
  Forall (fun n => plain n = true) (keys items) ->
  fold_left strip_item items (Some acc) = Some acc.
Proof.
  induction items as [|[n v] items IH]; intro H; [reflexivity|].
  cbn [keys map fst] in H. apply Forall_cons_iff in H as [Hn Hi].
  cbn [fold_left strip_item]. unfold plain in Hn.
  apply negb_true_iff in Hn. rewrite Hn. now apply IH.
Qed.

(** X13: a tree without namespaces comes back as it was: when no tag
    and no attribute name starts with a brace, [strip_namespaces]
    changes nothing. *)
Theorem plain_tree_unchanged (tree : element) :
  Forall (fun tag => plain_tag tag = true) (tags tree) ->
  Forall (fun d => Forall (fun n => plain n = true) (keys d)) (attribs tree) ->
  strip_namespaces tree = Some tree.
Proof.
  induction tree as [tag attrib children IH] using element_ind'.
  cbn [tags attribs strip_namespaces]. intros Ht Ha.
  apply Forall_cons_iff in Ht as [Htag Ht].
  apply Forall_cons_iff in Ha as [Hattr Ha].
  rewrite strip_attrib_fold, fold_strip_item_plain by assumption.
  assert (Hc : map_option strip_namespaces children = Some children).
  { induction children as [|c cs IHcs]; [reflexivity|].
    cbn [flat_map] in Ht, Ha.
    apply Forall_app in Ht as [Ht1 Ht2]. apply Forall_app in Ha as [Ha1 Ha2].
    apply Forall_cons_iff in IH as [IHc IHrest].
    cbn [map_option]. fold (map_option strip_namespaces cs).
    now rewrite (IHc Ht1 Ha1), (IHcs IHrest Ht2 Ha2). }
  rewrite Hc. do 2 f_equal.
  destruct tag as [name|]; [|reflexivity]. cbn [option_map plain_tag] in *.
  unfold strip_name, plain in *. now destruct (starts_brace name).
Qed.

Lemma plain_tree_unchanged_witness :
  strip_namespaces
    (Element (Some "root") [("id", "1")]
       [Element None [] []; Element (Some "a") [("k", "v")] []])%string
  = Some (Element (Some "root") [("id", "1")]
            [Element None [] []; Element (Some "a") [("k", "v")] []])%string.
Proof.
  apply plain_tree_unchanged; repeat constructor.
Defined.

(** * [kodi_db] *)

Example db_version_examples :
  map (db_version "MyVideos")
    ["MyVideos119.db"; "myvideos119.db-wal"; "MyVideos.db"; "MyVideos12a.db";
     "MyVideos007.dbx"; "xMyVideos1.db"; "MyVideos1.DB"]%string
  = [Some 119; Some 119; None; None; Some 7; None; Some 1].
Proof. reflexivity. Qed.

Example sorted_desc_example :
  sorted_desc [("a", 1); ("b", 3); ("c", 3); ("d", 2)]%string
  = [("b", 3); ("c", 3); ("d", 2); ("a", 1)]%string.
Proof. reflexivity. Qed.

Lemma sorted_desc_nil (options : list (string * N)) :
  sorted_desc options = [] -> options = [].
Proof.
  destruct options as [|x options]; [reflexivity|].
  cbn [sorted_desc fold_right].
  destruct (fold_right insert_desc [] options) as [|y l]; cbn [insert_desc];
    [discriminate|].
  destruct (snd x <? snd y); discriminate.
Qed.

(** The first of the sorted options is the first option with the
    highest version. *)
Lemma sorted_desc_head (options : list (string * N)) :
  forall h t,
    sorted_desc options = h :: t ->
    exists l1 l2,
      options = l1 ++ h :: l2
      /\ (forall y, In y l1 -> snd y < snd h)
      /\ (forall y, In y l2 -> snd y <= snd h).
Proof.
  induction options as [|x options IH]; intros h t; [discriminate|].
  cbn [sorted_desc fold_right]. fold (sorted_desc options).
  destruct (sorted_desc options) as [|h' t'] eqn:E; cbn [insert_desc].
  - apply sorted_desc_nil in E. subst options. intros [= <- <-].
    exists [], []. repeat split; intros y [].
  - destruct (IH h' t' eq_refl) as (l1 & l2 & -> & H1 & H2).
    destruct (N.ltb_spec (snd x) (snd h')) as [Hlt|Hge].
    + intros [= <- <-]. exists (x :: l1), l2. repeat split.
      * intros y [<-|Hy]; [assumption | now apply H1].
      * assumption.
    + intros [= <- <-]. exists [], (l1 ++ h' :: l2). repeat split.
      * intros y [].
      * intros y Hy. apply in_app_or in Hy as [Hy|[<-|Hy]].
        -- specialize (H1 y Hy). lia.
        -- assumption.
        -- specialize (H2 y Hy). lia.
Qed.

(** An option comes from a file of the listing that matches. *)
Lemma db_options_split (path_join : string -> string -> string)
    (db_dir name : string) (listing : list string) :
  forall l1 h l2,
    db_options path_join db_dir name listing = l1 ++ h :: l2 ->
    exists fs1 f fs2,
      listing = fs1 ++ f :: fs2
      /\ db_options path_join db_dir name fs1 = l1
      /\ db_version name f = Some (snd h)
      /\ fst h = path_join db_dir f
      /\ db_options path_join db_dir name fs2 = l2.
Proof.
  induction listing as [|file listing IH]; intros l1 h l2.
  - destruct l1; discriminate.
  - cbn [db_options flat_map].
    fold (db_options path_join db_dir name listing).
    destruct (db_version name file) as [v|] eqn:Ev.
    + destruct l1 as [|o l1]; cbn [app].
      * intros [= <- <-]. exists [], file, listing. now repeat split.
      * intros [= <- H].
        destruct (IH l1 h l2 H) as (fs1 & f & fs2 & -> & <- & Hv & Hp & <-).
        exists (file :: fs1), f, fs2. repeat split; try assumption.
        cbn [db_options flat_map]. now rewrite Ev.
    + cbn [app]. intro H.
      destruct (IH l1 h l2 H) as (fs1 & f & fs2 & -> & <- & Hv & Hp & <-).
      exists (file :: fs1), f, fs2. repeat split; try assumption.
      cbn [db_options flat_map]. now rewrite Ev.
Qed.

Lemma db_options_In (path_join : string -> string -> string)
    (db_dir name : string) (listing : list string) (f : string) (n : N) :
  In f listing -> db_version name f = Some n ->
  In (path_join db_dir f, n) (db_options path_join db_dir name listing).
Proof.
  intros Hin Hv. unfold db_options. apply in_flat_map.
  exists f. split; [assumption|]. rewrite Hv. now left.
Qed.

(** X14: [kodi_db] returns the path of the file with the highest
    version number among the files of the listing that match, the one
    listed first when several have it, and [None] exactly when no file
    matches. *)
Theorem kodi_db_highest_version (path_join : string -> string -> string)
    (db_dir name : string) (listing : list string) :
  all_chars is_word_char name = true ->
  match kodi_db path_join db_dir listing name with
  | None => forall f, In f listing -> db_version name f = None
  | Some path =>
      exists fs1 f fs2 n,
        listing = fs1 ++ f :: fs2
        /\ path = path_join db_dir f
        /\ db_version name f = Some n
        /\ (forall f' n', In f' fs1 -> db_version name f' = Some n' -> n' < n)
        /\ (forall f' n', In f' fs2 -> db_version name f' = Some n' -> n' <= n)
  end.
Proof.
  intros _. unfold kodi_db.
  destruct (sorted_desc (db_options path_join db_dir name listing))
    as [|h t] eqn:E.
  - apply sorted_desc_nil in E. intros f Hin.
    destruct (db_version name f) as [n|] eqn:Ev; [|reflexivity].
    pose proof (db_options_In path_join db_dir name listing f n Hin Ev) as H.
    rewrite E in H. destruct H.
  - apply sorted_desc_head in E as (l1 & l2 & E & H1 & H2).
    apply db_options_split in E
      as (fs1 & f & fs2 & -> & <- & Hv & Hp & <-).
    exists fs1, f, fs2, (snd h). repeat split; try assumption.
    + intros f' n' Hin Hv'.
      exact (H1 _ (db_options_In path_join db_dir name fs1 f' n' Hin Hv')).
    + intros f' n' Hin Hv'.
      exact (H2 _ (db_options_In path_join db_dir name fs2 f' n' Hin Hv')).
Qed.

Lemma kodi_db_highest_version_witness :
  exists fs1 f fs2 n,
    ["Addons27.db"; "MyVideos116.db"; "MyVideos119.db"; "myvideos119.db-wal";
     "Textures13.db"]%string = fs1 ++ f :: fs2
    /\ "/db/MyVideos119.db"%string = ("/db" ++ "/" ++ f)%string
    /\ db_version "MyVideos" f = Some n
    /\ (forall f' n',
          In f' fs1 -> db_version "MyVideos" f' = Some n' -> n' < n)
    /\ (forall f' n',
          In f' fs2 -> db_version "MyVideos" f' = Some n' -> n' <= n).
Proof.
  apply (kodi_db_highest_version
           (fun d f => d ++ "/" ++ f)%string "/db" "MyVideos"
           ["Addons27.db"; "MyVideos116.db"; "MyVideos119.db";
            "myvideos119.db-wal"; "Textures13.db"]%string).
  reflexivity.
Defined.

Lemma map_string_append (f : ascii -> ascii) (a b : string) :
  map_string f (a ++ b)%string = (map_string f a ++ map_string f b)%string.
Proof.
  induction a as [|c a IH]; cbn [append map_string]; [reflexivity|].
  now rewrite IH.
Qed.

Lemma strip_prefix_append (p s r t : string) :
  strip_prefix p s = Some r ->
  strip_prefix p (s ++ t)%string = Some (r ++ t)%string.
Proof.
  revert s. induction p as [|a p IH]; intros s; cbn [strip_prefix].
  - now intros [= ->].
  - destruct s as [|b s]; [discriminate|]. cbn [append strip_prefix].
    destruct (Ascii.eqb a b); [apply IH | discriminate].
Qed.

Lemma strip_prefix_cons (a : ascii) (p s x : string) :
  strip_prefix (String a p) s = Some x -> exists s', s = String a s'.
Proof.
  destruct s as [|b s]; cbn [strip_prefix]; [discriminate|].
  destruct (Ascii.eqb_spec a b) as [->|]; [eauto | discriminate].
Qed.

Lemma span_digits_append (s ds r t : string) (c : ascii) :
  span_digits s = (ds, String c r) -> is_digit c = false ->
  span_digits (s ++ t)%string = (ds, (String c r ++ t)%string).
Proof.
  revert ds. induction s as [|a s IH]; intros ds; cbn [span_digits].
  - discriminate.
  - cbn [append span_digits]. destruct (is_digit a) eqn:Ea.
    + destruct (span_digits s) as [ds' r'] eqn:Es.
      intros [= <- ->] Hc. now rewrite (IH ds' eq_refl Hc).
    + intros [= <- <- <-] _. reflexivity.
Qed.

(** X15: the pattern is matched at the start of the file name only:
    whatever follows [.db] is ignored, so a file such as a journal
    [MyVideos119.db-wal] counts as version 119 as well, and is what
    [kodi_db] returns when nothing else is listed. *)
Theorem kodi_db_ignores_suffix (path_join : string -> string -> string)
    (db_dir name file suffix : string) (n : N) :
  all_chars is_word_char name = true ->
  db_version name file = Some n ->
  db_version name (file ++ suffix)%string = Some n
  /\ kodi_db path_join db_dir [(file ++ suffix)%string] name
     = Some (path_join db_dir (file ++ suffix)%string).
Proof.
  intros _ H.
  assert (E : db_version name (file ++ suffix)%string = Some n).
  { revert H. unfold db_version, lower. rewrite map_string_append.
    destruct (strip_prefix (map_string lower_char name)
                (map_string lower_char file)) as [rest|] eqn:Ep;
      [|discriminate].
    rewrite (strip_prefix_append _ _ _ _ Ep).
    destruct (span_digits rest) as [ds rest'] eqn:Es.
    destruct ds as [|d ds]; [discriminate|].
    destruct (strip_prefix ".db" rest') as [x|] eqn:Ed; [|discriminate].
    destruct (strip_prefix_cons _ _ _ _ Ed) as [r' ->].
    rewrite (span_digits_append _ _ _ _ _ Es eq_refl).
    now rewrite (strip_prefix_append _ _ _ _ Ed). }
  split; [assumption|].
  unfold kodi_db, db_options. cbn [flat_map]. now rewrite E.
Qed.

Lemma kodi_db_ignores_suffix_witness :
  db_version "MyVideos" ("MyVideos119.db" ++ "-wal")%string = Some 119
  /\ kodi_db (fun d f => d ++ "/" ++ f)%string "/db"
       [("MyVideos119.db" ++ "-wal")%string] "MyVideos"
     = Some ("/db" ++ "/" ++ ("MyVideos119.db" ++ "-wal"))%string.
Proof.
  apply (kodi_db_ignores_suffix (fun d f => d ++ "/" ++ f)%string
           "/db" "MyVideos" "MyVideos119.db" "-wal" 119);
    reflexivity.
Defined.

(** * [hash_6] *)

(** The digests of the empty message, of "abc", and of 56, 64 and 119
    times "a", which take one or two blocks. *)
Example md5_vectors :
  md5 [] = [xd4; x1d; x8c; xd9; x8f; x00; xb2; x04;
            xe9; x80; x09; x98; xec; xf8; x42; x7e]
  /\ md5 [x61; x62; x63]
     = [x90; x01; x50; x98; x3c; xd2; x4f; xb0;
        xd6; x96; x3f; x7d; x28; xe1; x7f; x72]
  /\ md5 (repeat x61 56)
     = [x3b; x0c; x8a; xc7; x03; xf8; x28; xb0;
        x4c; x6c; x19; x70; x06; xd1; x72; x18]
  /\ md5 (repeat x61 64)
     = [x01; x48; x42; xd4; x80; xb5; x71; x49;
        x5a; x4a; x03; x63; x79; x3f; x73; x67]
  /\ md5 (repeat x61 119)
     = [x8a; x7b; xd0; x73; x2e; xd6; xa2; x8c;
        xe7; x5f; x6d; xab; xc9; x0e; x16; x13].
Proof. vm_compute. repeat split. Qed.

Example hash_6_abc :
  hash_6 "abc" None 6 = Some "kAFQmD"%string
  /\ hash_6 "abc" None 24 = Some "kAFQmDzST7DWlj99KOF/cg=="%string
  /\ hash_6 "abc" None (-20) = Some "kAFQ"%string
  /\ hash_6 "" (Some "none"%string) 6 = Some "none"%string.
Proof. vm_compute. repeat split. Qed.









(** * [fix_url] *)

Example collapse_slashes_examples :
  map collapse_slashes ["/a//b///c/"; "//"; "a"; "/"; "///x//"; ""]%string
  = ["/a/b/c/"; "/"; "a"; "/"; "/x/"; ""]%string.
Proof. reflexivity. Qed.

Lemma collapse_slashes_cons (c : ascii) (s : string) :
  collapse_slashes (String c s) =
  match s with
  | String c' _ =>
      if Ascii.eqb c "/" && Ascii.eqb c' "/" then collapse_slashes s
      else String c (collapse_slashes s)
  | EmptyString => String c EmptyString
  end.
Proof. reflexivity. Qed.

(** What a collapsed text starts with: the first character of the
    text. *)
Lemma collapse_slashes_head (c : ascii) (s : string) :
  exists t, collapse_slashes (String c s) = String c t.
Proof.
  revert c. induction s as [|c' s IH]; intro c.
  - now exists EmptyString.
  - rewrite collapse_slashes_cons.
    destruct (Ascii.eqb c "/" && Ascii.eqb c' "/") eqn:E.
    + apply andb_prop in E as [E1 E2].
      apply Ascii.eqb_eq in E1, E2. subst c c'. apply IH.
    + eauto.
Qed.

Lemma single_slashes_collapse (s : string) :
  single_slashes (collapse_slashes s) = true.
Proof.
  induction s as [|c s IH]; [reflexivity|].
  rewrite collapse_slashes_cons. destruct s as [|c' s]; [reflexivity|].
  destruct (Ascii.eqb c "/" && Ascii.eqb c' "/") eqn:E; [exact IH|].
  destruct (collapse_slashes_head c' s) as [t Et].
  rewrite Et in IH |- *.
  change (single_slashes (String c (String c' t)))
    with (negb (Ascii.eqb c "/" && Ascii.eqb c' "/")
          && single_slashes (String c' t)).
  now rewrite E, IH.
Qed.

Lemma collapse_single_slashes (s : string) :
  single_slashes s = true -> collapse_slashes s = s.
Proof.
  induction s as [|c s IH]; [reflexivity|].
  rewrite collapse_slashes_cons.
  destruct s as [|c' s]; [reflexivity|].
  change (single_slashes (String c (String c' s)))
    with (negb (Ascii.eqb c "/" && Ascii.eqb c' "/")
          && single_slashes (String c' s)).
  intro H. apply andb_prop in H as [H1 H2].
  apply negb_true_iff in H1. rewrite H1. now rewrite (IH H2).
Qed.

(** X17: [fix_url] hands [urlunparse] the components of [urlparse] with
    only the path changed; that path has no two slashes in a row, and
    it is the old path when that had none (so a URL whose path is clean
    is put together again from its own components). *)
Theorem fix_url_collapses_path (urlparse : string -> parse_result)
    (urlunparse : parse_result -> string) (url : string) :
  exists parse,
    fix_url urlparse urlunparse url = urlunparse parse
    /\ scheme parse = scheme (urlparse url)
    /\ netloc parse = netloc (urlparse url)
    /\ params parse = params (urlparse url)
    /\ query parse = query (urlparse url)
    /\ fragment parse = fragment (urlparse url)
    /\ path parse = collapse_slashes (path (urlparse url))
    /\ single_slashes (path parse) = true
    /\ collapse_slashes (path parse) = path parse
    /\ (single_slashes (path (urlparse url)) = true ->
        parse = urlparse url).
Proof.
  eexists. split; [reflexivity|]. cbn [replace_path scheme netloc params
    query fragment path]. repeat split.
  - apply single_slashes_collapse.
  - apply collapse_single_slashes, single_slashes_collapse.
  - intro H. rewrite (collapse_single_slashes _ H).
    now destruct (urlparse url).
Qed.

(** * [process_brightcove] *)

Lemma key_lt_spec (a b : Z * Z) :
  key_lt a b = true
  <-> (fst a < fst b \/ (fst a = fst b /\ snd a < snd b))%Z.
Proof.
  unfold key_lt.
  rewrite orb_true_iff, andb_true_iff, !Z.ltb_lt, Z.eqb_eq. tauto.
Qed.

Lemma key_lt_false (a b : Z * Z) :
  key_lt a b = false
  <-> ~ (fst a < fst b \/ (fst a = fst b /\ snd a < snd b))%Z.
Proof.
  rewrite <- key_lt_spec. destruct (key_lt a b); split; intro H;
    try congruence; try discriminate; now elim H.
Qed.

Lemma sorted_asc_nil (l : list candidate) : sorted_asc l = [] -> l = [].
Proof.
  destruct l as [|x l]; [reflexivity|].
  cbn [sorted_asc fold_right].
  destruct (fold_right insert_asc [] l) as [|y l']; cbn [insert_asc];
    [discriminate|].
  destruct (key_lt (sort_key y) (sort_key x)); discriminate.
Qed.

(** The first of the sorted entries is the first entry with the lowest
    key. *)
Lemma sorted_asc_head (l : list candidate) :
  forall h t,
    sorted_asc l = h :: t ->
    exists l1 l2,
      l = l1 ++ h :: l2
      /\ (forall y, In y l1 -> key_lt (sort_key h) (sort_key y) = true)
      /\ (forall y, In y l2 -> key_lt (sort_key y) (sort_key h) = false).
Proof.
  induction l as [|x l IH]; intros h t; [discriminate|].
  cbn [sorted_asc fold_right]. fold (sorted_asc l).
  destruct (sorted_asc l) as [|h' t'] eqn:E; cbn [insert_asc].
  - apply sorted_asc_nil in E. subst l. intros [= <- <-].
    exists [], []. repeat split; intros y [].
  - destruct (IH h' t' eq_refl) as (l1 & l2 & -> & H1 & H2).
    destruct (key_lt (sort_key h') (sort_key x)) eqn:Hx.
    + intros [= <- <-]. exists (x :: l1), l2. repeat split.
      * intros y [<-|Hy]; [assumption | now apply H1].
      * assumption.
    + intros [= <- <-]. exists [], (l1 ++ h' :: l2). repeat split.
      * intros y [].
      * intros y Hy. apply key_lt_false. apply key_lt_false in Hx.
        apply in_app_or in Hy as [Hy|[<-|Hy]].
        -- specialize (H1 y Hy). apply key_lt_spec in H1. lia.
        -- lia.
        -- specialize (H2 y Hy). apply key_lt_false in H2. lia.
Qed.

Lemma obind_Return {A B : Type} (m : outcome A) (k : A -> outcome B) (b : B) :
  obind m k = Return b -> exists a, m = Return a /\ k a = Return b.
Proof. destruct m as [a|e]; [now exists a | discriminate]. Qed.

Lemma str_eq_true (v : json) (s : string) :
  str_eq v s = true -> v = JStr s.
Proof.
  destruct v; try discriminate. cbn [str_eq]. intro H.
  apply String.eqb_eq in H. now subst.
Qed.

Section Brightcove.

Variable int_of_str : string -> option Z.

(** What an entry of [sources] says about the source it was made
    from. *)
Lemma classify_some (s : json) (c : candidate) :
  classify int_of_str s = Return (Some c) ->
  exists d,
    s = JDict d
    /\ c_source c = d
    /\ (exists v, dict_get "src" d = Some v /\ truthy_json v = true)
    /\ (c_type c = Khls /\ order_1 c = 1%Z
        \/ c_type c = Kmp4 /\ order_1 c = 2%Z
        \/ c_type c = Kwidevine /\ order_1 c = 3%Z)
    /\ (c_type c = Kwidevine <-> dict_get "key_systems" d <> None).
Proof.
  destruct s as [| | | | |d]; try discriminate.
  unfold classify. intro H. exists d. split; [reflexivity|].
  destruct (dict_get "src" d) as [v|] eqn:Esrc; [|discriminate].
  destruct (truthy_json v) eqn:Et; cbn [negb] in H; [|discriminate].
  assert (Hsrc : exists v0, Some v = Some v0 /\ truthy_json v0 = true)
    by now exists v.
  remember (match dict_get "type" d with Some x => x | None => JNull end)
    as ty eqn:Ety. clear Ety.
  destruct (dict_get "key_systems" d) as [ks|] eqn:Eks;
    rewrite ?andb_false_r, ?andb_true_r in H.
  - destruct (str_eq _ "application/dash+xml"); [|discriminate].
    destruct (contains _ ks) as [[|]|e]; cbn [obind] in H; try discriminate.
    injection H as <-. cbn.
    repeat split; try assumption; try (now right; right); congruence.
  - destruct (str_eq _ "application/x-mpegURL").
    { apply obind_Return in H as (z & _ & [= <-]). cbn.
      repeat split; try assumption; try (now left); try congruence. }
    destruct (str_eq _ "MP4").
    { apply obind_Return in H as (z & _ & [= <-]). cbn.
      repeat split; try assumption; try (now right; left); try congruence. }
    destruct (str_eq ty "application/dash+xml") eqn:Ed.
    { apply str_eq_true in Ed. subst ty. cbn in H. discriminate. }
    cbn [obind] in H.
    destruct (str_eq _ "application/vnd.apple.mpegurl"); [|discriminate].
    injection H as <-. cbn.
    repeat split; try assumption; try (now left); try congruence.
Qed.

(** The only exceptions of the loop body are Python's own. *)
Lemma classify_throw (s : json) (e : bc_exn) :
  classify int_of_str s = Throw e ->
  e = PyAttributeError \/ e = PyTypeError \/ e = PyValueError.
Proof.
  destruct s as [| | | | |d]; cbn [classify];
    try (intros [= <-]; now left).
  destruct (negb _); [discriminate|].
  assert (Hint : forall v (k : Z -> outcome (option candidate)),
                 obind (int_json int_of_str v) k = Throw e ->
                 (forall z, k z <> Throw e) ->
                 e = PyAttributeError \/ e = PyTypeError \/ e = PyValueError).
  { intros v k H Hk. destruct v as [|b|z|s|l|d']; cbn in H;
      try (injection H as <-; auto); try (now elim (Hk _ H)).
    destruct (int_of_str s); cbn in H;
      [now elim (Hk _ H) | injection H as <-; auto]. }
  destruct (_ && _).
  { intro H. apply Hint in H; [assumption | discriminate]. }
  destruct (_ && _).
  { intro H. apply Hint in H; [assumption | discriminate]. }
  destruct (str_eq _ "application/dash+xml").
  - destruct (match dict_get "key_systems" d with
              | Some x => x | None => JStr EmptyString end);
      cbn; try (intros [= <-]; auto).
    + destruct (substring_of _ _); [discriminate|].
      destruct (_ && _); discriminate.
    + destruct (existsb _ _); [discriminate|].
      destruct (_ && _); discriminate.
    + destruct (dict_get _ _); [discriminate|].
      destruct (_ && _); discriminate.
  - cbn [obind]. destruct (_ && _); discriminate.
Qed.

(** An entry of the loop comes from a source, in the same order. *)
Lemma collect_split (srcs : list json) :
  forall cs l1 c l2,
    collect int_of_str srcs = Return cs ->
    cs = l1 ++ c :: l2 ->
    exists s1 s s2,
      srcs = s1 ++ s :: s2
      /\ classify int_of_str s = Return (Some c)
      /\ collect int_of_str s1 = Return l1
      /\ collect int_of_str s2 = Return l2.
Proof.
  induction srcs as [|s srcs IH]; intros cs l1 c l2.
  - intros [= <-] H. destruct l1; discriminate.
  - cbn [collect]. intro H.
    apply obind_Return in H as (o & Ho & H).
    apply obind_Return in H as (cs' & Hcs' & [= <-]).
    destruct o as [x|].
    + destruct l1 as [|x' l1]; cbn [app].
      * intros [= -> ->]. exists [], s, srcs. now repeat split.
      * intros [= <- ->].
        destruct (IH _ l1 c l2 Hcs' eq_refl)
          as (s1 & s0 & s2 & -> & Hc & H1 & H2).
        exists (s :: s1), s0, s2. repeat split; try assumption.
        cbn [collect]. now rewrite Ho, H1.
    + intros ->.
      destruct (IH _ l1 c l2 Hcs' eq_refl)
        as (s1 & s0 & s2 & -> & Hc & H1 & H2).
      exists (s :: s1), s0, s2. repeat split; try assumption.
      cbn [collect]. now rewrite Ho, H1.
Qed.

Lemma collect_In (srcs : list json) :
  forall cs s c,
    collect int_of_str srcs = Return cs ->
    In s srcs -> classify int_of_str s = Return (Some c) -> In c cs.
Proof.
  induction srcs as [|s0 srcs IH]; intros cs s c H Hin Hc; [destruct Hin|].
  cbn [collect] in H.
  apply obind_Return in H as (o & Ho & H).
  apply obind_Return in H as (cs' & Hcs' & [= <-]).
  destruct Hin as [->|Hin].
  - rewrite Hc in Ho. injection Ho as <-. now left.
  - specialize (IH cs' s c Hcs' Hin Hc). destruct o; [now right | assumption].
Qed.

Lemma collect_nil (srcs : list json) :
  collect int_of_str srcs = Return []
  <-> forall s, In s srcs -> classify int_of_str s = Return None.
Proof.
  induction srcs as [|s0 srcs IH]; cbn [collect].
  - split; [intros _ s [] | reflexivity].
  - split.
    + intro H. apply obind_Return in H as (o & Ho & H).
      apply obind_Return in H as (cs' & Hcs' & H).
      destruct o; [discriminate|]. injection H as ->.
      intros s [<-|Hin]; [assumption | now apply IH].
    + intro H. rewrite (H s0 (or_introl eq_refl)). cbn [obind].
      destruct IH as [_ IH]. rewrite IH; [reflexivity|].
      intros s Hin. apply H. now right.
Qed.

Lemma collect_throw (srcs : list json) (e : bc_exn) :
  collect int_of_str srcs = Throw e ->
  e = PyAttributeError \/ e = PyTypeError \/ e = PyValueError.
Proof.
  induction srcs as [|s srcs IH]; cbn [collect]; [discriminate|].
  destruct (classify int_of_str s) as [o|e'] eqn:E; cbn [obind].
  - destruct (collect int_of_str srcs) as [cs|e'']; cbn [obind];
      [discriminate|].
    intros [= <-]. now apply IH.
  - intros [= <-]. now apply classify_throw in E.
Qed.

Lemma build_item_throw (c : candidate) (e : bc_exn) :
  build_item c = Throw e -> e = PyKeyError \/ e = PyTypeError.
Proof.
  unfold build_item, subscript.
  destruct (dict_get "src" (c_source c)); cbn [obind];
    [|intros [= <-]; now left].
  destruct (c_type c); try discriminate.
  destruct (dict_get "key_systems" (c_source c)) as [ks|]; cbn [obind];
    [|intros [= <-]; now left].
  destruct ks as [| | | | |kd]; cbn [obind]; try (intros [= <-]; now right).
  destruct (dict_get "com.widevine.alpha" kd) as [w|]; cbn [obind];
    [|intros [= <-]; now left].
  destruct w as [| | | | |wd]; cbn [obind]; try (intros [= <-]; now right).
  destruct (dict_get "license_url" wd); cbn [obind];
    [discriminate | intros [= <-]; now left].
Qed.

End Brightcove.

Lemma iterate_throw (v : json) (e : bc_exn) :
  iterate v = Throw e -> e = PyTypeError.
Proof. destruct v; cbn [iterate]; congruence. Qed.

(** What the item says about the entry it was built from. *)
Lemma build_item_Return (c : candidate) (item : bc_item) :
  build_item c = Return item ->
  dict_get "src" (c_source c) = Some (item_path item)
  /\ match item_inputstream item with
     | NoStream => c_type c = Kmp4
     | HLS => c_type c = Khls
     | Widevine url =>
         c_type c = Kwidevine
         /\ exists ks w,
              dict_get "key_systems" (c_source c) = Some (JDict ks)
              /\ dict_get "com.widevine.alpha" ks = Some (JDict w)
              /\ dict_get "license_url" w = Some url
     end.
Proof.
  unfold build_item, subscript.
  destruct (dict_get "src" (c_source c)) as [src|]; cbn [obind];
    [|discriminate].
  destruct (c_type c); try (intros [= <-]; now split).
  destruct (dict_get "key_systems" (c_source c)) as [ks|]; cbn [obind];
    [|discriminate].
  destruct ks as [| | | | |kd]; cbn [obind]; try discriminate.
  destruct (dict_get "com.widevine.alpha" kd) as [w|] eqn:Ew; cbn [obind];
    [|discriminate].
  destruct w as [| | | | |wd]; cbn [obind]; try discriminate.
  destruct (dict_get "license_url" wd) as [url|] eqn:Eu; cbn [obind];
    [|discriminate].
  intros [= <-]. cbn. repeat split. now exists kd, wd.
Qed.

(** The item comes from the first of the entries with the lowest
    key. *)
Lemma process_brightcove_Return (int_of_str : string -> option Z)
    (d : dict json) (item : bc_item) :
  process_brightcove int_of_str (JDict d) = Return item ->
  exists srcs l1 c l2,
    iterate (sources_of d) = Return srcs
    /\ collect int_of_str srcs = Return (l1 ++ c :: l2)
    /\ (forall y, In y l1 -> key_lt (sort_key c) (sort_key y) = true)
    /\ (forall y, In y l2 -> key_lt (sort_key y) (sort_key c) = false)
    /\ build_item c = Return item.
Proof.
  unfold process_brightcove. intro H.
  apply obind_Return in H as (srcs & Hs & H).
  apply obind_Return in H as (cs & Hc & H).
  destruct (sorted_asc cs) as [|c t] eqn:E; [discriminate|].
  apply sorted_asc_head in E as (l1 & l2 & -> & H1 & H2).
  now exists srcs, l1, c, l2.
Qed.

Lemma error_attempt_throw (data : json) (e : bc_exn) :
  error_attempt data = Throw e ->
  e = SlyguyError GEO_ERROR \/ e = PyTypeError \/ e = PyIndexError
  \/ e = PyAttributeError \/ e = PyKeyError.
Proof.
  unfold error_attempt, subscript0, subscript, upper_is, lower_is, get_method.
  repeat (match goal with
          | |- context [match ?x with _ => _ end] => destruct x eqn:?
          end; cbn [obind]);
    try discriminate; intros [= <-]; auto 6.
Qed.

Lemma error_detail_throw (data : json) (e : bc_exn) :
  error_detail data = Throw e ->
  e = SlyguyError GEO_ERROR \/ e = PyTypeError \/ e = PyIndexError
  \/ e = PyAttributeError.
Proof.
  unfold error_detail.
  destruct (error_attempt data) as [m|e'] eqn:E; [discriminate|].
  apply error_attempt_throw in E.
  destruct e'; try discriminate; intros [= <-]; intuition discriminate.
Qed.

(** X18: data that is no dictionary never gives an item: the call
    raises, and what it raises is the add-on's geo error, the add-on's
    no-source error with a detail, or a [TypeError], [IndexError] or
    [AttributeError] of Python; a [KeyError] never leaves it. *)
Theorem non_dict_data_always_raises (int_of_str : string -> option Z)
    (data : json) :
  (forall d, data <> JDict d) ->
  exists e,
    process_brightcove int_of_str data = Throw e
    /\ (e = SlyguyError GEO_ERROR
        \/ (exists msg, e = SlyguyError (NO_BRIGHTCOVE_SRC_with msg))
        \/ e = PyTypeError \/ e = PyIndexError \/ e = PyAttributeError).
Proof.
  intro Hd.
  assert (H : process_brightcove int_of_str data
              = (msg <~ error_detail data ;;
                 Throw (SlyguyError (NO_BRIGHTCOVE_SRC_with msg)))).
  { destruct data; try reflexivity. now elim (Hd d). }
  rewrite H. destruct (error_detail data) as [msg|e] eqn:E; cbn [obind].
  - eexists. split; [reflexivity|]. right. left. now exists msg.
  - exists e. split; [reflexivity|].
    apply error_detail_throw in E. intuition.
Qed.

Lemma non_dict_data_always_raises_witness :
  exists e,
    process_brightcove (fun _ => None)
      (JList [JDict [("error_code", JStr "client_geo")]%string]) = Throw e
    /\ (e = SlyguyError GEO_ERROR
        \/ (exists msg, e = SlyguyError (NO_BRIGHTCOVE_SRC_with msg))
        \/ e = PyTypeError \/ e = PyIndexError \/ e = PyAttributeError).
Proof.
  apply (non_dict_data_always_raises (fun _ => None)
           (JList [JDict [("error_code", JStr "client_geo")]%string])).
  discriminate.
Defined.



(** X20: when [process_brightcove] returns an item for a dictionary,
    the item's path is the [src] of one of the sources, a truthy value;
    the entry made for that source has a lower sort key than the entry
    of every source before it, and no source after it has an entry with
    a lower key. *)
Theorem item_from_lowest_key (int_of_str : string -> option Z)
    (d : dict json) (item : bc_item) :
  process_brightcove int_of_str (JDict d) = Return item ->
  exists s1 s s2 c,
    iterate (sources_of d) = Return (s1 ++ JDict s :: s2)
    /\ classify int_of_str (JDict s) = Return (Some c)
    /\ dict_get "src" s = Some (item_path item)
    /\ truthy_json (item_path item) = true
    /\ (forall y c', In y s1 -> classify int_of_str y = Return (Some c') ->
          key_lt (sort_key c) (sort_key c') = true)
    /\ (forall y c', In y s2 -> classify int_of_str y = Return (Some c') ->
          key_lt (sort_key c') (sort_key c) = false).
Proof.
  intro H.
  apply process_brightcove_Return in H
    as (srcs & l1 & c & l2 & Hs & Hc & H1 & H2 & Hb).
  destruct (collect_split int_of_str srcs _ l1 c l2 Hc eq_refl)
    as (s1 & s & s2 & -> & Hcl & Hc1 & Hc2).
  destruct (classify_some int_of_str s c Hcl)
    as (sd & -> & Hsrc & (v & Hv & Ht) & _).
  apply build_item_Return in Hb as (Hp & _). rewrite Hsrc in Hp.
  rewrite Hv in Hp. injection Hp as ->.
  exists s1, sd, s2, c. repeat split; try assumption.
  - intros y c' Hin Hy.
    exact (H1 _ (collect_In int_of_str s1 l1 y c' Hc1 Hin Hy)).
  - intros y c' Hin Hy.
    exact (H2 _ (collect_In int_of_str s2 l2 y c' Hc2 Hin Hy)).
Qed.

Lemma item_from_lowest_key_witness :
  exists s1 s s2 c,
    iterate (sources_of
      [("sources",
        JList [JDict [("src", JStr "a.mp4"); ("container", JStr "MP4");
                      ("avg_bitrate", JInt 900)];
               JDict [("src", JStr "b.m3u8");
                      ("type", JStr "application/x-mpegURL");
                      ("ext_x_version", JInt 3)];
               JDict [("src", JStr "c.m3u8");
                      ("type", JStr "application/x-mpegURL");
                      ("ext_x_version", JInt 7)];
               JDict [("src", JStr "d.m3u8");
                      ("type", JStr "application/x-mpegURL");
                      ("ext_x_version", JInt 7)]])]%string)
    = Return (s1 ++ JDict s :: s2)
    /\ classify (fun _ => None) (JDict s) = Return (Some c)
    /\ dict_get "src" s = Some (item_path (Item (JStr "c.m3u8") HLS))
    /\ truthy_json (item_path (Item (JStr "c.m3u8") HLS)) = true
    /\ (forall y c', In y s1 -> classify (fun _ => None) y = Return (Some c') ->
          key_lt (sort_key c) (sort_key c') = true)
    /\ (forall y c', In y s2 -> classify (fun _ => None) y = Return (Some c') ->
          key_lt (sort_key c') (sort_key c) = false).
Proof.
  apply (item_from_lowest_key (fun _ => None)).
  reflexivity.
Defined.

(** X21: an HLS source beats the others, and an MP4 source beats
    Widevine: when an item is returned and the loop made an HLS entry
    for some source, the item's input stream is HLS; when it made an MP4
    entry for some source, the item has the HLS input stream or none. *)
Theorem hls_before_mp4_before_widevine (int_of_str : string -> option Z)
    (d : dict json) (item : bc_item) (srcs : list json) (s : json)
    (c : candidate) :
  process_brightcove int_of_str (JDict d) = Return item ->
  iterate (sources_of d) = Return srcs ->
  In s srcs ->
  classify int_of_str s = Return (Some c) ->
  (c_type c = Khls -> item_inputstream item = HLS)
  /\ (c_type c = Kmp4 ->
      item_inputstream item = HLS \/ item_inputstream item = NoStream).
Proof.
  intros H Hs Hin Hcl.
  apply process_brightcove_Return in H
    as (srcs' & l1 & c0 & l2 & Hs' & Hc & H1 & H2 & Hb).
  rewrite Hs in Hs'. injection Hs' as <-.
  assert (Hle : (order_1 c0 <= order_1 c)%Z).
  { pose proof (collect_In int_of_str srcs _ s c Hc Hin Hcl) as Hc'.
    assert (Hk : key_lt (sort_key c) (sort_key c0) = false).
    { apply in_app_or in Hc' as [Hc'|[<-|Hc']].
      - specialize (H1 c Hc'). apply key_lt_spec in H1.
        apply key_lt_false. lia.
      - apply key_lt_false. lia.
      - now apply H2. }
    apply key_lt_false in Hk. unfold sort_key in Hk. cbn [fst snd] in Hk.
    lia. }
  destruct (collect_split int_of_str srcs _ l1 c0 l2 Hc eq_refl)
    as (s1 & s0 & s2 & _ & Hcl0 & _ & _).
  destruct (classify_some int_of_str s0 c0 Hcl0) as (_ & _ & _ & _ & Hk0 & _).
  destruct (classify_some int_of_str s c Hcl) as (_ & _ & _ & _ & Hk & _).
  apply build_item_Return in Hb as (_ & Hst).
  destruct (item_inputstream item) as [| |url].
  - split; [|now right]. intro Hh. exfalso.
    destruct Hk0 as [[E0 O0]|[[E0 O0]|[E0 O0]]],
             Hk as [[E O]|[[E O]|[E O]]]; try congruence; lia.
  - split; [reflexivity | now left].
  - destruct Hst as (Hw & _). split; intro Hh; exfalso;
      destruct Hk0 as [[E0 O0]|[[E0 O0]|[E0 O0]]],
               Hk as [[E O]|[[E O]|[E O]]]; try congruence; lia.
Qed.

Lemma hls_before_mp4_before_widevine_witness :
  (c_type (Candidate [("src", JStr "b.m3u8");
                      ("type", JStr "application/vnd.apple.mpegurl")]%string
                     Khls 1 0) = Khls ->
   item_inputstream (Item (JStr "b.m3u8") HLS) = HLS)
  /\ (c_type (Candidate [("src", JStr "b.m3u8");
                         ("type", JStr "application/vnd.apple.mpegurl")]%string
                        Khls 1 0) = Kmp4 ->
      item_inputstream (Item (JStr "b.m3u8") HLS) = HLS
      \/ item_inputstream (Item (JStr "b.m3u8") HLS) = NoStream).
Proof.
  apply (hls_before_mp4_before_widevine (fun _ => None)
           [("sources",
             JList [JDict [("src", JStr "a.mp4"); ("container", JStr "MP4");
                           ("avg_bitrate", JInt 900)];
                    JDict [("src", JStr "b.m3u8");
                           ("type", JStr "application/vnd.apple.mpegurl")]])]%string
           (Item (JStr "b.m3u8") HLS)
           [JDict [("src", JStr "a.mp4"); ("container", JStr "MP4");
                   ("avg_bitrate", JInt 900)];
            JDict [("src", JStr "b.m3u8");
                   ("type", JStr "application/vnd.apple.mpegurl")]]%string
           (JDict [("src", JStr "b.m3u8");
                   ("type", JStr "application/vnd.apple.mpegurl")]%string)).
  - reflexivity.
  - reflexivity.
  - right. left. reflexivity.
  - reflexivity.
Defined.

(** X22: for a dictionary, the add-on's plain no-source error is raised
    exactly when the sources can be run through and the loop makes an
    entry for none of them; a missing or empty [sources] is one such
    case. *)
Theorem no_source_error (int_of_str : string -> option Z) (d : dict json) :
  (process_brightcove int_of_str (JDict d)
   = Throw (SlyguyError NO_BRIGHTCOVE_SRC)
   <-> exists srcs,
         iterate (sources_of d) = Return srcs
         /\ forall s, In s srcs -> classify int_of_str s = Return None)
  /\ (dict_get "sources" d = None \/ dict_get "sources" d = Some (JList []) ->
      process_brightcove int_of_str (JDict d)
      = Throw (SlyguyError NO_BRIGHTCOVE_SRC)).
Proof.
  assert (Hback : forall srcs,
            iterate (sources_of d) = Return srcs ->
            (forall s, In s srcs -> classify int_of_str s = Return None) ->
            process_brightcove int_of_str (JDict d)
            = Throw (SlyguyError NO_BRIGHTCOVE_SRC)).
  { intros srcs Hs Hn. unfold process_brightcove. rewrite Hs. cbn [obind].
    apply collect_nil in Hn. rewrite Hn. reflexivity. }
  split; [split|].
  - unfold process_brightcove.
    destruct (iterate (sources_of d)) as [srcs|e] eqn:Es; cbn [obind].
    + destruct (collect int_of_str srcs) as [cs|e] eqn:Ec; cbn [obind].
      * destruct (sorted_asc cs) as [|c t] eqn:E.
        -- intros _. apply sorted_asc_nil in E. subst cs.
           exists srcs. split; [reflexivity|]. now apply collect_nil.
        -- intro H. apply build_item_throw in H. intuition discriminate.
      * intros [= ->]. apply collect_throw in Ec. intuition discriminate.
    + intros [= ->]. apply iterate_throw in Es. discriminate.
  - intros (srcs & Hs & Hn). now apply (Hback srcs).
  - intros [H|H]; (apply (Hback []);
      [unfold sources_of; rewrite H; reflexivity | intros s []]).
Qed.

Lemma no_source_error_witness :
  process_brightcove (fun _ => None)
    (JDict [("poster", JStr "p.jpg")]%string)
  = Throw (SlyguyError NO_BRIGHTCOVE_SRC).
Proof.
  apply (no_source_error (fun _ => None) [("poster", JStr "p.jpg")]%string).
  left. reflexivity.
Defined.

(** X23: the input stream of a returned item follows [key_systems]: an
    item with the Widevine input stream comes from a source whose
    [key_systems] is a dictionary holding, under [com.widevine.alpha], a
    dictionary with the [license_url] that became the license key; any
    other item comes from a source without [key_systems]. *)
Theorem stream_follows_key_systems (int_of_str : string -> option Z)
    (d : dict json) (item : bc_item) :
  process_brightcove int_of_str (JDict d) = Return item ->
  exists srcs s,
    iterate (sources_of d) = Return srcs
    /\ In (JDict s) srcs
    /\ dict_get "src" s = Some (item_path item)
    /\ match item_inputstream item with
       | Widevine url =>
           exists ks w,
             dict_get "key_systems" s = Some (JDict ks)
             /\ dict_get "com.widevine.alpha" ks = Some (JDict w)
             /\ dict_get "license_url" w = Some url
       | _ => dict_get "key_systems" s = None
       end.
Proof.
  intro H.
  apply process_brightcove_Return in H
    as (srcs & l1 & c & l2 & Hs & Hc & _ & _ & Hb).
  destruct (collect_split int_of_str srcs _ l1 c l2 Hc eq_refl)
    as (s1 & s & s2 & -> & Hcl & _ & _).
  destruct (classify_some int_of_str s c Hcl)
    as (sd & -> & Hsrc & _ & _ & Hw).
  apply build_item_Return in Hb as (Hp & Hst). rewrite Hsrc in Hp, Hst.
  exists (s1 ++ JDict sd :: s2), sd. repeat split; try assumption.
  - apply in_or_app. right. now left.
  - assert (Hno : c_type c <> Kwidevine -> dict_get "key_systems" sd = None).
    { intro Hn. destruct (dict_get "key_systems" sd); [|reflexivity].
      elim Hn. now apply Hw. }
    destruct (item_inputstream item) as [| |url].
    + apply Hno. congruence.
    + apply Hno. congruence.
    + now destruct Hst as (_ & Hst).
Qed.

Lemma stream_follows_key_systems_witness :
  exists srcs s,
    iterate (sources_of
      [("sources",
        JList [JDict [("src", JStr "v.mpd");
                      ("type", JStr "application/dash+xml");
                      ("key_systems",
                       JDict [("com.widevine.alpha",
                               JDict [("license_url", JStr "https://l/")])])]])
      ]%string) = Return srcs
    /\ In (JDict s) srcs
    /\ dict_get "src" s
       = Some (item_path (Item (JStr "v.mpd") (Widevine (JStr "https://l/"))))
    /\ exists ks w,
         dict_get "key_systems" s = Some (JDict ks)
         /\ dict_get "com.widevine.alpha" ks = Some (JDict w)
         /\ dict_get "license_url" w = Some (JStr "https://l/").
Proof.
  apply (stream_follows_key_systems (fun _ => None) _
           (Item (JStr "v.mpd") (Widevine (JStr "https://l/")))).
  reflexivity.
Defined.

(** X24: the Widevine test [in] accepts a [key_systems] that is a text
    or a list, but the item needs a dictionary: for a single source with
    a truthy [src], the DASH type and a [key_systems] that is no
    dictionary and passes the test, [process_brightcove] raises
    [TypeError]. *)
Theorem widevine_key_systems_must_be_dict (int_of_str : string -> option Z)
    (d s : dict json) (v ks : json) :
  dict_get "sources" d = Some (JList [JDict s]) ->
  dict_get "src" s = Some v ->
  truthy_json v = true ->
  dict_get "type" s = Some (JStr "application/dash+xml") ->
  dict_get "key_systems" s = Some ks ->
  (forall kd, ks <> JDict kd) ->
  contains "com.widevine.alpha" ks = Return true ->
  process_brightcove int_of_str (JDict d) = Throw PyTypeError.
Proof.
  intros Hd Hsrc Ht Hty Hks Hnd Hin.
  unfold process_brightcove, sources_of. rewrite Hd.
  cbn [iterate obind collect]. unfold classify.
  rewrite Hsrc, Ht, Hty, Hks. cbn [negb].
  rewrite !andb_false_r. rewrite Hin.
  change (str_eq (JStr "application/dash+xml") "application/dash+xml")
    with true.
  cbn [obind sorted_asc fold_right insert_asc].
  unfold build_item, subscript. cbn [c_source c_type].
  rewrite Hsrc, Hks. cbn [obind].
  destruct ks as [| | | | |kd]; try reflexivity. now elim (Hnd kd).
Qed.

Lemma widevine_key_systems_must_be_dict_witness :
  process_brightcove (fun _ => None)
    (JDict [("sources",
             JList [JDict [("src", JStr "v.mpd");
                           ("type", JStr "application/dash+xml");
                           ("key_systems",
                            JStr "com.widevine.alpha")]])]%string)
  = Throw PyTypeError.
Proof.
  apply (widevine_key_systems_must_be_dict (fun _ => None) _
           [("src", JStr "v.mpd"); ("type", JStr "application/dash+xml");
            ("key_systems", JStr "com.widevine.alpha")]%string
           (JStr "v.mpd") (JStr "com.widevine.alpha")).
  - reflexivity.
  - reflexivity.
  - reflexivity.
  - reflexivity.
  - reflexivity.
  - discriminate.
  - reflexivity.
Defined.
